(** * Linux-Task-Manager: the sampler, the filter pipeline and the render
      path of [task_manager_gui.py], embedded and verified.

    Conventions of the embedding.
    - A Python [float] that reaches a record or a table cell went through
      [round(x, n)] or a ['.1f'] format; both give the decimal nearest to
      the exact value of [x], ties to even.  Such a float is modelled by
      that decimal, a rational ([Q]), and stands for the double nearest to
      it.  Where the program computes with doubles and the rounding of
      the operations shows (the quotient and the product behind
      [memory_percent], the difference of two memory percentages), the
      operations are those of IEEE 754 binary64 ([SpecFloat], precision
      53); a division of a byte count by a power of two is exact and is
      written on [Q].  A float psutil returns ([cpu_percent], [percent])
      is given by its value.
    - Python [str] is modelled by [string], one character per code point,
      the 256 characters of [ascii] being the code points U+0000 to
      U+00FF; [lower] and [strip] follow [str.lower] and [str.strip] on
      all of them.
    - A [dict] with a fixed set of keys (a process record, the memory
      summary) is a record; [process_cache] is a [gmap]; the [pids_dict]
      handed to [kill_processes] is an association list in insertion
      order, because the order of iteration shows in the messages.
    - Calls into psutil, the file system and Qt are inputs of the model:
      what the call returned or which exception it raised is given with
      each observation. *)

From Stdlib Require Import ZArith QArith Qround Qabs String Ascii List Lia.
From Stdlib Require Import DecimalString Sorted SpecFloat.
From stdpp Require Import base option list gmap strings.

Local Open Scope string_scope.
Local Open Scope Z_scope.

(** ** Python numbers *)

(** Nearest integer, ties to even: the rounding of [round] and of the
    ['.1f'] format. *)
Definition round_half_even (x : Q) : Z :=
  let n := Qfloor x in
  match Qcompare ((x - inject_Z n) * 2) 1 with
  | Lt => n
  | Gt => n + 1
  | Eq => if Z.even n then n else n + 1
  end.

(** [round(x, ndigits)] for a non-negative number of digits. *)
Definition py_round (x : Q) (ndigits : nat) : Q :=
  let scale := 10 ^ Z.of_nat ndigits in
  Qred (Qmake (round_half_even (x * inject_Z scale)) (Z.to_pos scale)).

Definition round1 (x : Q) : Q := py_round x 1.

(** [str(n)] for an integer. *)
Definition str_of_Z (n : Z) : string := NilZero.string_of_int (Z.to_int n).

(** [f"{x:.1f}"]: the sign, the integer part, a point and one digit. *)
Definition format_1f (x : Q) : string :=
  let t := round_half_even (Qabs x * 10) in
  (if Qlt_le_dec x 0 then "-" else "") ++
  str_of_Z (t / 10) ++ "." ++ str_of_Z (t mod 10).

(** [a > b], [a >= b] and [max(a, b)] on floats. *)
Definition Qgtb (a b : Q) : bool := negb (Qle_bool a b).
Definition Qgeb (a b : Q) : bool := Qle_bool b a.
Definition py_max (a b : Q) : Q := if Qgtb b a then b else a.

(** ** Doubles

    Binary64 values are [spec_float]s of precision 53; [SFdiv], [SFmul]
    and [SFsub] round to nearest, ties to even, as the hardware does. *)
Definition prec : Z := 53.
Definition emax : Z := 1024.

(** An integer as an operand: mantissa [n], exponent 0.  Nothing is
    rounded here, so that [true_div] rounds the exact quotient once, as
    [int / int] does; [100] is a double as it stands. *)
Definition float_of_Z (n : Z) : spec_float :=
  match n with
  | Z0 => S754_zero false
  | Zpos p => S754_finite false p 0
  | Zneg p => S754_finite true p 0
  end.

(** [a / b] on two integers: the double nearest to the quotient. *)
Definition true_div (a b : Z) : spec_float :=
  SFdiv prec emax (float_of_Z a) (float_of_Z b).

(** The double a rational stands for: the one nearest to it. *)
Definition float_of_Q (q : Q) : spec_float :=
  true_div (Qnum q) (Zpos (Qden q)).

(** The exact value of a finite double.  Infinities and NaN do not arise
    from the byte counts and percentages of this program; they are read
    as 0. *)
Definition Q_of_float (f : spec_float) : Q :=
  match f with
  | S754_finite s m e =>
      let n := if s then Zneg m else Zpos m in
      if 0 <=? e then inject_Z (n * 2 ^ e)
      else Qmake n (Z.to_pos (2 ^ (- e)))
  | _ => 0%Q
  end.

(** [rss / total * 100] as line 381 computes it: the quotient of the two
    integers, then its product with [100.0]. *)
Definition percent_of (rss total : Z) : Q :=
  Q_of_float (SFmul prec emax (true_div rss total) (float_of_Z 100)).

(** [float(a) - float(b)]. *)
Definition float_sub (a b : Q) : Q :=
  Q_of_float (SFsub prec emax (float_of_Q a) (float_of_Q b)).

(** ** Python strings *)

(** [str.lower] on one character: the letters A-Z and those of U+00C0 to
    U+00DE, the multiplication sign U+00D7 apart, move up by 32. *)
Definition lower_char (c : ascii) : ascii :=
  let n := nat_of_ascii c in
  if (Nat.leb 65 n && Nat.leb n 90)
     || (Nat.leb 192 n && Nat.leb n 222 && negb (Nat.eqb n 215))
  then ascii_of_nat (n + 32) else c.

Fixpoint lower (s : string) : string :=
  match s with
  | EmptyString => EmptyString
  | String c s' => String (lower_char c) (lower s')
  end.

(** The white space [str.strip] removes: space, tab, line feed, vertical
    tab, form feed, carriage return, the four separators 28..31, next
    line (U+0085) and no-break space (U+00A0). *)
Definition is_space (c : ascii) : bool :=
  let n := nat_of_ascii c in
  Nat.eqb n 32 || (Nat.leb 9 n && Nat.leb n 13)
  || (Nat.leb 28 n && Nat.leb n 31) || Nat.eqb n 133 || Nat.eqb n 160.

Fixpoint lstrip (s : string) : string :=
  match s with
  | EmptyString => EmptyString
  | String c s' => if is_space c then lstrip s' else s
  end.

Fixpoint rstrip (s : string) : string :=
  match s with
  | EmptyString => EmptyString
  | String c s' =>
      match rstrip s' with
      | EmptyString => if is_space c then EmptyString else String c EmptyString
      | r => String c r
      end
  end.

Definition strip (s : string) : string := rstrip (lstrip s).

(** [needle in hay]. *)
Fixpoint py_in (needle hay : string) : bool :=
  orb (String.prefix needle hay)
      (match hay with
       | EmptyString => false
       | String _ hay' => py_in needle hay'
       end).

(** [s[:n]]. *)
Fixpoint take_str (n : nat) (s : string) : string :=
  match n, s with
  | O, _ => EmptyString
  | _, EmptyString => EmptyString
  | S n', String c s' => String c (take_str n' s')
  end.

Definition backslash : ascii := ascii_of_nat 92.

Fixpoint has_char (c : ascii) (s : string) : bool :=
  match s with
  | EmptyString => false
  | String d s' => orb (Ascii.eqb c d) (has_char c s')
  end.

(** [s.rpartition(c)[2]]: what follows the last [c], the whole string when
    there is none. *)
Fixpoint after_last (c : ascii) (s : string) : string :=
  match s with
  | EmptyString => EmptyString
  | String d s' =>
      if has_char c s' then after_last c s'
      else if Ascii.eqb c d then s' else s
  end.

(** Truth value of a string. *)
Definition truthy (s : string) : bool :=
  match s with EmptyString => false | _ => true end.

(** ** Data model *)

(** One entry of the process list ([processes.append({...})] in
    [DataFetcher.run]). *)
Record ProcessRecord := {
  pid : Z;
  name : string;
  username : string;
  cpu_percent : Q;
  memory_mb : Q;
  memory_percent : Q;
  disk_io_mb : Q
}.

(** The [mem_info] dict of [DataFetcher.run]. *)
Record MemInfo := {
  total : Q;
  used : Q;
  available : Q;
  percent : Q
}.

(** ** What psutil answers *)

Inductive exn :=
| NoSuchProcess | AccessDenied | ZombieProcess | AttributeError
| ZeroDivisionError | OtherException (msg : string).

Inductive result (A : Type) :=
| Ok (a : A)
| Raise (e : exn).
Arguments Ok {A} a.
Arguments Raise {A} e.

(** [psutil.ZombieProcess] is a subclass of [psutil.NoSuchProcess]: a
    handler for the latter catches both. *)
Definition is_NoSuchProcess (e : exn) : bool :=
  match e with NoSuchProcess | ZombieProcess => true | _ => false end.
Definition is_AccessDenied (e : exn) : bool :=
  match e with AccessDenied => true | _ => false end.
Definition is_AttributeError (e : exn) : bool :=
  match e with AttributeError => true | _ => false end.

(** [psutil.virtual_memory()]. *)
Record svmem := {
  vm_total : Z;
  vm_used : Z;
  vm_available : Z;
  vm_percent : Q
}.

(** [proc.as_dict(attrs=['pid', 'name', 'memory_info', 'username'])]; an
    attribute psutil may not read ([AccessDenied], [ZombieProcess]) comes
    back as [None], while [NoSuchProcess] leaves [as_dict] when the
    process is gone.  The ['pid'] entry is [proc.pid]. *)
Record pinfo := {
  pi_name : option string;
  pi_memory_info : option Z;       (* .rss, in bytes *)
  pi_username : option string
}.

(** One process as [psutil.process_iter] yields it, with the answer each
    call on it gives in this cycle. *)
Record proc_obs := {
  o_pid : Z;                               (* proc.pid *)
  o_as_dict : result pinfo;                (* proc.as_dict(...) *)
  o_cpu_percent : result Q;                (* proc.cpu_percent(interval=None) *)
  o_io_counters : result (Z * Z)           (* proc.io_counters(): read_bytes, write_bytes *)
}.

Record cycle_obs := {
  c_mem : svmem;
  c_procs : list proc_obs
}.

(** ** DataFetcher *)

Record DataFetcher := {
  process_cache : gmap Z Q;
  total_memory : Z;
  _cpu_sample_rate : Z;
  _cpu_sample_counter : Z;
  _cpu_initialized : bool;
  _disk_io_threshold_mb : Z
}.

(** [DataFetcher.__init__]; [total] is what [psutil.virtual_memory().total]
    answers at that moment. *)
Definition DataFetcher_init (total : Z) : DataFetcher :=
  {| process_cache := ∅;
     total_memory := total;
     _cpu_sample_rate := 4;
     _cpu_sample_counter := 0;
     _cpu_initialized := false;
     _disk_io_threshold_mb := 50 |}.

Definition gb_divisor : Z := 1073741824.

Definition make_mem_info (mem : svmem) : MemInfo :=
  {| total := py_round (inject_Z (vm_total mem) / inject_Z gb_divisor) 2;
     used := py_round (inject_Z (vm_used mem) / inject_Z gb_divisor) 2;
     available := py_round (inject_Z (vm_available mem) / inject_Z gb_divisor) 2;
     percent := py_round (vm_percent mem) 1 |}.

(** The CPU block of the loop body (lines 344-361): the new cache and the
    value of [cpu_percent], or the exception that leaves the block. *)
Definition sample_cpu (do_cpu_sample initialized : bool)
    (cache : gmap Z Q) (o : proc_obs) : gmap Z Q * result Q :=
  let handler (e : exn) : result Q :=
    if is_AccessDenied e || is_NoSuchProcess e then Ok 0%Q else Raise e in
  if do_cpu_sample then
    if negb initialized then
      match o_cpu_percent o with
      | Ok _ => (<[o_pid o := 0%Q]> cache, Ok 0%Q)
      | Raise e => (cache, handler e)
      end
    else
      match o_cpu_percent o with
      | Ok m => (<[o_pid o := m]> cache, Ok m)
      | Raise e => (cache, handler e)
      end
  else (cache, Ok (default 0%Q (cache !! o_pid o))).

(** The disk block (lines 363-369). *)
Definition sample_disk (threshold : Z) (mem_mb : Q) (o : proc_obs) : result Q :=
  if Qgtb mem_mb (inject_Z threshold) then
    match o_io_counters o with
    | Ok (read_bytes, write_bytes) =>
        Ok (round1 (inject_Z (read_bytes + write_bytes) / 1048576))
    | Raise e =>
        if is_AccessDenied e || is_NoSuchProcess e || is_AttributeError e
        then Ok 0%Q else Raise e
    end
  else Ok 0%Q.

(** Line 371: [pinfo.get('username') or 'unknown']. *)
Definition or_unknown (u : option string) : string :=
  match u with
  | Some s => if truthy s then s else "unknown"
  | None => "unknown"
  end.

(** Lines 372-373: the domain qualifier goes. *)
Definition strip_domain (s : string) : string :=
  if has_char backslash s then after_last backslash s else s.

(** The user name of the record: line 378 keeps 15 characters. *)
Definition clean_username (u : option string) : string :=
  take_str 15 (strip_domain (or_unknown u)).

Definition clean_name (n : option string) : string :=
  take_str 30 (match n with Some s => s | None => "" end).

(** What one turn of the [for proc in psutil.process_iter(...)] loop does. *)
Inductive outcome :=
| Appended (r : ProcessRecord)   (* a record was appended *)
| Skipped                        (* caught by the handler of line 384 *)
| Crashed (e : exn).             (* the exception leaves the loop *)

Definition process_one (d : DataFetcher) (do_cpu_sample : bool)
    (cache : gmap Z Q) (o : proc_obs) : gmap Z Q * outcome :=
  let leave (e : exn) : outcome :=
    if is_NoSuchProcess e || is_AccessDenied e then Skipped else Crashed e in
  match o_as_dict o with
  | Raise e => (cache, leave e)
  | Ok info =>
      match pi_memory_info info with
      | None => (cache, leave AttributeError)
      | Some rss =>
          let mem_mb := round1 (inject_Z rss / 1048576) in
          match sample_cpu do_cpu_sample (_cpu_initialized d) cache o with
          | (cache', Raise e) => (cache', leave e)
          | (cache', Ok cpu) =>
              match sample_disk (_disk_io_threshold_mb d) mem_mb o with
              | Raise e => (cache', leave e)
              | Ok disk_mb =>
                  if total_memory d =? 0 then (cache', leave ZeroDivisionError)
                  else
                    (cache',
                     Appended
                       {| pid := o_pid o;
                          name := clean_name (pi_name info);
                          username := clean_username (pi_username info);
                          cpu_percent := round1 cpu;
                          memory_mb := mem_mb;
                          memory_percent :=
                            round1 (percent_of rss (total_memory d));
                          disk_io_mb := disk_mb |})
              end
          end
      end
  end.

(** The whole [for] loop: the cache it leaves and the list built, or [None]
    when an exception left it. *)
Fixpoint process_iter (d : DataFetcher) (do_cpu_sample : bool)
    (obs : list proc_obs) (cache : gmap Z Q)
    : gmap Z Q * option (list ProcessRecord) :=
  match obs with
  | [] => (cache, Some [])
  | o :: rest =>
      match process_one d do_cpu_sample cache o with
      | (cache', Crashed _) => (cache', None)
      | (cache', Skipped) => process_iter d do_cpu_sample rest cache'
      | (cache', Appended r) =>
          let '(cache'', res) := process_iter d do_cpu_sample rest cache' in
          (cache'', option_map (cons r) res)
      end
  end.

(** [processes.sort(key=lambda x: x['memory_mb'], reverse=True)]: stable,
    largest first. *)
Fixpoint insert_by_memory (r : ProcessRecord) (l : list ProcessRecord)
    : list ProcessRecord :=
  match l with
  | [] => [r]
  | x :: l' =>
      if Qle_bool (memory_mb x) (memory_mb r) then r :: l
      else x :: insert_by_memory r l'
  end.

Definition sort_by_memory (l : list ProcessRecord) : list ProcessRecord :=
  foldr insert_by_memory [] l.

(** The [finally] clause (lines 404-407). *)
Definition advance_counter (d : DataFetcher) : Z :=
  if _cpu_sample_rate d =? 0 then 0
  else (_cpu_sample_counter d + 1) mod _cpu_sample_rate d.

(** One turn of the [while] loop of [DataFetcher.run], up to the wait: the
    new state and what [data_ready] emits, if it does. *)
Definition run_cycle (c : cycle_obs) (d : DataFetcher)
    : DataFetcher * option (MemInfo * list ProcessRecord) :=
  let mi := make_mem_info (c_mem c) in
  let do_cpu_sample := _cpu_sample_counter d =? 0 in
  match process_iter d do_cpu_sample (c_procs c) (process_cache d) with
  | (cache, None) =>
      ({| process_cache := cache;
          total_memory := total_memory d;
          _cpu_sample_rate := _cpu_sample_rate d;
          _cpu_sample_counter := advance_counter d;
          _cpu_initialized := _cpu_initialized d;
          _disk_io_threshold_mb := _disk_io_threshold_mb d |}, None)
  | (cache, Some processes) =>
      let current_pids : gset Z := list_to_set (map pid processes) in
      ({| process_cache := filter (λ kv, kv.1 ∈ current_pids) cache;
          total_memory := total_memory d;
          _cpu_sample_rate := _cpu_sample_rate d;
          _cpu_sample_counter := advance_counter d;
          _cpu_initialized :=
            if do_cpu_sample && negb (_cpu_initialized d) then true
            else _cpu_initialized d;
          _disk_io_threshold_mb := _disk_io_threshold_mb d |},
       Some (mi, sort_by_memory processes))
  end.

(** The cycles of a run, one observation each: the final state and the
    emissions, oldest first. *)
Fixpoint run (cs : list cycle_obs) (d : DataFetcher)
    : DataFetcher * list (option (MemInfo * list ProcessRecord)) :=
  match cs with
  | [] => (d, [])
  | c :: cs' =>
      let '(d', e) := run_cycle c d in
      let '(d'', es) := run cs' d' in
      (d'', e :: es)
  end.

(** ** The filter pipeline *)

(** What the operating system answers to [is_inaccessible_process]:
    [exe pid] is [psutil.Process(pid).exe()], which returns a path or
    raises one of the three exceptions the function handles
    ([NoSuchProcess], [AccessDenied], [OSError]); [path_exists] is
    [os.path.exists] and [dir_readable p] is
    [os.access(os.path.dirname(p), os.R_OK)]. *)
Record os_env := {
  exe : Z → option string;          (* [None]: one of the handled exceptions *)
  path_exists : string → bool;
  dir_readable : string → bool
}.

Definition is_inaccessible_process (os : os_env) (proc : ProcessRecord) : bool :=
  match exe os (pid proc) with
  | Some exe_path =>
      if negb (truthy exe_path) || negb (path_exists os exe_path) then true
      else negb (dir_readable os exe_path)
  | None => true
  end.

Definition system_users : gset string :=
  {[ "root"; "system"; "local system";
     "nt authority\system"; "nt authority\localservice";
     "nt authority\networkservice"; "localservice"; "networkservice" ]}.

Definition is_system_process (proc : ProcessRecord) : bool :=
  let user := lower (username proc) in
  if bool_decide (pid proc ∈ [0; 1; 2]) then true
  else if bool_decide (user ∈ system_users) then true
  else false.

(** ** The window *)

Inductive highlight := color_high | color_med | color_none.

(** The seven items of a table row, by their text, and the background they
    share. *)
Record row_items := {
  pid_item : string;
  user_item : string;
  name_item : string;
  cpu_item : string;
  ram_item : string;
  percent_item : string;
  disk_item : string;
  background : highlight
}.

(** An entry of [_pending_offscreen_fill]: items already built, or a record
    still to be turned into items. *)
Inductive fill_entry :=
| FillItems (row : nat) (items : row_items)
| FillProc (row : nat) (proc : ProcessRecord).

(** A [QTimer]: its interval in ms and whether it is running. *)
Record QTimer := {
  interval : Z;
  isActive : bool
}.

Definition stop (t : QTimer) : QTimer :=
  {| interval := interval t; isActive := false |}.
Definition start (t : QTimer) : QTimer :=
  {| interval := interval t; isActive := true |}.
Definition start_ms (msec : Z) (t : QTimer) : QTimer :=
  {| interval := msec; isActive := true |}.

Record TaskManagerGUI := {
  hide_system_checkbox : bool;             (* isChecked() *)
  hide_inaccessible_checkbox : bool;       (* isChecked() *)
  search_input : string;                   (* text() *)
  _cached_processes : list ProcessRecord;
  _last_mem_info : option MemInfo;
  _last_rendered : option (list ProcessRecord);
  _pending_render_mem_info : option MemInfo;
  _pending_render_processes : option (list ProcessRecord);
  _pending_total_processes : Z;
  _user_scrolling : bool;
  _ui_update_timer : QTimer;
  _bg_fill_timer : QTimer;
  _pending_offscreen_fill : list fill_entry;
  table : list (option row_items);         (* row -> its items, if set *)
  status_message : string;                 (* statusBar().showMessage *)
  single_shots : list Z                    (* QTimer.singleShot(ms, self._flush_ui_update) *)
}.

(** The state [__init__] leaves (lines 1097-1140), for given check boxes;
    [initUI] shows ['Loading...'] in the status bar (line 1364). *)
Definition TaskManagerGUI_init (hide_system hide_inaccessible : bool)
    : TaskManagerGUI :=
  {| hide_system_checkbox := hide_system;
     hide_inaccessible_checkbox := hide_inaccessible;
     search_input := "";
     _cached_processes := [];
     _last_mem_info := None;
     _last_rendered := Some [];
     _pending_render_mem_info := None;
     _pending_render_processes := None;
     _pending_total_processes := 0;
     _user_scrolling := false;
     _ui_update_timer := {| interval := 20; isActive := false |};
     _bg_fill_timer := {| interval := 80; isActive := false |};
     _pending_offscreen_fill := [];
     table := [];
     status_message := "Loading...";
     single_shots := [] |}.

Definition len {A} (l : list A) : Z := Z.of_nat (length l).

(** The three comprehensions of [_apply_search_filter], in the order of the
    source. *)
Definition system_filter (g : TaskManagerGUI) (processes : list ProcessRecord) :=
  if hide_system_checkbox g
  then List.filter (λ p, negb (is_system_process p)) processes
  else processes.

Definition inaccessible_filter (os : os_env) (g : TaskManagerGUI)
    (processes : list ProcessRecord) :=
  if hide_inaccessible_checkbox g
  then List.filter (λ p, negb (is_inaccessible_process os p)) processes
  else processes.

Definition search_filter (g : TaskManagerGUI) (processes : list ProcessRecord) :=
  let search_text := lower (strip (search_input g)) in
  if truthy search_text
  then List.filter (λ p, py_in search_text (lower (name p))) processes
  else processes.

Definition _apply_search_filter (os : os_env) (g : TaskManagerGUI)
    : TaskManagerGUI :=
  match _last_mem_info g with
  | None => g
  | Some _ =>
      let processes := _cached_processes g in
      let total_processes := len processes in
      let processes := system_filter g processes in
      let processes := inaccessible_filter os g processes in
      let processes := search_filter g processes in
      {| hide_system_checkbox := hide_system_checkbox g;
         hide_inaccessible_checkbox := hide_inaccessible_checkbox g;
         search_input := search_input g;
         _cached_processes := _cached_processes g;
         _last_mem_info := _last_mem_info g;
         _last_rendered := _last_rendered g;
         _pending_render_mem_info := _last_mem_info g;
         _pending_render_processes := Some processes;
         _pending_total_processes := total_processes;
         _user_scrolling := _user_scrolling g;
         _ui_update_timer := start (_ui_update_timer g);
         _bg_fill_timer := _bg_fill_timer g;
         _pending_offscreen_fill := _pending_offscreen_fill g;
         table := table g;
         status_message := status_message g;
         single_shots := single_shots g |}
  end.

(** The rows [_apply_search_filter] hands to the coalescer. *)
Definition filtered_rows (os : os_env) (g : TaskManagerGUI)
    : list ProcessRecord :=
  search_filter g
    (inaccessible_filter os g (system_filter g (_cached_processes g))).

Definition search_text (g : TaskManagerGUI) : string :=
  lower (strip (search_input g)).

(** [prev == proc] on two records. *)
Definition record_eqb (a b : ProcessRecord) : bool :=
  (pid a =? pid b) && String.eqb (name a) (name b)
  && String.eqb (username a) (username b)
  && Qeq_bool (cpu_percent a) (cpu_percent b)
  && Qeq_bool (memory_mb a) (memory_mb b)
  && Qeq_bool (memory_percent a) (memory_percent b)
  && Qeq_bool (disk_io_mb a) (disk_io_mb b).

(** The colouring rule of both paint paths. *)
Definition select_color (proc : ProcessRecord) : highlight :=
  if Qgtb (memory_percent proc) 10 then color_high
  else if Qgtb (memory_percent proc) 5 then color_med
  else color_none.

(** [cpu_value = max(0.01, proc.get('cpu_percent', 0.0))]. *)
Definition cpu_value (proc : ProcessRecord) : Q :=
  py_max (1 # 100) (cpu_percent proc).

(** The items [_render_process_list] builds for a row (lines 2988-3043). *)
Definition render_items (proc : ProcessRecord) : row_items :=
  {| pid_item := str_of_Z (pid proc);
     user_item := username proc;
     name_item := name proc;
     cpu_item := format_1f (cpu_value proc);
     ram_item := format_1f (memory_mb proc);
     percent_item := format_1f (memory_percent proc);
     disk_item := format_1f (disk_io_mb proc);
     background := select_color proc |}.

(** The items [_bg_fill_step] builds for a [(row, proc)] entry (lines
    3330-3370). *)
Definition fill_items (proc : ProcessRecord) : row_items :=
  {| pid_item := str_of_Z (pid proc);
     user_item := username proc;
     name_item := name proc;
     cpu_item := format_1f (cpu_value proc);
     ram_item := format_1f (memory_mb proc);
     percent_item := format_1f (memory_percent proc);
     disk_item := format_1f (disk_io_mb proc);
     background := select_color proc |}.

(** [self.table.setItem(row, c, ...)] for the seven columns; a row the
    table does not have is left alone. *)
Definition setItems (row : nat) (items : row_items)
    (t : list (option row_items)) : list (option row_items) :=
  <[row := Some items]> t.

(** What the toolkit tells a render: the clock, and the visible row range
    as lines 2951-2967 compute it from the viewport. *)
Record render_env := {
  current_time : string;            (* datetime.now().strftime('%H:%M:%S') *)
  top_row : Z;
  bottom_row : Z
}.

(** The [for row, proc in enumerate(processes)] loop of
    [_render_process_list], from row [row] on.  While the user scrolls the
    items of a visible row are queued on [_pending_offscreen_fill] instead
    of being set; line 3073 then replaces that list, so the queue of the
    loop never outlives the render and the table is all the loop
    changes. *)
Fixpoint render_rows (e : render_env) (scrolling full_reload : bool)
    (prev_rows : list ProcessRecord) (row : nat)
    (processes : list ProcessRecord) (t : list (option row_items))
    : list (option row_items) :=
  match processes with
  | [] => t
  | proc :: rest =>
      let unchanged :=
        negb full_reload &&
        match prev_rows !! row with
        | Some prev => record_eqb prev proc
        | None => false
        end in
      let t' :=
        if (Z.of_nat row <? top_row e) || (bottom_row e <? Z.of_nat row) then t
        else if unchanged then t
        else if negb scrolling then setItems row (render_items proc) t
        else t in
      render_rows e scrolling full_reload prev_rows (S row) rest t'
  end.

(** Lines 3068-3072: the rows that still have no item. *)
Fixpoint pending_fill (row : nat) (t : list (option row_items))
    (processes : list ProcessRecord) : list fill_entry :=
  match t, processes with
  | item :: t', proc :: rest =>
      match item with
      | None => FillProc row proc :: pending_fill (S row) t' rest
      | Some _ => pending_fill (S row) t' rest
      end
  | _, _ => []
  end.

(** The status line of lines 3142-3147. *)
Definition status_line (g : TaskManagerGUI) (now : string)
    (processes : list ProcessRecord) (total_processes : Z) : string :=
  if hide_system_checkbox g || hide_inaccessible_checkbox g
  then "Ready - Last updated: " ++ now ++ " | Showing: "
       ++ str_of_Z (len processes) ++ " / Total Processes: "
       ++ str_of_Z total_processes
  else "Ready - Last updated: " ++ now ++ " | Total Processes: "
       ++ str_of_Z total_processes.

(** [_render_process_list], as far as the table, the fill queue, the rows
    kept for diffing and the status bar go (labels, progress bar,
    selection and scroll position are widgets of their own). *)
Definition _render_process_list (e : render_env) (g : TaskManagerGUI)
    (mem_info : MemInfo) (processes : list ProcessRecord)
    (total_processes : Z) : TaskManagerGUI :=
  let prev_rows := default [] (_last_rendered g) in
  let full_reload := negb (length prev_rows =? length processes)%nat in
  let t0 := if full_reload then replicate (length processes) None else table g in
  let t1 := render_rows e (_user_scrolling g) full_reload prev_rows 0 processes t0 in
  let pending := pending_fill 0 t1 processes in
  {| hide_system_checkbox := hide_system_checkbox g;
     hide_inaccessible_checkbox := hide_inaccessible_checkbox g;
     search_input := search_input g;
     _cached_processes := _cached_processes g;
     _last_mem_info := _last_mem_info g;
     _last_rendered := Some processes;
     _pending_render_mem_info := _pending_render_mem_info g;
     _pending_render_processes := _pending_render_processes g;
     _pending_total_processes := _pending_total_processes g;
     _user_scrolling := _user_scrolling g;
     _ui_update_timer := _ui_update_timer g;
     _bg_fill_timer :=
       match pending with
       | [] => stop (_bg_fill_timer g)
       | _ => start (_bg_fill_timer g)
       end;
     _pending_offscreen_fill := pending;
     table := t1;
     status_message := status_line g (current_time e) processes total_processes;
     single_shots := single_shots g |}.

(** Whether a status line gives the filtered count, and whether any of the
    three filters of the pipeline is switched on. *)
Definition shows_filtered_count (status : string) : bool :=
  py_in "Showing: " status.

Definition filters_active (g : TaskManagerGUI) : bool :=
  hide_system_checkbox g || hide_inaccessible_checkbox g
  || truthy (search_text g).

(** The three locals of lines 3151-3153: [x or y] takes [y] when [x] is
    [None], an empty list or [0]. *)
Definition flush_mem_info (g : TaskManagerGUI) : option MemInfo :=
  match _pending_render_mem_info g with
  | Some m => Some m
  | None => _last_mem_info g
  end.

Definition flush_processes (g : TaskManagerGUI) : list ProcessRecord :=
  match _pending_render_processes g with
  | Some (p :: l) => p :: l
  | Some [] | None => _cached_processes g
  end.

Definition flush_total (g : TaskManagerGUI) : Z :=
  if _pending_total_processes g =? 0 then len (_cached_processes g)
  else _pending_total_processes g.

Definition clear_pending (timer : QTimer) (g : TaskManagerGUI) : TaskManagerGUI :=
  {| hide_system_checkbox := hide_system_checkbox g;
     hide_inaccessible_checkbox := hide_inaccessible_checkbox g;
     search_input := search_input g;
     _cached_processes := _cached_processes g;
     _last_mem_info := _last_mem_info g;
     _last_rendered := _last_rendered g;
     _pending_render_mem_info := None;
     _pending_render_processes := None;
     _pending_total_processes := 0;
     _user_scrolling := _user_scrolling g;
     _ui_update_timer := timer;
     _bg_fill_timer := _bg_fill_timer g;
     _pending_offscreen_fill := _pending_offscreen_fill g;
     table := table g;
     status_message := status_message g;
     single_shots := single_shots g |}.

Definition set_ui_update_timer (timer : QTimer) (g : TaskManagerGUI)
    : TaskManagerGUI :=
  {| hide_system_checkbox := hide_system_checkbox g;
     hide_inaccessible_checkbox := hide_inaccessible_checkbox g;
     search_input := search_input g;
     _cached_processes := _cached_processes g;
     _last_mem_info := _last_mem_info g;
     _last_rendered := _last_rendered g;
     _pending_render_mem_info := _pending_render_mem_info g;
     _pending_render_processes := _pending_render_processes g;
     _pending_total_processes := _pending_total_processes g;
     _user_scrolling := _user_scrolling g;
     _ui_update_timer := timer;
     _bg_fill_timer := _bg_fill_timer g;
     _pending_offscreen_fill := _pending_offscreen_fill g;
     table := table g;
     status_message := status_message g;
     single_shots := single_shots g |}.

(** [_render_process_list] called with [None] for the memory summary:
    the rows are reset for a full reload (lines 2911-2913), then the first
    label raises [TypeError] on [mem_info['total']] (line 2916) and the
    rest of the render does not run. *)
Definition render_without_summary (g : TaskManagerGUI)
    (processes : list ProcessRecord) : TaskManagerGUI :=
  let prev_rows := default [] (_last_rendered g) in
  let full_reload := negb (length prev_rows =? length processes)%nat in
  {| hide_system_checkbox := hide_system_checkbox g;
     hide_inaccessible_checkbox := hide_inaccessible_checkbox g;
     search_input := search_input g;
     _cached_processes := _cached_processes g;
     _last_mem_info := _last_mem_info g;
     _last_rendered := _last_rendered g;
     _pending_render_mem_info := _pending_render_mem_info g;
     _pending_render_processes := _pending_render_processes g;
     _pending_total_processes := _pending_total_processes g;
     _user_scrolling := _user_scrolling g;
     _ui_update_timer := _ui_update_timer g;
     _bg_fill_timer := _bg_fill_timer g;
     _pending_offscreen_fill := _pending_offscreen_fill g;
     table := if full_reload then replicate (length processes) None else table g;
     status_message := status_message g;
     single_shots := single_shots g |}.

(** [_flush_ui_update].  With no memory summary at all the render raises
    after it has reset the rows; the [finally] clause still clears the
    pending values, and the exception leaves the slot. *)
Definition _flush_ui_update (e : render_env) (g : TaskManagerGUI)
    : TaskManagerGUI :=
  let mem_info := flush_mem_info g in
  let processes := flush_processes g in
  let total := flush_total g in
  if _user_scrolling g
  then set_ui_update_timer (start_ms 250 (stop (_ui_update_timer g))) g
  else
    match mem_info with
    | Some mi =>
        let g' := _render_process_list e g mi processes total in
        clear_pending (_ui_update_timer g') g'
    | None =>
        let g' := render_without_summary g processes in
        clear_pending (_ui_update_timer g') g'
    end.

Definition nonempty {A} (l : list A) : bool :=
  match l with [] => false | _ => true end.

(** The three heuristics of [_is_significant_change], in the order of the
    source.  [last_mem] and [last_rows] are the attributes
    [_last_mem_info] and [_last_rendered] at the time of the call. *)
Definition mem_changed (last_mem : option MemInfo) (mem_info : MemInfo) : bool :=
  match last_mem with
  | Some last => Qgeb (Qabs (float_sub (percent mem_info) (percent last))) (1 # 2)
  | None => false
  end.

Definition top_pids (rows : list ProcessRecord) : list Z :=
  map pid (take 3 rows).

Definition top_changed (last_rows : option (list ProcessRecord))
    (processes : list ProcessRecord) : bool :=
  let new_top := top_pids processes in
  let old_top := top_pids (default [] last_rows) in
  nonempty new_top && nonempty old_top
  && negb (bool_decide ((list_to_set new_top : gset Z) = list_to_set old_top)).

Definition count_changed (last_rows : option (list ProcessRecord))
    (processes : list ProcessRecord) : bool :=
  match last_rows with
  | Some rows => 3 <? Z.abs (len processes - len rows)
  | None => false
  end.

(** [_is_significant_change]. *)
Definition _is_significant_change (g : TaskManagerGUI) (mem_info : MemInfo)
    (processes : list ProcessRecord) : bool :=
  if mem_changed (_last_mem_info g) mem_info then true
  else if top_changed (_last_rendered g) processes then true
  else if count_changed (_last_rendered g) processes then true
  else false.

(** The first two assignments of [on_data_ready]. *)
Definition cache_snapshot (mem_info : MemInfo) (processes : list ProcessRecord)
    (g : TaskManagerGUI) : TaskManagerGUI :=
  {| hide_system_checkbox := hide_system_checkbox g;
     hide_inaccessible_checkbox := hide_inaccessible_checkbox g;
     search_input := search_input g;
     _cached_processes := processes;
     _last_mem_info := Some mem_info;
     _last_rendered := _last_rendered g;
     _pending_render_mem_info := _pending_render_mem_info g;
     _pending_render_processes := _pending_render_processes g;
     _pending_total_processes := _pending_total_processes g;
     _user_scrolling := _user_scrolling g;
     _ui_update_timer := _ui_update_timer g;
     _bg_fill_timer := _bg_fill_timer g;
     _pending_offscreen_fill := _pending_offscreen_fill g;
     table := table g;
     status_message := status_message g;
     single_shots := single_shots g |}.

(** The local [immediate] of [on_data_ready], computed after the snapshot
    has been cached. *)
Definition immediate (g : TaskManagerGUI) (mem_info : MemInfo)
    (processes : list ProcessRecord) : bool :=
  let g1 := cache_snapshot mem_info processes g in
  if negb (_user_scrolling g1)
  then _is_significant_change g1 mem_info processes
  else false.

Definition singleShot (msec : Z) (g : TaskManagerGUI) : TaskManagerGUI :=
  {| hide_system_checkbox := hide_system_checkbox g;
     hide_inaccessible_checkbox := hide_inaccessible_checkbox g;
     search_input := search_input g;
     _cached_processes := _cached_processes g;
     _last_mem_info := _last_mem_info g;
     _last_rendered := _last_rendered g;
     _pending_render_mem_info := _pending_render_mem_info g;
     _pending_render_processes := _pending_render_processes g;
     _pending_total_processes := _pending_total_processes g;
     _user_scrolling := _user_scrolling g;
     _ui_update_timer := _ui_update_timer g;
     _bg_fill_timer := _bg_fill_timer g;
     _pending_offscreen_fill := _pending_offscreen_fill g;
     table := table g;
     status_message := status_message g;
     single_shots := single_shots g ++ [msec] |}.

Definition on_data_ready (os : os_env) (mem_info : MemInfo)
    (processes : list ProcessRecord) (g : TaskManagerGUI) : TaskManagerGUI :=
  let g1 := cache_snapshot mem_info processes g in
  let g2 := _apply_search_filter os g1 in
  if immediate g mem_info processes
  then singleShot 0 (set_ui_update_timer (stop (_ui_update_timer g2)) g2)
  else g2.

(** The [for _ in range(batch_size)] loop of [_bg_fill_step]. *)
Fixpoint bg_fill_batch (n : nat) (pending : list fill_entry)
    (t : list (option row_items)) : list fill_entry * list (option row_items) :=
  match n with
  | O => (pending, t)
  | S n' =>
      match pending with
      | [] => (pending, t)
      | FillItems row items :: rest =>
          bg_fill_batch n' rest
            (if (length t <=? row)%nat then t else setItems row items t)
      | FillProc row proc :: rest =>
          bg_fill_batch n' rest
            (if (length t <=? row)%nat then t else setItems row (fill_items proc) t)
      end
  end.

Definition batch_size : nat := 8.

Definition _bg_fill_step (g : TaskManagerGUI) : TaskManagerGUI :=
  let '(pending, t) :=
    match _pending_offscreen_fill g with
    | [] => ([], table g)
    | _ => bg_fill_batch batch_size (_pending_offscreen_fill g) (table g)
    end in
  {| hide_system_checkbox := hide_system_checkbox g;
     hide_inaccessible_checkbox := hide_inaccessible_checkbox g;
     search_input := search_input g;
     _cached_processes := _cached_processes g;
     _last_mem_info := _last_mem_info g;
     _last_rendered := _last_rendered g;
     _pending_render_mem_info := _pending_render_mem_info g;
     _pending_render_processes := _pending_render_processes g;
     _pending_total_processes := _pending_total_processes g;
     _user_scrolling := _user_scrolling g;
     _ui_update_timer := _ui_update_timer g;
     _bg_fill_timer :=
       match pending with
       | [] => stop (_bg_fill_timer g)
       | _ => _bg_fill_timer g
       end;
     _pending_offscreen_fill := pending;
     table := t;
     status_message := status_message g;
     single_shots := single_shots g |}.

(** ** Terminating processes *)

(** What [psutil.Process(pid)] followed by [proc.terminate()] does: it
    returns, or raises [NoSuchProcess], [AccessDenied] or another
    exception [e], of which [str(e)] is kept. *)
Inductive kill_answer :=
| Killed
| Gone
| Denied
| Failed (str_e : string).

Definition newline : string := String (ascii_of_nat 10) "".

(** [sep.join(l)]. *)
Fixpoint join (sep : string) (l : list string) : string :=
  match l with
  | [] => ""
  | [x] => x
  | x :: l' => x ++ sep ++ join sep l'
  end.

Definition label (nm : string) (p : Z) : string :=
  nm ++ " (PID: " ++ str_of_Z p ++ ")".

(** The three lists of [kill_processes] and the pids whose termination was
    attempted, each in the order of the attempts. *)
Record kill_state := {
  failed : list string;
  access_denied : list string;
  terminated : list string;
  attempted : list Z
}.

(** One turn of [for pid, name in pids_dict.items()]. *)
Definition kill_one (os : Z → kill_answer) (s : kill_state) (entry : Z * string)
    : kill_state :=
  let '(p, nm) := entry in
  match os p with
  | Killed =>
      {| failed := failed s; access_denied := access_denied s;
         terminated := terminated s ++ [label nm p];
         attempted := attempted s ++ [p] |}
  | Gone =>
      {| failed := failed s; access_denied := access_denied s;
         terminated := terminated s;
         attempted := attempted s ++ [p] |}
  | Denied =>
      {| failed := failed s; access_denied := access_denied s ++ [label nm p];
         terminated := terminated s;
         attempted := attempted s ++ [p] |}
  | Failed str_e =>
      {| failed := failed s ++ [label nm p ++ ": " ++ str_e];
         access_denied := access_denied s;
         terminated := terminated s;
         attempted := attempted s ++ [p] |}
  end.

(** What [kill_processes] leaves behind: the lists, the status-bar message
    if one is shown and the text of the warning box if one is raised. *)
Record kill_report := {
  lists : kill_state;
  shown_status : option string;
  shown_warning : option string
}.

Definition sudo_hint : string := "You may need to run with sudo.".

Definition kill_processes (os : Z → kill_answer) (pids_dict : list (Z * string))
    : kill_report :=
  let s := fold_left (kill_one os) pids_dict
             {| failed := []; access_denied := []; terminated := [];
                attempted := [] |} in
  {| lists := s;
     shown_status :=
       if nonempty (terminated s)
       then Some ("Terminated " ++ str_of_Z (len (terminated s)) ++ " process(es)")
       else None;
     shown_warning :=
       if nonempty (access_denied s) || nonempty (failed s)
       then
         let msg := "" in
         let msg :=
           if nonempty (access_denied s)
           then msg ++ "Access denied for:" ++ newline
                ++ join newline (access_denied s)
                ++ newline ++ newline ++ sudo_hint ++ newline ++ newline
           else msg in
         let msg :=
           if nonempty (failed s)
           then msg ++ "Failed to terminate:" ++ newline
                ++ join newline (failed s)
           else msg in
         Some (strip msg)
       else None |}.

(** ** Sample data

    A small machine, used where a statement is tried on concrete input. *)

Definition mk_proc (p : Z) (nm user : string) (cpu mem_mb mem_pct disk : Q)
    : ProcessRecord :=
  {| pid := p; name := nm; username := user; cpu_percent := cpu;
     memory_mb := mem_mb; memory_percent := mem_pct; disk_io_mb := disk |}.

Definition p_chrome : ProcessRecord :=
  mk_proc 4321 "Chrome" "alice" (25 # 10) 812 (99 # 10) (3 # 10).
Definition p_sshd : ProcessRecord :=
  mk_proc 500 "sshd" "root" 0 (64 # 10) (1 # 10) 0.
Definition p_init : ProcessRecord :=
  mk_proc 1 "systemd" "root" 0 (125 # 10) (2 # 10) 0.

Definition sample_processes : list ProcessRecord := [p_chrome; p_init; p_sshd].

Definition sample_mem : MemInfo :=
  {| total := 8; used := 3; available := 5; percent := 375 # 10 |}.

(** Only the executable of process 4321 can be read. *)
Definition sample_os : os_env :=
  {| exe := λ p, if p =? 4321 then Some "/usr/bin/chrome" else None;
     path_exists := λ _, true;
     dir_readable := λ _, true |}.

(** A window that has cached the sample snapshot, with the given check
    boxes and search text. *)
Definition sample_gui (hide_system hide_inaccessible : bool) (text : string)
    : TaskManagerGUI :=
  {| hide_system_checkbox := hide_system;
     hide_inaccessible_checkbox := hide_inaccessible;
     search_input := text;
     _cached_processes := sample_processes;
     _last_mem_info := Some sample_mem;
     _last_rendered := Some [];
     _pending_render_mem_info := None;
     _pending_render_processes := None;
     _pending_total_processes := 0;
     _user_scrolling := false;
     _ui_update_timer := {| interval := 20; isActive := false |};
     _bg_fill_timer := {| interval := 80; isActive := false |};
     _pending_offscreen_fill := [];
     table := [];
     status_message := "Loading...";
     single_shots := [] |}.

(** The sample window after its first render: the three rows are
    painted and kept for diffing. *)
Definition rendered_gui : TaskManagerGUI :=
  _flush_ui_update {| current_time := "12:00:00"; top_row := 0; bottom_row := 20 |}
    (_apply_search_filter sample_os (sample_gui false false "")).

(** Modelled from the spec: the three criteria of a significant
    difference between an incoming snapshot and what the window [g] holds
    when the snapshot arrives.  The memory percentage moved by at least
    0.5; the pids of the top three processes are not the same set; the
    process count moved by more than 3. *)
Definition spec_memory_delta (g : TaskManagerGUI) (mem_info : MemInfo) : Prop :=
  ∃ last, _last_mem_info g = Some last
          ∧ (1 # 2 <= Qabs (percent mem_info - percent last))%Q.

Definition spec_top3_differ (g : TaskManagerGUI)
    (processes : list ProcessRecord) : Prop :=
  (list_to_set (map pid (take 3 processes)) : gset Z)
  ≠ list_to_set (map pid (take 3 (default [] (_last_rendered g)))).

Definition spec_count_changed (g : TaskManagerGUI)
    (processes : list ProcessRecord) : Prop :=
  3 < Z.abs (len processes - len (default [] (_last_rendered g))).

Definition spec_significant (g : TaskManagerGUI) (mem_info : MemInfo)
    (processes : list ProcessRecord) : Prop :=
  spec_memory_delta g mem_info
  ∨ spec_top3_differ g processes
  ∨ spec_count_changed g processes.

Definition sample_render_env : render_env :=
  {| current_time := "12:00:00"; top_row := 0; bottom_row := 20 |}.

(** The buckets by the answer the operating system gave: the entries whose
    termination succeeded, those refused for want of privilege, those
    that failed otherwise, each with its text, and the entries whose
    process was already gone. *)
Definition succeeded_of (os : Z → kill_answer) (l : list (Z * string))
    : list string :=
  flat_map (λ '(p, nm), match os p with Killed => [label nm p] | _ => [] end) l.

Definition denied_of (os : Z → kill_answer) (l : list (Z * string))
    : list string :=
  flat_map (λ '(p, nm), match os p with Denied => [label nm p] | _ => [] end) l.

Definition failed_of (os : Z → kill_answer) (l : list (Z * string))
    : list string :=
  flat_map (λ '(p, nm),
              match os p with
              | Failed str_e => [label nm p ++ ": " ++ str_e]
              | _ => []
              end) l.

Definition gone_of (os : Z → kill_answer) (l : list (Z * string))
    : list (Z * string) :=
  List.filter (λ '(p, _), match os p with Gone => true | _ => false end) l.

(** The batch of the specification: process 10 has exited, process 20 may
    not be touched, process 30 terminates. *)
Definition sample_kill_os (p : Z) : kill_answer :=
  if p =? 10 then Gone else if p =? 20 then Denied else Killed.

Definition sample_batch : list (Z * string) :=
  [(10, "old"); (20, "sshd"); (30, "Chrome")].

(** A machine with 8 GiB of memory and one process that holds 100 MiB and
    has read and written 3 MiB in all. *)
Definition sample_total : Z := 8589934592.

Definition sample_obs : proc_obs :=
  {| o_pid := 4321;
     o_as_dict := Ok {| pi_name := Some "Chrome";
                        pi_memory_info := Some 104857600;
                        pi_username := Some "alice" |};
     o_cpu_percent := Ok (25 # 10);
     o_io_counters := Ok (2097152, 1048576) |}.

Definition sample_cycle : cycle_obs :=
  {| c_mem := {| vm_total := 8589934592; vm_used := 3221225472;
                 vm_available := 5368709120; vm_percent := 375 # 10 |};
     c_procs := [sample_obs] |}.

(** The record the sampler builds from [sample_obs] in its first cycle. *)
Definition sample_record : ProcessRecord :=
  mk_proc 4321 "Chrome" "alice" 0 100 (6 # 5) 3.




(** A second process of the sample machine: 10 MiB resident, 5 MiB read
    and written, 1.5 percent of CPU. *)
Definition small_obs : proc_obs :=
  {| o_pid := 77;
     o_as_dict := Ok {| pi_name := Some "cron";
                        pi_memory_info := Some 10485760;
                        pi_username := Some "root" |};
     o_cpu_percent := Ok (15 # 10);
     o_io_counters := Ok (4194304, 1048576) |}.

Definition small_record : ProcessRecord :=
  mk_proc 77 "cron" "root" 0 10 (1 # 10) 0.

Definition sample_cycle2 : cycle_obs :=
  {| c_mem := c_mem sample_cycle; c_procs := [sample_obs; small_obs] |}.



(** ** Further notions

    The order of the emitted list: no record holds more memory than one
    before it. *)
Definition memory_ge (a b : ProcessRecord) : Prop :=
  (memory_mb b <= memory_mb a)%Q.

(** Text beyond ASCII: a process named "caf" + U+00E9 (e acute) and the
    search text "CAF" + U+00C9 (E acute) followed by a no-break space
    (U+00A0). *)
Definition p_cafe : ProcessRecord :=
  mk_proc 77 ("caf" ++ String (ascii_of_nat 233) "") "alice" 0 1 0 0.

Definition cafe_search : string :=
  "CAF" ++ String (ascii_of_nat 201) (String (ascii_of_nat 160) "").

(** A process that was gone when its attributes were read, and one whose
    memory counters psutil was refused. *)
Definition vanished_obs : proc_obs :=
  {| o_pid := 9; o_as_dict := Raise NoSuchProcess;
     o_cpu_percent := Raise NoSuchProcess;
     o_io_counters := Raise NoSuchProcess |}.

Definition denied_obs : proc_obs :=
  {| o_pid := 11;
     o_as_dict := Ok {| pi_name := Some "kworker"; pi_memory_info := None;
                        pi_username := None |};
     o_cpu_percent := Raise AccessDenied;
     o_io_counters := Raise AccessDenied |}.

(** Whether the render loop sets the items of row [row], holding [proc]:
    the row is in the visible range, a full reload is under way or the
    record differs from the one rendered before, and the user does not
    scroll. *)
Definition row_visible (e : render_env) (row : nat) : bool :=
  negb ((Z.of_nat row <? top_row e) || (bottom_row e <? Z.of_nat row)).

Definition row_unchanged (full_reload : bool) (prev_rows : list ProcessRecord)
    (row : nat) (proc : ProcessRecord) : bool :=
  negb full_reload &&
  match prev_rows !! row with
  | Some prev => record_eqb prev proc
  | None => false
  end.

Definition row_painted (e : render_env) (scrolling full_reload : bool)
    (prev_rows : list ProcessRecord) (row : nat) (proc : ProcessRecord) : bool :=
  row_visible e row && negb (row_unchanged full_reload prev_rows row proc)
  && negb scrolling.

(** [k] ticks of the background fill timer. *)
Definition drain (k : nat) (g : TaskManagerGUI) : TaskManagerGUI :=
  Nat.iter k _bg_fill_step g.

(** The table has a row for every row last rendered. *)
Definition rows_inv (g : TaskManagerGUI) : Prop :=
  length (table g) = length (default [] (_last_rendered g)).

(** A window without a memory summary has received no snapshot: nothing
    is cached, pending or rendered. *)
Definition summary_inv (g : TaskManagerGUI) : Prop :=
  _last_mem_info g = None →
  _cached_processes g = [] ∧ _pending_render_mem_info g = None
  ∧ _pending_render_processes g = None ∧ _last_rendered g = Some [].

Definition window_inv (g : TaskManagerGUI) : Prop :=
  rows_inv g ∧ summary_inv g.

(** A window that holds the sample rows but no memory summary: no
    sequence of events leads to it. *)
Definition no_summary_gui : TaskManagerGUI :=
  {| hide_system_checkbox := false;
     hide_inaccessible_checkbox := false;
     search_input := "";
     _cached_processes := sample_processes;
     _last_mem_info := None;
     _last_rendered := Some [];
     _pending_render_mem_info := None;
     _pending_render_processes := None;
     _pending_total_processes := 0;
     _user_scrolling := false;
     _ui_update_timer := {| interval := 20; isActive := false |};
     _bg_fill_timer := {| interval := 80; isActive := false |};
     _pending_offscreen_fill := [];
     table := [];
     status_message := "Loading...";
     single_shots := [] |}.

(** A later snapshot of the sample machine, in which Chrome and sshd use
    more CPU, and a viewport that shows the first row only. *)
Definition p_chrome' : ProcessRecord :=
  mk_proc 4321 "Chrome" "alice" (80 # 10) 812 (99 # 10) (3 # 10).
Definition p_sshd' : ProcessRecord :=
  mk_proc 500 "sshd" "root" (15 # 10) (64 # 10) (1 # 10) 0.

Definition later_processes : list ProcessRecord := [p_chrome'; p_init; p_sshd'].

Definition top_row_only : render_env :=
  {| current_time := "12:00:04"; top_row := 0; bottom_row := 0 |}.

(** The table and the fill queue agree with the rows [processes]: there
    is a table row per record, a row holds the items of its record unless
    it is still queued, and the queue holds nothing but records of
    [processes] with their rows. *)
Definition fill_consistent (processes : list ProcessRecord)
    (t : list (option row_items)) (pending : list fill_entry) : Prop :=
  length t = length processes
  ∧ (∀ i proc, processes !! i = Some proc →
               t !! i = Some (Some (render_items proc))
               ∨ In (FillProc i proc) pending)
  ∧ (∀ entry, In entry pending →
              ∃ i proc, entry = FillProc i proc ∧ processes !! i = Some proc).

(** ** Scrolling and moving the window *)

Definition set_user_scrolling (b : bool) (g : TaskManagerGUI) : TaskManagerGUI :=
  {| hide_system_checkbox := hide_system_checkbox g;
     hide_inaccessible_checkbox := hide_inaccessible_checkbox g;
     search_input := search_input g;
     _cached_processes := _cached_processes g;
     _last_mem_info := _last_mem_info g;
     _last_rendered := _last_rendered g;
     _pending_render_mem_info := _pending_render_mem_info g;
     _pending_render_processes := _pending_render_processes g;
     _pending_total_processes := _pending_total_processes g;
     _user_scrolling := b;
     _ui_update_timer := _ui_update_timer g;
     _bg_fill_timer := _bg_fill_timer g;
     _pending_offscreen_fill := _pending_offscreen_fill g;
     table := table g;
     status_message := status_message g;
     single_shots := single_shots g |}.

Definition set_bg_fill_timer (timer : QTimer) (g : TaskManagerGUI)
    : TaskManagerGUI :=
  {| hide_system_checkbox := hide_system_checkbox g;
     hide_inaccessible_checkbox := hide_inaccessible_checkbox g;
     search_input := search_input g;
     _cached_processes := _cached_processes g;
     _last_mem_info := _last_mem_info g;
     _last_rendered := _last_rendered g;
     _pending_render_mem_info := _pending_render_mem_info g;
     _pending_render_processes := _pending_render_processes g;
     _pending_total_processes := _pending_total_processes g;
     _user_scrolling := _user_scrolling g;
     _ui_update_timer := _ui_update_timer g;
     _bg_fill_timer := timer;
     _pending_offscreen_fill := _pending_offscreen_fill g;
     table := table g;
     status_message := status_message g;
     single_shots := single_shots g |}.

(** The window with the attributes of the scroll and move handlers
    (lines 1130-1147): the fields of [TaskManagerGUI] above, the two idle
    timers, the flags of a move, whether widget updates are enabled
    ([setUpdatesEnabled] on the window and its table) and whether the
    browser dialog is open. *)
Record Window := {
  gui : TaskManagerGUI;
  _scroll_inactive_timer : QTimer;
  _move_idle_timer : QTimer;
  _window_moving : bool;
  _bg_fill_was_active : bool;
  _ui_update_was_active : bool;
  updates_enabled : bool;
  browser_dialog_open : bool
}.

Definition Window_init (g : TaskManagerGUI) : Window :=
  {| gui := g;
     _scroll_inactive_timer := {| interval := 300; isActive := false |};
     _move_idle_timer := {| interval := 300; isActive := false |};
     _window_moving := false;
     _bg_fill_was_active := false;
     _ui_update_was_active := false;
     updates_enabled := true;
     browser_dialog_open := false |}.

Definition with_gui (g : TaskManagerGUI) (w : Window) : Window :=
  {| gui := g;
     _scroll_inactive_timer := _scroll_inactive_timer w;
     _move_idle_timer := _move_idle_timer w;
     _window_moving := _window_moving w;
     _bg_fill_was_active := _bg_fill_was_active w;
     _ui_update_was_active := _ui_update_was_active w;
     updates_enabled := updates_enabled w;
     browser_dialog_open := browser_dialog_open w |}.

(** [_on_user_scrolled]. *)
Definition _on_user_scrolled (w : Window) : Window :=
  {| gui := set_user_scrolling true (gui w);
     _scroll_inactive_timer := start (stop (_scroll_inactive_timer w));
     _move_idle_timer := _move_idle_timer w;
     _window_moving := _window_moving w;
     _bg_fill_was_active := _bg_fill_was_active w;
     _ui_update_was_active := _ui_update_was_active w;
     updates_enabled := updates_enabled w;
     browser_dialog_open := browser_dialog_open w |}.

(** [_on_scroll_stopped]. *)
Definition _on_scroll_stopped (w : Window) : Window :=
  let g := set_user_scrolling false (gui w) in
  with_gui
    (match _pending_render_processes g with
     | Some _ => set_ui_update_timer (start_ms 10 (stop (_ui_update_timer g))) g
     | None => g
     end) w.

(** [moveEvent], up to the call of the inherited handler. *)
Definition moveEvent (w : Window) : Window :=
  if browser_dialog_open w then w
  else
    let g := gui w in
    {| gui := set_ui_update_timer (stop (_ui_update_timer g))
                (set_bg_fill_timer (stop (_bg_fill_timer g)) g);
       _scroll_inactive_timer := _scroll_inactive_timer w;
       _move_idle_timer := start (stop (_move_idle_timer w));
       _window_moving := true;
       _bg_fill_was_active := isActive (_bg_fill_timer g);
       _ui_update_was_active := isActive (_ui_update_timer g);
       updates_enabled := false;
       browser_dialog_open := browser_dialog_open w |}.

(** [_on_move_stopped]. *)
Definition _on_move_stopped (w : Window) : Window :=
  let g := gui w in
  let g1 :=
    if _bg_fill_was_active w || nonempty (_pending_offscreen_fill g)
    then
      if negb (isActive (_bg_fill_timer g)) && nonempty (_pending_offscreen_fill g)
      then set_bg_fill_timer (start (_bg_fill_timer g)) g
      else g
    else g in
  let g2 :=
    if _ui_update_was_active w
       || match _pending_render_processes g1 with Some _ => true | None => false end
    then singleShot 10 g1
    else g1 in
  {| gui := g2;
     _scroll_inactive_timer := _scroll_inactive_timer w;
     _move_idle_timer := _move_idle_timer w;
     _window_moving := false;
     _bg_fill_was_active := false;
     _ui_update_was_active := false;
     updates_enabled := true;
     browser_dialog_open := browser_dialog_open w |}.

(** The coalescing timer fires: a single-shot timer is stopped before its
    slot, [_flush_ui_update], runs. *)
Definition ui_update_timeout (e : render_env) (g : TaskManagerGUI)
    : TaskManagerGUI :=
  _flush_ui_update e (set_ui_update_timer (stop (_ui_update_timer g)) g).

(** A window in which the user scrolls while the filtered sample rows
    wait to be rendered. *)
Definition scrolling_window : Window :=
  _on_user_scrolled
    (Window_init (_apply_search_filter sample_os (sample_gui true false ""))).

Definition is_some {A} (o : option A) : bool :=
  match o with Some _ => true | None => false end.

(** The sample window while its first rows wait for the flush and its
    last rows for the background filler. *)
Definition busy_window : Window :=
  Window_init
    (_apply_search_filter sample_os
       (_render_process_list top_row_only (sample_gui false false "")
          sample_mem sample_processes 3)).

(** ** The configuration file

    A value of the JSON document in [CONFIG_FILE]; arrays and objects
    inside the document are not looked into. *)
Inductive jvalue :=
| JString (s : string)
| JBool (b : bool)
| JNumber (z : Z)
| JNull
| JNested.

(** What is at [CONFIG_FILE]: nothing, a file that cannot be opened or
    parsed (for which [open] or [json.load] raises), a JSON document that
    is not an object, or an object. *)
Inductive config_file :=
| Missing
| Unreadable
| NotAnObject
| Object (config : gmap string jvalue).

(** The file and whether it can be opened for writing. *)
Record config_fs := {
  file : config_file;
  writable : bool
}.

(** [open(CONFIG_FILE, 'w')] followed by [json.dump(config, f)]: the open
    raises when the file cannot be written, and nothing changes. *)
Definition dump (config : gmap string jvalue) (fs : config_fs) : config_fs :=
  if writable fs then {| file := Object config; writable := true |} else fs.

(** [load_theme].  On a document that is not an object the membership
    test or the [get] raises, or the test fails. *)
Definition load_theme (fs : config_fs) : jvalue :=
  match file fs with
  | Object config =>
      match config !! "theme" with
      | Some v => v
      | None => JString "light"
      end
  | Missing | Unreadable | NotAnObject => JString "light"
  end.

(** [save_theme].  On a document that is not an object the item
    assignment raises before the file is opened for writing. *)
Definition save_theme (theme_name : string) (fs : config_fs) : config_fs :=
  match file fs with
  | Missing => dump (<["theme" := JString theme_name]> ∅) fs
  | Object config => dump (<["theme" := JString theme_name]> config) fs
  | Unreadable | NotAnObject => fs
  end.

(** [load_hide_system_processes]. *)
Definition load_hide_system_processes (fs : config_fs) : jvalue :=
  match file fs with
  | Object config => default (JBool false) (config !! "hide_system_processes")
  | Missing | Unreadable | NotAnObject => JBool false
  end.

(** [save_hide_system_processes]. *)
Definition save_hide_system_processes (hide_system : bool) (fs : config_fs)
    : config_fs :=
  match file fs with
  | Missing => dump (<["hide_system_processes" := JBool hide_system]> ∅) fs
  | Object config =>
      dump (<["hide_system_processes" := JBool hide_system]> config) fs
  | Unreadable | NotAnObject => fs
  end.

(** [load_hide_inaccessible_processes]. *)
Definition load_hide_inaccessible_processes (fs : config_fs) : jvalue :=
  match file fs with
  | Object config =>
      default (JBool false) (config !! "hide_inaccessible_processes")
  | Missing | Unreadable | NotAnObject => JBool false
  end.

(** [save_hide_inaccessible_processes]. *)
Definition save_hide_inaccessible_processes (hide_inaccessible : bool)
    (fs : config_fs) : config_fs :=
  match file fs with
  | Missing =>
      dump (<["hide_inaccessible_processes" := JBool hide_inaccessible]> ∅) fs
  | Object config =>
      dump (<["hide_inaccessible_processes" := JBool hide_inaccessible]> config)
        fs
  | Unreadable | NotAnObject => fs
  end.

(** A file that can be rewritten: there is none yet, or it holds an
    object, and it may be opened for writing. *)
Definition usable (fs : config_fs) : Prop :=
  writable fs = true ∧ (file fs = Missing ∨ ∃ config, file fs = Object config).

Definition broken (fs : config_fs) : Prop :=
  file fs = Unreadable ∨ file fs = NotAnObject.

(** ** Opening file locations *)

(** What [psutil.Process(pid)] followed by [proc.exe()] gives: a path, or
    [NoSuchProcess], [AccessDenied] or another exception with its text. *)
Inductive exe_answer :=
| ExePath (exe_path : string)
| ExeGone
| ExeDenied
| ExeFailed (str_e : string).

(** The operating system as [open_multiple_file_locations] sees it.
    [reveal exe_path directory] is the platform block of lines 2146-2158,
    which starts a file manager: [None] when it ends normally, the text of
    the exception when one leaves it. *)
Record locate_env := {
  exe_of : Z → exe_answer;
  exists_on_disk : string → bool;               (* os.path.exists *)
  dirname : string → string;                    (* os.path.dirname *)
  reveal : string → string → option string
}.

(** The lists of [open_multiple_file_locations], the set [unique_dirs],
    and the directories a file manager was started on, oldest first. *)
Record locate_state := {
  opened : list string;
  locate_failed : list string;
  locate_denied : list string;
  unique_dirs : gset string;
  revealed : list string
}.

(** One turn of [for pid, name in pids_dict.items()]. *)
Definition locate_one (env : locate_env) (s : locate_state)
    (entry : Z * string) : locate_state :=
  let '(p, nm) := entry in
  let fail (text : string) :=
    {| opened := opened s;
       locate_failed := locate_failed s ++ [text];
       locate_denied := locate_denied s;
       unique_dirs := unique_dirs s;
       revealed := revealed s |} in
  match exe_of env p with
  | ExePath exe_path =>
      if negb (truthy exe_path) || negb (exists_on_disk env exe_path)
      then fail (label nm p)
      else
        let directory := dirname env exe_path in
        if bool_decide (directory ∈ unique_dirs s) then s
        else
          match reveal env exe_path directory with
          | None =>
              {| opened := opened s ++ [directory];
                 locate_failed := locate_failed s;
                 locate_denied := locate_denied s;
                 unique_dirs := {[directory]} ∪ unique_dirs s;
                 revealed := revealed s ++ [directory] |}
          | Some str_e =>
              {| opened := opened s;
                 locate_failed :=
                   locate_failed s ++ [label nm p ++ ": " ++ str_e];
                 locate_denied := locate_denied s;
                 unique_dirs := {[directory]} ∪ unique_dirs s;
                 revealed := revealed s ++ [directory] |}
          end
  | ExeGone => fail (label nm p)
  | ExeDenied =>
      {| opened := opened s;
         locate_failed := locate_failed s;
         locate_denied := locate_denied s ++ [label nm p];
         unique_dirs := unique_dirs s;
         revealed := revealed s |}
  | ExeFailed str_e => fail (label nm p ++ ": " ++ str_e)
  end.

Record locate_report := {
  located : locate_state;
  locate_status : option string;
  locate_warning : option string
}.

Definition open_multiple_file_locations (env : locate_env)
    (pids_dict : list (Z * string)) : locate_report :=
  let s := fold_left (locate_one env) pids_dict
             {| opened := []; locate_failed := []; locate_denied := [];
                unique_dirs := ∅; revealed := [] |} in
  {| located := s;
     locate_status :=
       if nonempty (opened s)
       then Some ("Opened " ++ str_of_Z (len (opened s)) ++ " location(s)")
       else None;
     locate_warning :=
       if nonempty (locate_denied s) || nonempty (locate_failed s)
       then
         let msg := "" in
         let msg :=
           if nonempty (locate_denied s)
           then msg ++ "Access denied for:" ++ newline
                ++ join newline (locate_denied s) ++ newline ++ newline
           else msg in
         let msg :=
           if nonempty (locate_failed s)
           then msg ++ "Failed to open location for:" ++ newline
                ++ join newline (locate_failed s)
           else msg in
         Some (strip msg)
       else None |}.

(** Two processes run from one directory, a third has exited. *)
Definition sample_locate_env : locate_env :=
  {| exe_of := λ p, if p =? 10 then ExeGone
                    else if p =? 20 then ExePath "/usr/bin/sshd"
                    else ExePath "/usr/bin/chrome";
     exists_on_disk := λ _, true;
     dirname := λ _, "/usr/bin";
     reveal := λ _ _, None |}.

(** What the loop keeps: no directory is handed to a file manager twice,
    every directory handed over is in [unique_dirs], the opened ones are
    among those handed over, in order, and each was opened for an
    executable found on disk. *)
Definition locate_inv (env : locate_env) (pids_dict : list (Z * string))
    (s : locate_state) : Prop :=
  NoDup (revealed s)
  ∧ (∀ d, In d (revealed s) → d ∈ unique_dirs s)
  ∧ opened s `sublist_of` revealed s
  ∧ (∀ d, In d (opened s) →
          ∃ p nm exe_path,
            In (p, nm) pids_dict ∧ exe_of env p = ExePath exe_path
            ∧ exists_on_disk env exe_path = true
            ∧ dirname env exe_path = d ∧ reveal env exe_path d = None).

(** ** The virtual keyboard *)

(** [s[:-1]]. *)
Fixpoint drop_last (s : string) : string :=
  match s with
  | EmptyString => EmptyString
  | String c EmptyString => EmptyString
  | String c s' => String c (drop_last s')
  end.

(** The dialog as [key_pressed] sees it: its buffer, whether it has been
    accepted, and the search box of the parent window. *)
Record VirtualKeyboard := {
  text_buffer : string;
  accepted : bool;
  parent_search_input : string
}.

(** [VirtualKeyboard.key_pressed]. *)
Definition key_pressed (key : string) (kb : VirtualKeyboard) : VirtualKeyboard :=
  let show (buffer : string) :=
    {| text_buffer := buffer; accepted := accepted kb;
       parent_search_input := buffer |} in
  if String.eqb key "BACK" then
    show (if (0 <? String.length (text_buffer kb))%nat
          then drop_last (text_buffer kb) else text_buffer kb)
  else if String.eqb key "SPACE" then show (text_buffer kb ++ " ")
  else if String.eqb key "CLEAR" then show ""
  else if String.eqb key "DONE" then
    {| text_buffer := text_buffer kb; accepted := true;
       parent_search_input := parent_search_input kb |}
  else show (text_buffer kb ++ key).

(** The keys of the layout that stand for themselves. *)
Definition character_keys : list string :=
  ["1"; "2"; "3"; "4"; "5"; "6"; "7"; "8"; "9"; "0";
   "q"; "w"; "e"; "r"; "t"; "y"; "u"; "i"; "o"; "p";
   "a"; "s"; "d"; "f"; "g"; "h"; "j"; "k"; "l";
   "z"; "x"; "c"; "v"; "b"; "n"; "m"; "-"; "_"].

(** A cycle in which reading a process raises an exception the loop does
    not handle. *)
Definition crash_cycle : cycle_obs :=
  {| c_mem := c_mem sample_cycle;
     c_procs := [sample_obs;
                 {| o_pid := 13; o_as_dict := Raise (OtherException "boom");
                    o_cpu_percent := Ok 0%Q; o_io_counters := Ok (0, 0) |}] |}.

(** * Properties *)

(** ** Lists and strings *)

Lemma filter_sublist {A} (f : A → bool) (l : list A) :
  List.filter f l `sublist_of` l.
Proof.
  induction l as [|a l IH]; simpl; [constructor|].
  destruct (f a); by constructor.
Qed.

Lemma take_str_length (n : nat) (s : string) :
  String.length (take_str n s) = Nat.min n (String.length s).
Proof.
  revert s; induction n as [|n IH]; intros [|c s]; simpl; auto.
Qed.

Lemma take_str_short (n : nat) (s : string) :
  (String.length s <= n)%nat → take_str n s = s.
Proof.
  revert s; induction n as [|n IH]; intros [|c s]; simpl; intros H;
    try reflexivity; try lia.
  f_equal. apply IH. lia.
Qed.

Lemma lower_length (s : string) : String.length (lower s) = String.length s.
Proof. induction s as [|c s IH]; simpl; congruence. Qed.

Lemma lower_char_backslash (c : ascii) :
  Ascii.eqb backslash (lower_char c) = Ascii.eqb backslash c.
Proof. destruct c as [[] [] [] [] [] [] [] []]; reflexivity. Qed.

Lemma lower_has_backslash (s : string) :
  has_char backslash (lower s) = has_char backslash s.
Proof.
  induction s as [|c s IH]; [reflexivity|].
  cbn [lower has_char]. by rewrite lower_char_backslash, IH.
Qed.

Lemma after_last_clean (c : ascii) (s : string) :
  has_char c (after_last c s) = false.
Proof.
  induction s as [|d s IH]; simpl; [reflexivity|].
  destruct (has_char c s) eqn:Hs; [exact IH|].
  destruct (Ascii.eqb c d) eqn:Hd; simpl; [exact Hs|].
  by rewrite Hd, Hs.
Qed.

Lemma strip_domain_clean (s : string) :
  has_char backslash (strip_domain s) = false.
Proof.
  unfold strip_domain. destruct (has_char backslash s) eqn:H; [|exact H].
  apply after_last_clean.
Qed.

(** ** The system accounts *)

Lemma elem_of_system_users (x : string) :
  x ∈ system_users ↔
  x = "root" ∨ x = "system" ∨ x = "local system" ∨
  x = "nt authority\system" ∨ x = "nt authority\localservice" ∨
  x = "nt authority\networkservice" ∨
  x = "localservice" ∨ x = "networkservice".
Proof. unfold system_users. set_unfold. tauto. Qed.

(** Cutting a domain-free user name at 15 characters does not change
    whether it names a system account: the accounts without a qualifier
    are shorter, the others hold a backslash. *)
Lemma system_user_take (s : string) :
  has_char backslash s = false →
  lower (take_str 15 s) ∈ system_users ↔ lower s ∈ system_users.
Proof.
  intros Hs.
  assert (Hb : has_char backslash (lower s) = false)
    by (by rewrite lower_has_backslash).
  assert (Hshort : ∀ x : string,
             (String.length x < 15)%nat →
             lower (take_str 15 s) = x ∨ lower s = x → take_str 15 s = s).
  { intros x Hx [H|H]; apply take_str_short.
    - apply (f_equal String.length) in H.
      rewrite lower_length, take_str_length in H. lia.
    - apply (f_equal String.length) in H. rewrite lower_length in H. lia. }
  assert (Hlong : ∀ x : string,
             (15 < String.length x)%nat →
             lower (take_str 15 s) = x → False).
  { intros x Hx H. apply (f_equal String.length) in H.
    rewrite lower_length, take_str_length in H. lia. }
  rewrite !elem_of_system_users.
  split.
  - intros [H|[H|[H|[H|[H|[H|[H|H]]]]]]];
      try (exfalso; eapply Hlong; [|exact H]; simpl; lia);
      match type of H with
      | _ = ?x => rewrite (Hshort x ltac:(simpl; lia) (or_introl H)) in H
      end; tauto.
  - intros [H|[H|[H|[H|[H|[H|[H|H]]]]]]];
      try (rewrite H in Hb; discriminate Hb);
      match type of H with
      | _ = ?x => rewrite (Hshort x ltac:(simpl; lia) (or_intror H))
      end; tauto.
Qed.

Lemma is_system_process_iff (proc : ProcessRecord) :
  is_system_process proc = true ↔
  pid proc ∈ [0; 1; 2] ∨ lower (username proc) ∈ system_users.
Proof.
  unfold is_system_process.
  repeat case_bool_decide; split; intros; try tauto; try discriminate.
Qed.

(** ** The filter pipeline *)

Lemma In_system_filter g l p :
  In p (system_filter g l) ↔
  In p l ∧ (hide_system_checkbox g = true → is_system_process p = false).
Proof.
  unfold system_filter. destruct (hide_system_checkbox g).
  - rewrite filter_In, negb_true_iff. tauto.
  - split; [intros; split; [done|discriminate]|tauto].
Qed.

Lemma In_inaccessible_filter os g l p :
  In p (inaccessible_filter os g l) ↔
  In p l ∧ (hide_inaccessible_checkbox g = true →
            is_inaccessible_process os p = false).
Proof.
  unfold inaccessible_filter. destruct (hide_inaccessible_checkbox g).
  - rewrite filter_In, negb_true_iff. tauto.
  - split; [intros; split; [done|discriminate]|tauto].
Qed.

Lemma In_search_filter g l p :
  In p (search_filter g l) ↔
  In p l ∧ (truthy (search_text g) = true →
            py_in (search_text g) (lower (name p)) = true).
Proof.
  unfold search_filter, search_text.
  destruct (truthy (lower (strip (search_input g)))).
  - rewrite filter_In. tauto.
  - split; [intros; split; [done|discriminate]|tauto].
Qed.

Lemma system_filter_sublist g l : system_filter g l `sublist_of` l.
Proof.
  unfold system_filter. destruct (hide_system_checkbox g);
    [apply filter_sublist|done].
Qed.

Lemma inaccessible_filter_sublist os g l :
  inaccessible_filter os g l `sublist_of` l.
Proof.
  unfold inaccessible_filter. destruct (hide_inaccessible_checkbox g);
    [apply filter_sublist|done].
Qed.

Lemma search_filter_sublist g l : search_filter g l `sublist_of` l.
Proof.
  unfold search_filter. destruct (truthy _); [apply filter_sublist|done].
Qed.

Lemma In_filtered_rows os g p :
  In p (filtered_rows os g) ↔
  In p (_cached_processes g)
  ∧ (hide_system_checkbox g = true → is_system_process p = false)
  ∧ (hide_inaccessible_checkbox g = true →
     is_inaccessible_process os p = false)
  ∧ (truthy (search_text g) = true →
     py_in (search_text g) (lower (name p)) = true).
Proof.
  unfold filtered_rows.
  rewrite In_search_filter, In_inaccessible_filter, In_system_filter. tauto.
Qed.

Lemma apply_search_filter_pending os g mi :
  _last_mem_info g = Some mi →
  _pending_render_processes (_apply_search_filter os g)
    = Some (filtered_rows os g)
  ∧ _pending_total_processes (_apply_search_filter os g)
    = len (_cached_processes g)
  ∧ _pending_render_mem_info (_apply_search_filter os g) = Some mi.
Proof. intros H. unfold _apply_search_filter. rewrite H. simpl. auto. Qed.

(** C1. For a cached snapshot and any check boxes and search text,
    [_apply_search_filter] runs the system filter, then the inaccessible
    filter on its result, then the search on that; each stage keeps a
    sub-list of what it received, a row is kept exactly when it passes
    every active predicate, the rows handed on are never more than the
    cached ones, and the total handed on is the length of the cached
    list. *)
Theorem apply_search_filter_pipeline (os : os_env) (g : TaskManagerGUI)
    (mi : MemInfo) :
  _last_mem_info g = Some mi →
  let cached := _cached_processes g in
  let s1 := system_filter g cached in
  let s2 := inaccessible_filter os g s1 in
  let s3 := search_filter g s2 in
  let g' := _apply_search_filter os g in
  _pending_render_processes g' = Some s3
  ∧ s1 `sublist_of` cached ∧ s2 `sublist_of` s1 ∧ s3 `sublist_of` s2
  ∧ (∀ p, In p s3 ↔
          In p cached
          ∧ (hide_system_checkbox g = true → is_system_process p = false)
          ∧ (hide_inaccessible_checkbox g = true →
             is_inaccessible_process os p = false)
          ∧ (truthy (search_text g) = true →
             py_in (search_text g) (lower (name p)) = true))
  ∧ (length s3 <= length cached)%nat
  ∧ _pending_total_processes g' = len cached.
Proof.
  intros Hmi cached s1 s2 s3 g'.
  destruct (apply_search_filter_pending os g mi Hmi) as (Hp & Ht & _).
  assert (H1 : s1 `sublist_of` cached) by apply system_filter_sublist.
  assert (H2 : s2 `sublist_of` s1) by apply inaccessible_filter_sublist.
  assert (H3 : s3 `sublist_of` s2) by apply search_filter_sublist.
  split_and!; try done.
  - intros p. apply (In_filtered_rows os g p).
  - apply sublist_length. by repeat (etrans; [eassumption|]).
Qed.

Lemma apply_search_filter_pipeline_witness :
  _last_mem_info (sample_gui true true " CHROME ") = Some sample_mem
  ∧ _pending_render_processes
      (_apply_search_filter sample_os (sample_gui true true " CHROME "))
    = Some [p_chrome]
  ∧ _pending_total_processes
      (_apply_search_filter sample_os (sample_gui true true " CHROME "))
    = 3.
Proof.
  split; [reflexivity|].
  destruct (apply_search_filter_pipeline sample_os
              (sample_gui true true " CHROME ") sample_mem eq_refl)
    as (H1 & _ & _ & _ & _ & _ & H7).
  split; [|exact H7].
  rewrite H1. vm_compute. reflexivity.
Defined.

(** C6. For a record the sampler built from the user name [u] psutil
    reported, [is_system_process] answers true exactly when the process id
    is 0, 1 or 2 or the user name, domain qualifier stripped and lower
    cased, is one of the system accounts.  With "hide system" checked such
    a record never reaches the filtered rows; with the box cleared the
    system filter keeps every row, so the record reaches them exactly when
    it passes the two other filters. *)
Theorem system_process_predicate (proc : ProcessRecord) (u : option string) :
  username proc = clean_username u →
  (is_system_process proc = true ↔
     pid proc ∈ [0; 1; 2] ∨ lower (strip_domain (or_unknown u)) ∈ system_users)
  ∧ (∀ os g, is_system_process proc = true →
             hide_system_checkbox g = true →
             ¬ In proc (filtered_rows os g))
  ∧ (∀ os g, hide_system_checkbox g = false →
             system_filter g (_cached_processes g) = _cached_processes g
             ∧ (In proc (filtered_rows os g) ↔
                In proc (_cached_processes g)
                ∧ (hide_inaccessible_checkbox g = true →
                   is_inaccessible_process os proc = false)
                ∧ (truthy (search_text g) = true →
                   py_in (search_text g) (lower (name proc)) = true))).
Proof.
  intros Hu. split_and!.
  - rewrite is_system_process_iff, Hu. unfold clean_username.
    by rewrite (system_user_take _ (strip_domain_clean _)).
  - intros os g Hsys Hhide Hin.
    apply In_filtered_rows in Hin as (_ & H & _).
    specialize (H Hhide). congruence.
  - intros os g Hhide. split.
    + unfold system_filter. by rewrite Hhide.
    + rewrite In_filtered_rows, Hhide. split; [tauto|].
      intros (? & ? & ?). split_and!; try done.
Qed.

(** The scenario of the specification: user [root], process id 500. *)
Lemma system_process_predicate_witness :
  username p_sshd = clean_username (Some "root")
  ∧ is_system_process p_sshd = true
  ∧ ¬ In p_sshd (filtered_rows sample_os (sample_gui true false ""))
  ∧ In p_sshd (filtered_rows sample_os (sample_gui false false "")).
Proof.
  split; [reflexivity|].
  destruct (system_process_predicate p_sshd (Some "root") eq_refl)
    as (Hiff & Hhide & Hshow).
  assert (Hsys : is_system_process p_sshd = true).
  { apply Hiff. right. vm_compute. reflexivity. }
  split_and!.
  - exact Hsys.
  - apply (Hhide sample_os (sample_gui true false "") Hsys eq_refl).
  - apply (Hshow sample_os (sample_gui false false "") eq_refl).
    split_and!; [vm_compute; tauto | discriminate | discriminate].
Defined.

(** ** Rendering *)

Lemma render_status e g mi processes total_processes :
  status_message (_render_process_list e g mi processes total_processes)
  = status_line g (current_time e) processes total_processes.
Proof. reflexivity. Qed.

Lemma render_last_rendered e g mi processes total_processes :
  _last_rendered (_render_process_list e g mi processes total_processes)
  = Some processes.
Proof. reflexivity. Qed.

Lemma flush_renders e g mi :
  _user_scrolling g = false →
  flush_mem_info g = Some mi →
  _flush_ui_update e g
  = clear_pending
      (_ui_update_timer g)
      (_render_process_list e g mi (flush_processes g) (flush_total g)).
Proof. intros Hs Hm. unfold _flush_ui_update. by rewrite Hs, Hm. Qed.

(** With only a search text entered the status line gives no filtered
    count, although the search filter is active and has narrowed the rows
    from three to one. *)
Lemma status_search_only_counterexample :
  filters_active (sample_gui false false "chrome") = true
  ∧ _last_rendered
      (_flush_ui_update sample_render_env
         (_apply_search_filter sample_os (sample_gui false false "chrome")))
    = Some [p_chrome]
  ∧ status_message
      (_flush_ui_update sample_render_env
         (_apply_search_filter sample_os (sample_gui false false "chrome")))
    = "Ready - Last updated: 12:00:00 | Total Processes: 3"
  ∧ shows_filtered_count
      (status_message
         (_flush_ui_update sample_render_env
            (_apply_search_filter sample_os (sample_gui false false "chrome"))))
    = false.
Proof. vm_compute. auto. Qed.

(** C2 (amended). After a render the status line holds the time of the
    render and the total handed to the render; it also holds the number of
    rendered rows exactly when one of the two hide boxes is checked.  The
    search text plays no part in the choice. *)
Theorem render_status_line (e : render_env) (g : TaskManagerGUI)
    (mi : MemInfo) (processes : list ProcessRecord) (total_processes : Z) :
  let g' := _render_process_list e g mi processes total_processes in
  (hide_system_checkbox g || hide_inaccessible_checkbox g = true →
   status_message g'
   = "Ready - Last updated: " ++ current_time e ++ " | Showing: "
     ++ str_of_Z (len processes) ++ " / Total Processes: "
     ++ str_of_Z total_processes)
  ∧ (hide_system_checkbox g || hide_inaccessible_checkbox g = false →
     status_message g'
     = "Ready - Last updated: " ++ current_time e ++ " | Total Processes: "
       ++ str_of_Z total_processes).
Proof.
  intros g'. subst g'. rewrite render_status. unfold status_line.
  split; intros ->; reflexivity.
Qed.

Lemma render_status_line_witness :
  hide_system_checkbox (sample_gui true false "") 
  || hide_inaccessible_checkbox (sample_gui true false "") = true
  ∧ status_message
      (_render_process_list sample_render_env (sample_gui true false "")
         sample_mem [p_chrome] 3)
    = "Ready - Last updated: 12:00:00 | Showing: 1 / Total Processes: 3".
Proof.
  split; [reflexivity|].
  rewrite (proj1 (render_status_line sample_render_env
                    (sample_gui true false "") sample_mem [p_chrome] 3)
             eq_refl).
  reflexivity.
Defined.

(** C9. When the rows pending for the render are the empty list, the
    flush renders the whole cached list instead, and it takes the length
    of the cached list for the total when the pending total is 0: the rows
    kept as rendered, the table and the status line are those of a render
    of the unfiltered snapshot. *)
Theorem flush_empty_pending_renders_cache (e : render_env)
    (g : TaskManagerGUI) (mi : MemInfo) :
  _user_scrolling g = false →
  flush_mem_info g = Some mi →
  _pending_render_processes g = Some [] →
  let g' := _flush_ui_update e g in
  flush_processes g = _cached_processes g
  ∧ (_pending_total_processes g = 0 →
     flush_total g = len (_cached_processes g))
  ∧ _last_rendered g' = Some (_cached_processes g)
  ∧ table g'
    = table (_render_process_list e g mi (_cached_processes g) (flush_total g))
  ∧ status_message g'
    = status_line g (current_time e) (_cached_processes g) (flush_total g).
Proof.
  intros Hs Hm Hp g'. subst g'.
  assert (Hf : flush_processes g = _cached_processes g)
    by (unfold flush_processes; by rewrite Hp).
  rewrite (flush_renders e g mi Hs Hm), Hf.
  split_and!; try reflexivity.
  intros H0. unfold flush_total. by rewrite H0.
Qed.

(** A search that matches no process: all three sample rows are rendered. *)
Lemma flush_empty_pending_renders_cache_witness :
  _pending_render_processes
    (_apply_search_filter sample_os (sample_gui false false "zzz")) = Some []
  ∧ _last_rendered
      (_flush_ui_update sample_render_env
         (_apply_search_filter sample_os (sample_gui false false "zzz")))
    = Some sample_processes.
Proof.
  split; [reflexivity|].
  apply (flush_empty_pending_renders_cache sample_render_env
           (_apply_search_filter sample_os (sample_gui false false "zzz"))
           sample_mem eq_refl eq_refl eq_refl).
Defined.

(** The same for the whole path from the filter to the render. *)
Corollary empty_filter_renders_all (os : os_env) (e : render_env)
    (g : TaskManagerGUI) (mi : MemInfo) :
  _last_mem_info g = Some mi →
  _user_scrolling g = false →
  filtered_rows os g = [] →
  _last_rendered (_flush_ui_update e (_apply_search_filter os g))
  = Some (_cached_processes g).
Proof.
  intros Hm Hs Hf.
  destruct (apply_search_filter_pending os g mi Hm) as (Hp & Ht & Hpm).
  assert (Hc : _cached_processes (_apply_search_filter os g) = _cached_processes g)
    by (unfold _apply_search_filter; by rewrite Hm).
  assert (Hs' : _user_scrolling (_apply_search_filter os g) = false)
    by (unfold _apply_search_filter; by rewrite Hm).
  rewrite (flush_renders e _ mi Hs').
  - simpl. unfold flush_processes. by rewrite Hp, Hf, Hc.
  - unfold flush_mem_info. by rewrite Hpm.
Qed.

(** ** The CPU cell *)

(** Every item the render loop leaves in the table was there before or was
    built from the record of its row. *)
Lemma render_rows_painted e scrolling full_reload prev_rows processes :
  ∀ (row : nat) (t : list (option row_items)) (i : nat) (items : row_items),
    render_rows e scrolling full_reload prev_rows row processes t !! i
      = Some (Some items) →
    t !! i = Some (Some items)
    ∨ ∃ proc, (row <= i)%nat ∧ processes !! (i - row)%nat = Some proc
              ∧ items = render_items proc.
Proof.
  induction processes as [|proc rest IH]; intros row t i items H; simpl in H.
  { by left. }
  apply IH in H as [H | (p & Hle & Hp & Hitems)].
  - set (painted := setItems row (render_items proc) t) in H.
    assert (Hset : painted !! i = Some (Some items) →
                   t !! i = Some (Some items)
                   ∨ ∃ proc0, (row <= i)%nat
                       ∧ (proc :: rest) !! (i - row)%nat = Some proc0
                       ∧ items = render_items proc0).
    { subst painted. unfold setItems. intros Hi.
      destruct (decide (row = i)) as [->|Hne].
      - right. exists proc. rewrite Nat.sub_diag. split_and!; try done.
        apply list_lookup_insert_Some in Hi as [(_ & Heq & _)|(? & _)];
          [congruence|done].
      - left. by rewrite list_lookup_insert_ne in Hi. }
    repeat match type of H with
           | context [if ?b then _ else _] => destruct b
           end; auto.
  - right. exists p. split_and!; [lia| |done].
    replace (i - row)%nat with (S (i - S row)) by lia. exact Hp.
Qed.

(** The same for a batch of the background filler. *)
Lemma bg_fill_batch_painted (n : nat) :
  ∀ (pending : list fill_entry) (t : list (option row_items)) (i : nat)
    (items : row_items),
    (bg_fill_batch n pending t).2 !! i = Some (Some items) →
    t !! i = Some (Some items)
    ∨ (∃ row proc, In (FillProc row proc) pending ∧ items = fill_items proc)
    ∨ (∃ row, In (FillItems row items) pending).
Proof.
  induction n as [|n IH]; intros pending t i items H; simpl in H.
  { by left. }
  destruct pending as [|[row its|row proc] rest]; simpl in H.
  { by left. }
  - apply IH in H as [H | [(r & p & Hin & Heq) | (r & Hin)]].
    + destruct (length t <=? row)%nat; [by left|].
      unfold setItems in H.
      apply list_lookup_insert_Some in H as [(_ & Heq & _)|(_ & H)];
        [|by left].
      right; right. exists row. left. congruence.
    + right; left. exists r, p. split; [by right|done].
    + right; right. exists r. by right.
  - apply IH in H as [H | [(r & p & Hin & Heq) | (r & Hin)]].
    + destruct (length t <=? row)%nat; [by left|].
      unfold setItems in H.
      apply list_lookup_insert_Some in H as [(_ & Heq & _)|(_ & H)];
        [|by left].
      right; left. exists row, proc. split; [by left|congruence].
    + right; left. exists r, p. split; [by right|done].
    + right; right. exists r. by right.
Qed.

Lemma py_max_floor (x : Q) : (1 # 100 <= py_max (1 # 100) x)%Q.
Proof.
  unfold py_max, Qgtb. destruct (Qle_bool x (1 # 100)) eqn:H; simpl.
  - apply Qle_refl.
  - apply Qnot_lt_le. intros Hlt.
    apply Qlt_le_weak, Qle_bool_iff in Hlt. congruence.
Qed.

Lemma cpu_value_zero (proc : ProcessRecord) :
  (cpu_percent proc == 0)%Q → cpu_value proc = 1 # 100.
Proof.
  intros H. unfold cpu_value, py_max, Qgtb.
  assert (Hle : Qle_bool (cpu_percent proc) (1 # 100) = true).
  { apply Qle_bool_iff. rewrite H. discriminate. }
  by rewrite Hle.
Qed.

(** A record whose [cpu_percent] is 0.0, as every record of the warm-up
    cycle, is painted with the text "0.0" in its CPU cell. *)
Lemma cpu_cell_zero_counterexample :
  cpu_percent p_sshd = 0%Q
  ∧ table
      (_render_process_list sample_render_env (sample_gui false false "")
         sample_mem sample_processes 3) !! 2%nat
    = Some (Some (render_items p_sshd))
  ∧ cpu_item (render_items p_sshd) = "0.0"
  ∧ cpu_item (fill_items p_sshd) = "0.0".
Proof. vm_compute. auto. Qed.

(** C10 (amended). In the render and in the background filler alike, the
    CPU cell of a painted row holds the one-decimal text of
    [max(0.01, cpu_percent)] of the row's record.  That value is never
    below 0.01, and its text is "0.0" when [cpu_percent] is 0.0. *)
Theorem cpu_cell_text :
  (∀ e scrolling full_reload prev_rows processes t i items,
     render_rows e scrolling full_reload prev_rows 0 processes t !! i
       = Some (Some items) →
     t !! i ≠ Some (Some items) →
     ∃ proc, processes !! i = Some proc
             ∧ cpu_item items = format_1f (py_max (1 # 100) (cpu_percent proc)))
  ∧ (∀ n pending t i items,
       (bg_fill_batch n pending t).2 !! i = Some (Some items) →
       t !! i ≠ Some (Some items) →
       (∃ row proc, In (FillProc row proc) pending
                    ∧ cpu_item items
                      = format_1f (py_max (1 # 100) (cpu_percent proc)))
       ∨ (∃ row, In (FillItems row items) pending))
  ∧ (∀ proc, (1 # 100 <= py_max (1 # 100) (cpu_percent proc))%Q)
  ∧ (∀ proc, (cpu_percent proc == 0)%Q →
             cpu_item (render_items proc) = "0.0"
             ∧ cpu_item (fill_items proc) = "0.0").
Proof.
  split_and!.
  - intros e scrolling full_reload prev_rows processes t i items H Hold.
    apply render_rows_painted in H as [H | (proc & _ & Hp & ->)]; [done|].
    exists proc. rewrite Nat.sub_0_r in Hp. by split.
  - intros n pending t i items H Hold.
    apply bg_fill_batch_painted in H as [H | [(r & p & Hin & ->) | H]];
      [done| |by right].
    left. by exists r, p.
  - intros proc. apply py_max_floor.
  - intros proc H. simpl. by rewrite (cpu_value_zero proc H).
Qed.

Lemma cpu_cell_text_witness :
  (cpu_percent p_init == 0)%Q
  ∧ cpu_item (render_items p_init) = "0.0"
  ∧ ∃ proc, sample_processes !! 0%nat = Some proc
            ∧ cpu_item (render_items p_chrome)
              = format_1f (py_max (1 # 100) (cpu_percent proc)).
Proof.
  destruct cpu_cell_text as (Hrender & _ & _ & Hzero).
  split; [reflexivity|]. split.
  - apply (Hzero p_init). reflexivity.
  - apply (Hrender sample_render_env false true [] sample_processes
             [None; None; None] 0%nat (render_items p_chrome)).
    + vm_compute. reflexivity.
    + discriminate.
Defined.

(** ** Terminating a batch *)

Lemma append_nil_l (b : string) : "" ++ b = b.
Proof. reflexivity. Qed.

Lemma append_cons (c : ascii) (a b : string) :
  String c a ++ b = String c (a ++ b).
Proof. reflexivity. Qed.

Lemma append_assoc (a b c : string) : (a ++ b) ++ c = a ++ (b ++ c).
Proof.
  induction a as [|x a IH]; [reflexivity|].
  rewrite !append_cons. by rewrite IH.
Qed.

Lemma prefix_append (m b : string) : String.prefix m (m ++ b) = true.
Proof.
  induction m as [|c m IH]; [by destruct b|].
  rewrite append_cons. cbn [String.prefix].
  destruct (ascii_dec c c); [exact IH|done].
Qed.

Lemma py_in_append (a m b : string) : py_in m (a ++ m ++ b) = true.
Proof.
  induction a as [|c a IH].
  - rewrite append_nil_l. destruct m as [|d m].
    + by destruct b.
    + rewrite append_cons. cbn [py_in].
      rewrite <- append_cons, prefix_append. reflexivity.
  - rewrite append_cons. cbn [py_in]. rewrite IH. apply orb_true_r.
Qed.

Lemma lstrip_append (a : string) (c : ascii) (s : string) :
  is_space c = false → ∃ a', lstrip (a ++ String c s) = a' ++ String c s.
Proof.
  intros Hc. induction a as [|d a IH].
  - exists "". rewrite append_nil_l. cbn [lstrip]. by rewrite Hc.
  - rewrite append_cons. cbn [lstrip].
    destruct (is_space d); [exact IH|]. by exists (String d a).
Qed.

Lemma rstrip_append (a : string) (c : ascii) (s : string) :
  is_space c = false → rstrip (a ++ String c s) = a ++ String c (rstrip s).
Proof.
  intros Hc. induction a as [|d a IH].
  - rewrite !append_nil_l. cbn [rstrip]. rewrite Hc. by destruct (rstrip s).
  - rewrite !append_cons. cbn [rstrip]. rewrite IH. by destruct a.
Qed.

(** [strip] keeps a word that starts and ends with something else than
    white space. *)
Lemma py_in_strip (pre : string) (c1 : ascii) (mid : string) (c2 : ascii)
    (post : string) :
  is_space c1 = false → is_space c2 = false →
  py_in (String c1 (mid ++ String c2 ""))
        (strip (pre ++ String c1 (mid ++ String c2 post))) = true.
Proof.
  intros H1 H2. unfold strip.
  destruct (lstrip_append pre c1 (mid ++ String c2 post) H1) as [pre' ->].
  replace (pre' ++ String c1 (mid ++ String c2 post))
    with ((pre' ++ String c1 mid) ++ String c2 post)
    by (by rewrite append_assoc, append_cons).
  rewrite (rstrip_append _ c2 post H2).
  replace ((pre' ++ String c1 mid) ++ String c2 (rstrip post))
    with (pre' ++ String c1 (mid ++ String c2 "") ++ rstrip post).
  - apply py_in_append.
  - by rewrite !append_assoc, !append_cons, append_assoc, append_cons,
      append_nil_l.
Qed.

Lemma kill_fold (os : Z → kill_answer) (l : list (Z * string)) :
  ∀ s0 : kill_state,
    attempted (fold_left (kill_one os) l s0) = (attempted s0 ++ map fst l)%list
    ∧ terminated (fold_left (kill_one os) l s0)
      = (terminated s0 ++ succeeded_of os l)%list
    ∧ access_denied (fold_left (kill_one os) l s0)
      = (access_denied s0 ++ denied_of os l)%list
    ∧ failed (fold_left (kill_one os) l s0)
      = (failed s0 ++ failed_of os l)%list.
Proof.
  induction l as [|[p nm] l IH]; intros s0.
  { simpl. by rewrite !app_nil_r. }
  cbn [fold_left]. destruct (IH (kill_one os s0 (p, nm))) as (Ha & Ht & Hd & Hf).
  rewrite Ha, Ht, Hd, Hf.
  unfold succeeded_of, denied_of, failed_of, kill_one. simpl.
  destruct (os p); simpl; rewrite <- ?app_assoc; done.
Qed.

Lemma kill_partition (os : Z → kill_answer) (l : list (Z * string)) :
  (length (succeeded_of os l) + length (denied_of os l)
   + length (failed_of os l) + length (gone_of os l) = length l)%nat.
Proof.
  induction l as [|[p nm] l IH]; [reflexivity|].
  unfold succeeded_of, denied_of, failed_of, gone_of in *.
  simpl in *. destruct (os p); simpl; lia.
Qed.

Lemma append_nil_r (a : string) : a ++ "" = a.
Proof.
  induction a as [|c a IH]; [reflexivity|]. by rewrite append_cons, IH.
Qed.

Ltac flatten_append :=
  repeat (rewrite append_assoc || rewrite append_cons || rewrite append_nil_l).

(** The warning text names the way out whenever a refusal is listed,
    whatever follows it. *)
Lemma warning_has_hint (denied rest : string) :
  py_in sudo_hint
    (strip (("" ++ "Access denied for:" ++ newline ++ denied
             ++ newline ++ newline ++ sudo_hint ++ newline ++ newline)
            ++ rest)) = true.
Proof.
  pose proof (py_in_strip
                ("Access denied for:" ++ newline ++ denied ++ newline ++ newline)
                "Y" "ou may need to run with sudo" "."
                (newline ++ newline ++ rest) eq_refl eq_refl) as H.
  unfold sudo_hint, newline in *.
  revert H. flatten_append. intros H. exact H.
Qed.

(** C7. For every batch, [kill_processes] attempts each target once, in
    order, whatever the earlier attempts gave, and returns.  Each target
    falls in exactly one bucket by the answer it got: terminated, gone
    (kept in no list, so never reported), refused (listed in the warning,
    which then advises to run with sudo) or failed otherwise (listed with
    the text of the error).  The warning is raised exactly when a refusal
    or another failure is listed; a batch of processes that are all gone
    shows nothing at all. *)
Theorem kill_processes_classifies (os : Z → kill_answer)
    (pids_dict : list (Z * string)) :
  let r := kill_processes os pids_dict in
  attempted (lists r) = map fst pids_dict
  ∧ terminated (lists r) = succeeded_of os pids_dict
  ∧ access_denied (lists r) = denied_of os pids_dict
  ∧ failed (lists r) = failed_of os pids_dict
  ∧ (length (terminated (lists r)) + length (access_denied (lists r))
     + length (failed (lists r)) + length (gone_of os pids_dict)
     = length pids_dict)%nat
  ∧ (shown_warning r = None ↔
     access_denied (lists r) = [] ∧ failed (lists r) = [])
  ∧ (access_denied (lists r) ≠ [] →
     ∃ w, shown_warning r = Some w ∧ py_in sudo_hint w = true)
  ∧ (length (gone_of os pids_dict) = length pids_dict →
     shown_status r = None ∧ shown_warning r = None).
Proof.
  intros r.
  destruct (kill_fold os pids_dict
              {| failed := []; access_denied := []; terminated := [];
                 attempted := [] |}) as (Ha & Ht & Hd & Hf).
  simpl in Ha, Ht, Hd, Hf.
  assert (Hpart := kill_partition os pids_dict).
  assert (Hwarn : shown_warning r = None ↔
                  access_denied (lists r) = [] ∧ failed (lists r) = []).
  { subst r. unfold kill_processes. cbn [shown_warning lists].
    destruct (access_denied _), (failed _); simpl; split;
      try done; intros [? ?]; done. }
  split_and!; try done.
  - subst r. cbn [lists kill_processes]. rewrite Ht, Hd, Hf. exact Hpart.
  - intros Hne. subst r. unfold kill_processes in *. cbn [shown_warning lists] in *.
    destruct (access_denied _) as [|a ad] eqn:Had; [done|].
    cbn [nonempty orb].
    destruct (nonempty (failed _)); eexists; (split; [reflexivity|]).
    + apply warning_has_hint.
    + rewrite <- (append_nil_r (_ ++ _)). apply warning_has_hint.
  - intros Hgone. subst r. unfold kill_processes in *.
    cbn [shown_warning shown_status lists] in *.
    rewrite Ht, Hd, Hf.
    destruct (succeeded_of os pids_dict), (denied_of os pids_dict),
      (failed_of os pids_dict); simpl in *; try lia. done.
Qed.

(** The batch of the specification: one target gone, one refused, one
    terminated. *)
Lemma kill_processes_classifies_witness :
  access_denied (lists (kill_processes sample_kill_os sample_batch)) ≠ []
  ∧ attempted (lists (kill_processes sample_kill_os sample_batch)) = [10; 20; 30]
  ∧ terminated (lists (kill_processes sample_kill_os sample_batch))
    = ["Chrome (PID: 30)"]
  ∧ access_denied (lists (kill_processes sample_kill_os sample_batch))
    = ["sshd (PID: 20)"]
  ∧ failed (lists (kill_processes sample_kill_os sample_batch)) = []
  ∧ ∃ w, shown_warning (kill_processes sample_kill_os sample_batch) = Some w
         ∧ py_in sudo_hint w = true.
Proof.
  destruct (kill_processes_classifies sample_kill_os sample_batch)
    as (Ha & Ht & Hd & Hf & _ & _ & Hhint & _).
  split; [discriminate|].
  split_and!; [exact Ha|exact Ht|exact Hd|exact Hf|].
  apply Hhint. discriminate.
Defined.

(** ** The immediate path *)

(** A double minus itself is zero, or NaN for an infinity. *)
Lemma SFsub_diag (f : spec_float) : Q_of_float (SFsub prec emax f f) = 0%Q.
Proof.
  destruct f as [[]|[]| |s m e]; try reflexivity.
  cbn [SFsub]. by rewrite Z.sub_diag.
Qed.

Lemma Qabs_diag (x : Q) : Qgeb (Qabs (float_sub x x)) (1 # 2) = false.
Proof. unfold float_sub. by rewrite SFsub_diag. Qed.

(** When [on_data_ready] asks, [_last_mem_info] already is the incoming
    summary: the memory heuristic compares the summary with itself. *)
Lemma immediate_unfold (g : TaskManagerGUI) (mi : MemInfo)
    (processes : list ProcessRecord) :
  immediate g mi processes
  = negb (_user_scrolling g)
    && (top_changed (_last_rendered g) processes
        || count_changed (_last_rendered g) processes).
Proof.
  unfold immediate, _is_significant_change. cbn [cache_snapshot _user_scrolling
    _last_mem_info _last_rendered mem_changed].
  rewrite Qabs_diag.
  destruct (_user_scrolling g), (top_changed _ _), (count_changed _ _);
    reflexivity.
Qed.

Lemma on_data_ready_single_shots os g mi processes :
  single_shots (on_data_ready os mi processes g)
  = if immediate g mi processes then (single_shots g ++ [0])%list
    else single_shots g.
Proof.
  unfold on_data_ready.
  destruct (immediate g mi processes); reflexivity.
Qed.

(** The first snapshot a fresh window receives, three processes long: the
    pid set of its first three rows is not the (empty) one of the rows
    rendered so far and the user does not scroll, yet the render is left
    to the coalescing timer. *)
Lemma immediate_top3_counterexample :
  _user_scrolling (TaskManagerGUI_init false false) = false
  ∧ spec_top3_differ (TaskManagerGUI_init false false) sample_processes
  ∧ spec_significant (TaskManagerGUI_init false false) sample_mem
      sample_processes
  ∧ immediate (TaskManagerGUI_init false false) sample_mem sample_processes
    = false
  ∧ single_shots
      (on_data_ready sample_os sample_mem sample_processes
         (TaskManagerGUI_init false false)) = []
  ∧ isActive
      (_ui_update_timer
         (on_data_ready sample_os sample_mem sample_processes
            (TaskManagerGUI_init false false))) = true.
Proof.
  assert (Hd : spec_top3_differ (TaskManagerGUI_init false false)
                 sample_processes).
  { intros H. apply (bool_decide_eq_true_2 _) in H. vm_compute in H.
    discriminate. }
  split_and!; try (vm_compute; reflexivity); [exact Hd|].
  right. left. exact Hd.
Qed.

(** A snapshot whose memory percentage moved from 37.5 to 90.0 while the
    rows stayed as rendered is not rendered at once either. *)
Lemma immediate_memory_delta_example :
  percent sample_mem = 375 # 10
  ∧ _last_rendered rendered_gui = Some sample_processes
  ∧ _last_mem_info rendered_gui = Some sample_mem
  ∧ spec_memory_delta rendered_gui
      {| total := 8; used := 7; available := 1; percent := 90 |}
  ∧ immediate rendered_gui
      {| total := 8; used := 7; available := 1; percent := 90 |}
      sample_processes = false.
Proof.
  split_and!; try (vm_compute; reflexivity).
  exists sample_mem. split; [reflexivity|]. vm_compute. discriminate.
Qed.

(** The difference of two percentages is a difference of doubles: from
    63.6 to 64.1 the exact difference is 0.5, the one of the doubles is
    just below, and [_is_significant_change] does not count it. *)
Lemma mem_changed_double_example :
  (Qabs ((641 # 10) - (636 # 10)) == 1 # 2)%Q
  ∧ (float_sub (641 # 10) (636 # 10) < 1 # 2)%Q
  ∧ mem_changed
      (Some {| total := 8; used := 5; available := 3; percent := 636 # 10 |})
      {| total := 8; used := 5; available := 3; percent := 641 # 10 |}
    = false
  ∧ mem_changed
      (Some {| total := 8; used := 5; available := 3; percent := 637 # 10 |})
      {| total := 8; used := 5; available := 3; percent := 642 # 10 |}
    = true.
Proof. split_and!; vm_compute; reflexivity. Qed.

(** What the two heuristics that can answer say, in the words of the
    criteria. *)
Lemma top_changed_spec (g : TaskManagerGUI) (processes : list ProcessRecord) :
  top_changed (_last_rendered g) processes = true ↔
  processes ≠ [] ∧ default [] (_last_rendered g) ≠ []
  ∧ spec_top3_differ g processes.
Proof.
  unfold top_changed, spec_top3_differ, top_pids.
  rewrite !andb_true_iff, negb_true_iff, bool_decide_eq_false.
  assert (Hne : ∀ rows : list ProcessRecord,
            nonempty (map pid (take 3 rows)) = true ↔ rows ≠ []).
  { intros [|r rows]; cbn; split; (done || intros; by auto). }
  rewrite !Hne. tauto.
Qed.

Lemma count_changed_spec (g : TaskManagerGUI) (processes : list ProcessRecord) :
  count_changed (_last_rendered g) processes = true ↔
  ∃ rows, _last_rendered g = Some rows ∧ 3 < Z.abs (len processes - len rows).
Proof.
  unfold count_changed. destruct (_last_rendered g) as [rows|].
  - rewrite Z.ltb_lt. split; [by exists rows|].
    by intros (rows' & [= <-] & H).
  - split; [done|]. by intros (rows & H & _).
Qed.

(** C8 (amended). The immediate path of [on_data_ready] is taken only
    when the user is not scrolling and the snapshot differs significantly
    from what the window holds, by one of the three criteria: the memory
    percentage moved by at least 0.5, the pids of the top three rows are
    not the same set, or the row count moved by more than 3.  It is taken
    whenever the user is not scrolling and either the incoming list and
    the rows last rendered are both non-empty and the pid sets of their
    first three rows differ, or the incoming list and the rows last
    rendered differ in length by more than 3.  Taking it stops the
    coalescing timer and queues the flush with no delay; otherwise the
    coalescing timer is left running. *)
Theorem immediate_render_path (os : os_env) (g : TaskManagerGUI)
    (mi : MemInfo) (processes : list ProcessRecord) :
  let g' := on_data_ready os mi processes g in
  (immediate g mi processes = true →
   _user_scrolling g = false ∧ spec_significant g mi processes)
  ∧ (_user_scrolling g = false →
     (processes ≠ [] ∧ default [] (_last_rendered g) ≠ []
      ∧ spec_top3_differ g processes)
     ∨ (∃ rows, _last_rendered g = Some rows
                ∧ 3 < Z.abs (len processes - len rows)) →
     immediate g mi processes = true)
  ∧ (immediate g mi processes = true →
     single_shots g' = (single_shots g ++ [0])%list
     ∧ isActive (_ui_update_timer g') = false)
  ∧ (immediate g mi processes = false →
     single_shots g' = single_shots g
     ∧ isActive (_ui_update_timer g') = true).
Proof.
  intros g'. subst g'. split_and!.
  - rewrite immediate_unfold, andb_true_iff, negb_true_iff, orb_true_iff.
    intros [Hs [Ht|Hc]]; (split; [exact Hs|]); right.
    + left. by apply top_changed_spec in Ht as (_ & _ & Ht).
    + right. apply count_changed_spec in Hc as (rows & Hr & Hc).
      unfold spec_count_changed. by rewrite Hr.
  - intros Hs Hsig. rewrite immediate_unfold, Hs. cbn [negb andb].
    apply orb_true_iff.
    destruct Hsig as [Ht|Hc].
    + left. by apply top_changed_spec.
    + right. by apply count_changed_spec.
  - intros Hi. unfold on_data_ready. rewrite Hi. split; reflexivity.
  - intros Hi. unfold on_data_ready. rewrite Hi. split; reflexivity.
Qed.

(** The rows rendered are the three of the sample; a snapshot of seven
    processes arrives. *)
Lemma immediate_render_path_witness :
  _user_scrolling rendered_gui = false
  ∧ (∃ rows, _last_rendered rendered_gui = Some rows
             ∧ 3 < Z.abs (len (sample_processes ++ sample_processes
                                 ++ [p_chrome])%list - len rows))
  ∧ single_shots
      (on_data_ready sample_os sample_mem
         (sample_processes ++ sample_processes ++ [p_chrome])%list
         rendered_gui) = [0].
Proof.
  assert (Hc : ∃ rows, _last_rendered rendered_gui = Some rows
             ∧ 3 < Z.abs (len (sample_processes ++ sample_processes
                                 ++ [p_chrome])%list - len rows)).
  { exists sample_processes. split; reflexivity. }
  split; [reflexivity|]. split; [exact Hc|].
  destruct (immediate_render_path sample_os rendered_gui sample_mem
              (sample_processes ++ sample_processes ++ [p_chrome])%list)
    as (_ & Hif & Hthen & _).
  apply Hthen, Hif; [reflexivity|]. right. exact Hc.
Defined.

(** ** The sampler *)

(** What a record owes to the observation it was built from. *)
Lemma process_one_appended d s cache cache' o r :
  process_one d s cache o = (cache', Appended r) →
  ∃ info rss cpu disk_mb,
    o_as_dict o = Ok info
    ∧ pi_memory_info info = Some rss
    ∧ sample_cpu s (_cpu_initialized d) cache o = (cache', Ok cpu)
    ∧ sample_disk (_disk_io_threshold_mb d)
        (round1 (inject_Z rss / 1048576)) o = Ok disk_mb
    ∧ total_memory d ≠ 0
    ∧ r = {| pid := o_pid o;
             name := clean_name (pi_name info);
             username := clean_username (pi_username info);
             cpu_percent := round1 cpu;
             memory_mb := round1 (inject_Z rss / 1048576);
             memory_percent := round1 (percent_of rss (total_memory d));
             disk_io_mb := disk_mb |}.
Proof.
  unfold process_one. intros H.
  destruct (o_as_dict o) as [info|e] eqn:Hinfo.
  2:{ destruct (is_NoSuchProcess e || is_AccessDenied e); inversion H. }
  destruct (pi_memory_info info) as [rss|] eqn:Hrss; [|inversion H].
  destruct (sample_cpu s (_cpu_initialized d) cache o) as [c1 [cpu|e]] eqn:Hcpu.
  2:{ destruct (is_NoSuchProcess e || is_AccessDenied e); inversion H. }
  destruct (sample_disk _ _ o) as [disk_mb|e] eqn:Hdisk.
  2:{ destruct (is_NoSuchProcess e || is_AccessDenied e); inversion H. }
  destruct (total_memory d =? 0) eqn:Ht; [inversion H|].
  apply Z.eqb_neq in Ht. inversion H; subst.
  exists info, rss, cpu, disk_mb. by split_and!.
Qed.

(** Every record of the list comes from one turn of the loop. *)
Lemma process_iter_In d s obs :
  ∀ cache cache' procs r,
    process_iter d s obs cache = (cache', Some procs) →
    In r procs →
    ∃ o c1 c2, In o obs ∧ process_one d s c1 o = (c2, Appended r).
Proof.
  induction obs as [|o rest IH]; intros cache cache' procs r H Hin;
    cbn [process_iter] in H.
  { inversion H; subst. destruct Hin. }
  destruct (process_one d s cache o) as [c1 [r0| |e]] eqn:Hone.
  - destruct (process_iter d s rest c1) as [c2 [l|]] eqn:Hrest;
      inversion H; subst.
    destruct Hin as [<-|Hin].
    + exists o, cache, c1. split; [by left|done].
    + destruct (IH _ _ _ _ Hrest Hin) as (o' & a & b & Ho & Hp).
      exists o', a, b. split; [by right|done].
  - destruct (IH _ _ _ _ H Hin) as (o' & a & b & Ho & Hp).
    exists o', a, b. split; [by right|done].
  - inversion H.
Qed.

Lemma insert_by_memory_In r x l :
  In x (insert_by_memory r l) ↔ x = r ∨ In x l.
Proof.
  induction l as [|y l IH]; simpl; [intuition congruence|].
  destruct (Qle_bool (memory_mb y) (memory_mb r)); simpl;
    [intuition congruence|].
  rewrite IH. intuition congruence.
Qed.

Lemma sort_by_memory_In x l : In x (sort_by_memory l) ↔ In x l.
Proof.
  induction l as [|y l IH]; simpl; [done|].
  rewrite insert_by_memory_In, IH. intuition congruence.
Qed.

(** What an emitting cycle did. *)
Lemma run_cycle_emits c d d' mi procs :
  run_cycle c d = (d', Some (mi, procs)) →
  ∃ cache procs0,
    process_iter d (_cpu_sample_counter d =? 0) (c_procs c) (process_cache d)
      = (cache, Some procs0)
    ∧ procs = sort_by_memory procs0
    ∧ mi = make_mem_info (c_mem c)
    ∧ process_cache d'
      = filter (λ kv, kv.1 ∈ (list_to_set (map pid procs0) : gset Z)) cache
    ∧ _cpu_initialized d'
      = (if (_cpu_sample_counter d =? 0) && negb (_cpu_initialized d)
         then true else _cpu_initialized d).
Proof.
  unfold run_cycle. intros H.
  destruct (process_iter _ _ _ _) as [cache [procs0|]] eqn:Hiter;
    inversion H; subst.
  exists cache, procs0. by split_and!.
Qed.

Lemma run_cycle_In c d d' mi procs r :
  run_cycle c d = (d', Some (mi, procs)) →
  In r procs →
  ∃ o c1 c2, In o (c_procs c)
             ∧ process_one d (_cpu_sample_counter d =? 0) c1 o
               = (c2, Appended r).
Proof.
  intros H Hin.
  destruct (run_cycle_emits _ _ _ _ _ H) as (cache & procs0 & Hiter & -> & _).
  apply (proj1 (sort_by_memory_In _ _)) in Hin.
  exact (process_iter_In _ _ _ _ _ _ _ Hiter Hin).
Qed.

(** A cycle leaves the settings of [__init__] alone. *)
Lemma run_cycle_settings c d :
  total_memory (run_cycle c d).1 = total_memory d
  ∧ _cpu_sample_rate (run_cycle c d).1 = _cpu_sample_rate d
  ∧ _disk_io_threshold_mb (run_cycle c d).1 = _disk_io_threshold_mb d
  ∧ _cpu_sample_counter (run_cycle c d).1 = advance_counter d.
Proof.
  unfold run_cycle.
  destruct (process_iter _ _ _ _) as [cache [procs0|]]; simpl; auto.
Qed.

Lemma run_settings cs :
  ∀ d, total_memory (run cs d).1 = total_memory d
       ∧ _cpu_sample_rate (run cs d).1 = _cpu_sample_rate d
       ∧ _disk_io_threshold_mb (run cs d).1 = _disk_io_threshold_mb d.
Proof.
  induction cs as [|c cs IH]; intros d; cbn [run]; [auto|].
  destruct (run_cycle c d) as [d1 e] eqn:H1.
  destruct (run cs d1) as [d2 es] eqn:H2. simpl.
  destruct (IH d1) as (Ha & Hb & Hc). rewrite H2 in Ha, Hb, Hc. simpl in *.
  destruct (run_cycle_settings c d) as (Ha' & Hb' & Hc' & _).
  rewrite H1 in Ha', Hb', Hc'. simpl in *. split_and!; congruence.
Qed.

Lemma Qgtb_true (a b : Q) : Qgtb a b = true ↔ (b < a)%Q.
Proof.
  unfold Qgtb. rewrite negb_true_iff. split.
  - intros H. apply Qnot_le_lt. intros Hle.
    apply Qle_bool_iff in Hle. congruence.
  - intros H. apply not_true_is_false. intros Hle.
    apply Qle_bool_iff in Hle. exact (Qlt_not_le _ _ H Hle).
Qed.

Lemma Qgtb_false (a b : Q) : Qgtb a b = false ↔ (a <= b)%Q.
Proof.
  unfold Qgtb. rewrite negb_false_iff. apply Qle_bool_iff.
Qed.

(** The sample machine: the record holds 100.0 MB and 1.2 percent, while
    100.0 * 1048576 / 8589934592 * 100 is 1.220703125. *)
Lemma memory_percent_rounded_counterexample :
  (run_cycle sample_cycle (DataFetcher_init sample_total)).2
  = Some (make_mem_info (c_mem sample_cycle), [sample_record])
  ∧ memory_mb sample_record = 100%Q
  ∧ memory_percent sample_record = (6 # 5)%Q
  ∧ ¬ (memory_percent sample_record
       == memory_mb sample_record * 1048576 / inject_Z sample_total * 100)%Q.
Proof.
  split_and!; try (vm_compute; reflexivity).
  intros H. vm_compute in H. discriminate H.
Qed.

(** The quotient and the product of line 381 are doubles: with 8000 MiB
    of memory and a resident size of 12 MiB the exact percentage is 0.15,
    which would round to 0.2, but the double the program rounds lies
    just below 0.15 and the record holds 0.1. *)
Lemma memory_percent_double_example :
  (inject_Z 12582912 / inject_Z 8388608000 * 100 == 15 # 100)%Q
  ∧ round1 (15 # 100) = (1 # 5)%Q
  ∧ (percent_of 12582912 8388608000 < 15 # 100)%Q
  ∧ round1 (percent_of 12582912 8388608000) = (1 # 10)%Q.
Proof. split_and!; vm_compute; reflexivity. Qed.

(** C3 (amended). In every cycle of a sampler started with total memory
    [total], the total the cycle divides by is [total], unchanged since
    start-up, and every record of the cycle is built from the resident
    size [rss] of its process: [memory_mb] is [rss / 1048576] rounded to
    one decimal and [memory_percent] is [rss / total * 100], the quotient
    and the product taken in double precision, rounded to one decimal. *)
Theorem memory_percent_of_record (total : Z) (cs : list cycle_obs)
    (c : cycle_obs) (d' : DataFetcher) (mi : MemInfo)
    (procs : list ProcessRecord) (r : ProcessRecord) :
  let d := (run cs (DataFetcher_init total)).1 in
  run_cycle c d = (d', Some (mi, procs)) →
  In r procs →
  total_memory d = total ∧ total_memory d' = total ∧ total ≠ 0
  ∧ ∃ o info rss,
      In o (c_procs c) ∧ o_as_dict o = Ok info
      ∧ pi_memory_info info = Some rss ∧ pid r = o_pid o
      ∧ memory_mb r = round1 (inject_Z rss / 1048576)
      ∧ memory_percent r = round1 (percent_of rss total).
Proof.
  intros d Hrun Hin.
  destruct (run_settings cs (DataFetcher_init total)) as (Ht & _ & _).
  fold d in Ht. cbn [DataFetcher_init total_memory] in Ht.
  destruct (run_cycle_settings c d) as (Ht' & _).
  rewrite Hrun in Ht'. cbn [fst] in Ht'.
  destruct (run_cycle_In _ _ _ _ _ _ Hrun Hin) as (o & c1 & c2 & Ho & Hone).
  destruct (process_one_appended _ _ _ _ _ _ Hone)
    as (info & rss & cpu & disk_mb & Hinfo & Hrss & _ & _ & Hne & ->).
  split_and!; try congruence.
  exists o, info, rss. cbn [pid memory_mb memory_percent].
  rewrite Ht. by split_and!.
Qed.

Lemma memory_percent_of_record_witness :
  run_cycle sample_cycle (run [] (DataFetcher_init sample_total)).1
  = ((run_cycle sample_cycle (DataFetcher_init sample_total)).1,
     Some (make_mem_info (c_mem sample_cycle), [sample_record]))
  ∧ In sample_record [sample_record]
  ∧ total_memory (run_cycle sample_cycle (DataFetcher_init sample_total)).1
    = sample_total.
Proof.
  assert (H : run_cycle sample_cycle (run [] (DataFetcher_init sample_total)).1
              = ((run_cycle sample_cycle (DataFetcher_init sample_total)).1,
                 Some (make_mem_info (c_mem sample_cycle), [sample_record])))
    by (vm_compute; reflexivity).
  split; [exact H|]. split; [by left|].
  apply (memory_percent_of_record sample_total [] sample_cycle _ _ _
           sample_record H).
  by left.
Defined.

(** C5. In every cycle of a sampler the threshold is the 50 MB of
    [__init__]; a record whose [memory_mb] is at most 50 has [disk_io_mb]
    0.0 whatever the counters of its process say; above the threshold
    [disk_io_mb] is read + written bytes over 1048576, rounded to one
    decimal, and it is 0.0 when reading the counters raised
    [AccessDenied], [NoSuchProcess] or [AttributeError], none of which
    leaves the disk block as an exception. *)
Theorem disk_io_threshold (total : Z) (cs : list cycle_obs)
    (c : cycle_obs) (d' : DataFetcher) (mi : MemInfo)
    (procs : list ProcessRecord) (r : ProcessRecord) :
  let d := (run cs (DataFetcher_init total)).1 in
  run_cycle c d = (d', Some (mi, procs)) →
  In r procs →
  _disk_io_threshold_mb d = 50
  ∧ ((memory_mb r <= 50)%Q → disk_io_mb r = 0%Q)
  ∧ (∃ o, In o (c_procs c) ∧ o_pid o = pid r
          ∧ ((50 < memory_mb r)%Q →
             match o_io_counters o with
             | Ok (read_bytes, write_bytes) =>
                 disk_io_mb r
                 = round1 (inject_Z (read_bytes + write_bytes) / 1048576)
             | Raise e =>
                 disk_io_mb r = 0%Q
                 ∧ is_AccessDenied e || is_NoSuchProcess e
                   || is_AttributeError e = true
             end))
  ∧ (∀ mem_mb o e,
       o_io_counters o = Raise e →
       is_AccessDenied e || is_NoSuchProcess e || is_AttributeError e = true →
       sample_disk (_disk_io_threshold_mb d) mem_mb o = Ok 0%Q).
Proof.
  intros d Hrun Hin.
  destruct (run_settings cs (DataFetcher_init total)) as (_ & _ & Hthr).
  fold d in Hthr. cbn [DataFetcher_init _disk_io_threshold_mb] in Hthr.
  destruct (run_cycle_In _ _ _ _ _ _ Hrun Hin) as (o & c1 & c2 & Ho & Hone).
  destruct (process_one_appended _ _ _ _ _ _ Hone)
    as (info & rss & cpu & disk_mb & Hinfo & Hrss & _ & Hdisk & _ & ->).
  cbn [pid memory_mb disk_io_mb].
  rewrite Hthr in Hdisk. unfold sample_disk in Hdisk.
  split_and!.
  - exact Hthr.
  - intros Hle. apply (Qgtb_false _ (inject_Z 50)) in Hle.
    rewrite Hle in Hdisk. congruence.
  - exists o. split_and!; try done.
    intros Hlt. apply (Qgtb_true _ (inject_Z 50)) in Hlt.
    rewrite Hlt in Hdisk.
    destruct (o_io_counters o) as [[rd wr]|e]; [congruence|].
    destruct (is_AccessDenied e || is_NoSuchProcess e || is_AttributeError e);
      [split; congruence|discriminate].
  - intros mem_mb o' e He Hcaught. unfold sample_disk.
    destruct (Qgtb mem_mb _); [|reflexivity]. by rewrite He, Hcaught.
Qed.

(** A process of 10 MiB that has moved 5 MiB: its record says 0.0. *)
Lemma disk_io_threshold_witness :
  run_cycle sample_cycle2 (run [] (DataFetcher_init sample_total)).1
  = ((run_cycle sample_cycle2 (DataFetcher_init sample_total)).1,
     Some (make_mem_info (c_mem sample_cycle2), [sample_record; small_record]))
  ∧ In small_record [sample_record; small_record]
  ∧ (memory_mb small_record <= 50)%Q
  ∧ o_io_counters small_obs = Ok (4194304, 1048576)
  ∧ disk_io_mb small_record = 0%Q.
Proof.
  assert (H : run_cycle sample_cycle2 (run [] (DataFetcher_init sample_total)).1
              = ((run_cycle sample_cycle2 (DataFetcher_init sample_total)).1,
                 Some (make_mem_info (c_mem sample_cycle2),
                       [sample_record; small_record])))
    by (vm_compute; reflexivity).
  assert (Hle : (memory_mb small_record <= 50)%Q) by discriminate.
  split_and!; [exact H|right; by left|exact Hle|reflexivity|].
  destruct (disk_io_threshold sample_total [] sample_cycle2 _ _ _
              small_record H (or_intror (or_introl eq_refl)))
    as (_ & Hzero & _).
  exact (Hzero Hle).
Defined.

(** ** The CPU duty cycle *)




























(** * Further properties of the sampler *)

Lemma insert_by_memory_perm r l : insert_by_memory r l ≡ₚ r :: l.
Proof.
  induction l as [|x l IH]; simpl; [done|].
  destruct (Qle_bool (memory_mb x) (memory_mb r)); [done|].
  rewrite IH. apply Permutation_swap.
Qed.

Lemma sort_by_memory_perm l : sort_by_memory l ≡ₚ l.
Proof.
  induction l as [|x l IH]; simpl; [done|].
  rewrite insert_by_memory_perm. by rewrite IH.
Qed.

Lemma insert_by_memory_sorted r l :
  StronglySorted memory_ge l → StronglySorted memory_ge (insert_by_memory r l).
Proof.
  induction 1 as [|x l Hs IH Hx]; simpl.
  { repeat constructor. }
  destruct (Qle_bool (memory_mb x) (memory_mb r)) eqn:Hle.
  - apply Qle_bool_iff in Hle. constructor; [by constructor|].
    constructor; [exact Hle|].
    eapply Forall_impl; [exact Hx|]. intros y Hy. unfold memory_ge in *.
    by apply Qle_trans with (memory_mb x).
  - constructor; [exact IH|].
    rewrite insert_by_memory_perm. constructor; [|exact Hx].
    unfold memory_ge. apply Qlt_le_weak, Qnot_le_lt. intros H.
    apply Qle_bool_iff in H. congruence.
Qed.

Lemma sort_by_memory_sorted l : StronglySorted memory_ge (sort_by_memory l).
Proof.
  induction l as [|x l IH]; simpl; [constructor|].
  by apply insert_by_memory_sorted.
Qed.

(** X1. The list a cycle emits is the list the loop built, reordered so
    that no record holds more memory than a record before it. *)
Theorem emitted_sorted_by_memory (c : cycle_obs) (d d' : DataFetcher)
    (mi : MemInfo) (procs : list ProcessRecord) :
  run_cycle c d = (d', Some (mi, procs)) →
  StronglySorted memory_ge procs
  ∧ ∃ cache procs0,
      process_iter d (_cpu_sample_counter d =? 0) (c_procs c) (process_cache d)
        = (cache, Some procs0)
      ∧ procs ≡ₚ procs0.
Proof.
  intros H.
  destruct (run_cycle_emits _ _ _ _ _ H) as (cache & procs0 & Hiter & -> & _).
  split; [apply sort_by_memory_sorted|].
  exists cache, procs0. split; [exact Hiter|apply sort_by_memory_perm].
Qed.

Lemma emitted_sorted_by_memory_witness :
  run_cycle sample_cycle2 (DataFetcher_init sample_total)
  = ((run_cycle sample_cycle2 (DataFetcher_init sample_total)).1,
     Some (make_mem_info (c_mem sample_cycle2), [sample_record; small_record]))
  ∧ StronglySorted memory_ge [sample_record; small_record].
Proof.
  assert (H : run_cycle sample_cycle2 (DataFetcher_init sample_total)
              = ((run_cycle sample_cycle2 (DataFetcher_init sample_total)).1,
                 Some (make_mem_info (c_mem sample_cycle2),
                       [sample_record; small_record])))
    by (vm_compute; reflexivity).
  split; [exact H|].
  exact (proj1 (emitted_sorted_by_memory _ _ _ _ _ H)).
Defined.

(** X2. After a cycle that emitted, the cache holds entries for emitted
    processes only. *)
Theorem cache_pruned (c : cycle_obs) (d d' : DataFetcher)
    (mi : MemInfo) (procs : list ProcessRecord) (k : Z) (v : Q) :
  run_cycle c d = (d', Some (mi, procs)) →
  process_cache d' !! k = Some v →
  ∃ r, In r procs ∧ pid r = k.
Proof.
  intros H Hk.
  destruct (run_cycle_emits _ _ _ _ _ H)
    as (cache & procs0 & _ & -> & _ & Hcache & _).
  rewrite Hcache in Hk. apply map_lookup_filter_Some in Hk as [_ Hin].
  cbn [fst] in Hin.
  apply elem_of_list_to_set, list_elem_of_In, in_map_iff in Hin
    as (r & Hr & Hin).
  exists r. split; [by apply sort_by_memory_In|exact Hr].
Qed.

Lemma cache_pruned_witness :
  process_cache
    (run_cycle sample_cycle (run_cycle sample_cycle2
                               (DataFetcher_init sample_total)).1).1 !! 4321
  = Some 0%Q
  ∧ ∃ r, In r [mk_proc 4321 "Chrome" "alice" 0 100 (6 # 5) 3] ∧ pid r = 4321.
Proof.
  assert (Hk : process_cache
                 (run_cycle sample_cycle
                    (run_cycle sample_cycle2
                       (DataFetcher_init sample_total)).1).1 !! 4321
               = Some 0%Q) by (vm_compute; reflexivity).
  split; [exact Hk|].
  apply (cache_pruned sample_cycle
           (run_cycle sample_cycle2 (DataFetcher_init sample_total)).1
           (run_cycle sample_cycle
              (run_cycle sample_cycle2 (DataFetcher_init sample_total)).1).1
           (make_mem_info (c_mem sample_cycle))
           [mk_proc 4321 "Chrome" "alice" 0 100 (6 # 5) 3] 4321 0%Q);
    [vm_compute; reflexivity|exact Hk].
Defined.

(** X3. The counter advances in every cycle, emitted or not; the warm-up
    is marked as done only by a sampling cycle that emitted, and stays
    done afterwards.  A sampling cycle that an exception cut short leaves
    the warm-up to be repeated. *)
Theorem warm_up_needs_emission (c : cycle_obs) (d : DataFetcher) :
  _cpu_sample_counter (run_cycle c d).1 = advance_counter d
  ∧ (_cpu_initialized (run_cycle c d).1 = true ↔
     _cpu_initialized d = true
     ∨ (_cpu_sample_counter d = 0 ∧ (run_cycle c d).2 ≠ None)).
Proof.
  split; [apply run_cycle_settings|].
  unfold run_cycle.
  destruct (process_iter _ _ _ _) as [cache [procs0|]]; cbn [fst snd _cpu_initialized].
  - destruct (_cpu_sample_counter d =? 0) eqn:H0;
      destruct (_cpu_initialized d); cbn [andb negb]; split; auto.
    + intros _. right. apply Z.eqb_eq in H0. by split.
    + apply Z.eqb_neq in H0. intros [?|[? _]]; done.
  - split; [by left|]. intros [?|[_ ?]]; done.
Qed.

(** The first cycle is cut short: nothing is emitted, the counter moves
    on and the warm-up is still to be done. *)
Lemma warm_up_needs_emission_witness :
  (run_cycle crash_cycle (DataFetcher_init sample_total)).2 = None
  ∧ _cpu_sample_counter (run_cycle crash_cycle (DataFetcher_init sample_total)).1
    = 1
  ∧ _cpu_initialized (run_cycle crash_cycle (DataFetcher_init sample_total)).1
    ≠ true.
Proof.
  assert (Hn : (run_cycle crash_cycle (DataFetcher_init sample_total)).2 = None)
    by (vm_compute; reflexivity).
  destruct (warm_up_needs_emission crash_cycle (DataFetcher_init sample_total))
    as [Hc Hi].
  split; [exact Hn|]. split; [rewrite Hc; reflexivity|].
  intros H. apply Hi in H as [H|[_ H]]; [discriminate H|exact (H Hn)].
Defined.

Lemma process_one_skipped d s cache o :
  o_as_dict o = Raise NoSuchProcess →
  process_one d s cache o = (cache, Skipped).
Proof. intros Ho. unfold process_one. by rewrite Ho. Qed.

Lemma process_one_unreadable d s cache o info :
  o_as_dict o = Ok info → pi_memory_info info = None →
  process_one d s cache o = (cache, Crashed AttributeError).
Proof. intros Ho Hm. unfold process_one. by rewrite Ho, Hm. Qed.

(** X4. A process that is gone when its attributes are read
    ([NoSuchProcess] leaves [as_dict]) is passed over: the loop ends as if
    psutil had not listed it, for the records and for the cache.  A
    process whose memory counters psutil could not read (an access
    refused or a zombie: [memory_info] is [None]) is not passed over: the
    [AttributeError] of [.rss] leaves the loop, whatever the other
    processes are, and the cycle emits nothing. *)
Theorem vanished_process_skipped (d : DataFetcher) (s : bool)
    (pre post : list proc_obs) (o : proc_obs) (cache : gmap Z Q) :
  (o_as_dict o = Raise NoSuchProcess →
   process_iter d s (pre ++ o :: post) cache
   = process_iter d s (pre ++ post) cache)
  ∧ (∀ info, o_as_dict o = Ok info → pi_memory_info info = None →
       (process_iter d s (pre ++ o :: post) cache).2 = None
       ∧ ∀ mem, (run_cycle {| c_mem := mem; c_procs := pre ++ o :: post |} d).2
                = None).
Proof.
  split.
  - intros Ho. revert cache.
    induction pre as [|x pre IH]; intros cache; cbn [app process_iter].
    + by rewrite (process_one_skipped d s cache o Ho).
    + destruct (process_one d s cache x) as [c1 [r| |e']]; [|apply IH|done].
      by rewrite IH.
  - intros info Ho Hm.
    assert (Hnone : ∀ s0 cache0,
              (process_iter d s0 (pre ++ o :: post) cache0).2 = None).
    { intros s0.
      induction pre as [|x pre IH]; intros cache0; cbn [app process_iter].
      - by rewrite (process_one_unreadable d s0 cache0 o info Ho Hm).
      - destruct (process_one d s0 cache0 x) as [c1 [r| |e']];
          [|apply IH|done].
        specialize (IH c1).
        destruct (process_iter d s0 (pre ++ o :: post) c1) as [c2 res].
        cbn [snd] in *. by rewrite IH. }
    split; [apply Hnone|].
    intros mem. unfold run_cycle. cbn [c_procs].
    specialize (Hnone (_cpu_sample_counter d =? 0) (process_cache d)).
    destruct (process_iter d _ (pre ++ o :: post) (process_cache d))
      as [c2 res].
    cbn [snd] in Hnone. by rewrite Hnone.
Qed.

(** The sample machine lists a process that is gone between two others:
    the two are emitted.  It lists one whose memory counters are refused:
    nothing is emitted. *)
Lemma vanished_process_skipped_witness :
  o_as_dict vanished_obs = Raise NoSuchProcess
  ∧ pi_memory_info
      {| pi_name := Some "kworker"; pi_memory_info := None;
         pi_username := None |} = None
  ∧ (run_cycle
       {| c_mem := c_mem sample_cycle;
          c_procs := [sample_obs; vanished_obs; small_obs] |}
       (DataFetcher_init sample_total)).2
    = Some (make_mem_info (c_mem sample_cycle), [sample_record; small_record])
  ∧ (run_cycle
       {| c_mem := c_mem sample_cycle;
          c_procs := [sample_obs; denied_obs; small_obs] |}
       (DataFetcher_init sample_total)).2 = None.
Proof.
  split; [reflexivity|]. split; [reflexivity|].
  destruct (vanished_process_skipped (DataFetcher_init sample_total)
              (_cpu_sample_counter (DataFetcher_init sample_total) =? 0)
              [sample_obs] [small_obs] vanished_obs
              (process_cache (DataFetcher_init sample_total))) as [H _].
  destruct (vanished_process_skipped (DataFetcher_init sample_total)
              (_cpu_sample_counter (DataFetcher_init sample_total) =? 0)
              [sample_obs] [small_obs] denied_obs
              (process_cache (DataFetcher_init sample_total))) as [_ H'].
  split.
  - specialize (H eq_refl).
    change ([sample_obs] ++ vanished_obs :: [small_obs])%list
      with [sample_obs; vanished_obs; small_obs] in H.
    unfold run_cycle. cbn [c_procs]. rewrite H. vm_compute. reflexivity.
  - exact (proj2 (H' _ eq_refl eq_refl) (c_mem sample_cycle)).
Defined.

Lemma take_str_has_char c n s :
  has_char c s = false → has_char c (take_str n s) = false.
Proof.
  revert s; induction n as [|n IH]; intros [|x s]; simpl; try done.
  intros H. apply orb_false_iff in H as [Hx Hs].
  by rewrite Hx, (IH s Hs).
Qed.

(** X5. Every emitted record has a name of at most 30 characters and a
    user name of at most 15 characters that holds no backslash; its pid is
    that of a process psutil listed in the cycle. *)
Theorem record_fields_bounded (c : cycle_obs) (d d' : DataFetcher)
    (mi : MemInfo) (procs : list ProcessRecord) (r : ProcessRecord) :
  run_cycle c d = (d', Some (mi, procs)) →
  In r procs →
  (String.length (name r) <= 30)%nat
  ∧ (String.length (username r) <= 15)%nat
  ∧ has_char backslash (username r) = false
  ∧ In (pid r) (map o_pid (c_procs c)).
Proof.
  intros H Hin.
  destruct (run_cycle_In _ _ _ _ _ _ H Hin) as (o & c1 & c2 & Ho & Hone).
  destruct (process_one_appended _ _ _ _ _ _ Hone)
    as (info & rss & cpu & disk_mb & _ & _ & _ & _ & _ & ->).
  cbn [name username pid]. unfold clean_name, clean_username.
  rewrite !take_str_length. split_and!; try lia.
  - apply take_str_has_char, strip_domain_clean.
  - by apply in_map.
Qed.

Lemma record_fields_bounded_witness :
  In sample_record [sample_record; small_record]
  ∧ (String.length (name sample_record) <= 30)%nat
  ∧ has_char backslash (username sample_record) = false.
Proof.
  assert (H : run_cycle sample_cycle2 (DataFetcher_init sample_total)
              = ((run_cycle sample_cycle2 (DataFetcher_init sample_total)).1,
                 Some (make_mem_info (c_mem sample_cycle2),
                       [sample_record; small_record])))
    by (vm_compute; reflexivity).
  destruct (record_fields_bounded _ _ _ _ _ sample_record H
              (or_introl eq_refl)) as (Hn & _ & Hb & _).
  split; [by left|]. split; [exact Hn|exact Hb].
Defined.

Lemma process_iter_pids d s obs :
  ∀ cache cache' procs,
    process_iter d s obs cache = (cache', Some procs) →
    map pid procs `sublist_of` map o_pid obs.
Proof.
  induction obs as [|o rest IH]; intros cache cache' procs H;
    cbn [process_iter] in H.
  { inversion H; subst. constructor. }
  destruct (process_one d s cache o) as [c1 [r0| |e]] eqn:Hone.
  - destruct (process_iter d s rest c1) as [c2 [l|]] eqn:Hrest;
      inversion H; subst.
    destruct (process_one_appended _ _ _ _ _ _ Hone)
      as (info & rss & cpu & disk_mb & _ & _ & _ & _ & _ & ->).
    cbn [map pid]. constructor. exact (IH _ _ _ Hrest).
  - cbn [map]. constructor. exact (IH _ _ _ H).
  - inversion H.
Qed.

(** X6. A cycle emits at most one record per process psutil listed, and
    the records have distinct pids when the listed processes have. *)
Theorem emitted_pids_distinct (c : cycle_obs) (d d' : DataFetcher)
    (mi : MemInfo) (procs : list ProcessRecord) :
  run_cycle c d = (d', Some (mi, procs)) →
  (length procs <= length (c_procs c))%nat
  ∧ (NoDup (map o_pid (c_procs c)) → NoDup (map pid procs)).
Proof.
  intros H.
  destruct (run_cycle_emits _ _ _ _ _ H) as (cache & procs0 & Hiter & -> & _).
  pose proof (process_iter_pids _ _ _ _ _ _ Hiter) as Hsub.
  split.
  - rewrite (Permutation_length (sort_by_memory_perm procs0)).
    apply sublist_length in Hsub. by rewrite !length_map in Hsub.
  - intros Hnd.
    rewrite (sort_by_memory_perm procs0).
    eapply sublist_NoDup; eassumption.
Qed.

Lemma emitted_pids_distinct_witness :
  NoDup (map o_pid (c_procs sample_cycle2))
  ∧ NoDup (map pid [sample_record; small_record]).
Proof.
  assert (Hnd : NoDup (map o_pid (c_procs sample_cycle2))).
  { simpl. apply NoDup_cons. split; [|apply NoDup_singleton].
    intros H. apply list_elem_of_In in H as [H|[]]. discriminate H. }
  split; [exact Hnd|].
  apply (proj2 (emitted_pids_distinct sample_cycle2
                  (DataFetcher_init sample_total)
                  (run_cycle sample_cycle2 (DataFetcher_init sample_total)).1
                  (make_mem_info (c_mem sample_cycle2))
                  [sample_record; small_record]
                  ltac:(vm_compute; reflexivity)) Hnd).
Defined.

(** * Further properties of the filter pipeline *)

(** X7. Filtering again, with the check boxes, the search text and the
    cached snapshot as they are, changes nothing: the window is the one
    the first filtering left. *)
Theorem apply_search_filter_idempotent (os : os_env) (g : TaskManagerGUI) :
  _apply_search_filter os (_apply_search_filter os g)
  = _apply_search_filter os g.
Proof.
  unfold _apply_search_filter at 2.
  destruct (_last_mem_info g) as [mi|] eqn:Hmi.
  - unfold _apply_search_filter. cbn [_last_mem_info]. rewrite Hmi.
    reflexivity.
  - unfold _apply_search_filter. by rewrite Hmi.
Qed.

Lemma prefix_iff (n h : string) :
  String.prefix n h = true ↔ ∃ post, h = n ++ post.
Proof.
  revert h; induction n as [|c n IH]; intros h.
  - split; [intros _; by exists h|by destruct h].
  - destruct h as [|x h]; cbn [String.prefix].
    + split; [done|]. intros [post H]. rewrite append_cons in H. done.
    + destruct (ascii_dec c x) as [->|Hne].
      * rewrite IH. split; intros [post H]; exists post.
        -- rewrite append_cons. by rewrite H.
        -- rewrite append_cons in H. by inversion H.
      * split; [done|]. intros [post H]. rewrite append_cons in H.
        inversion H; subst. done.
Qed.

(** [needle in hay] is true exactly when [hay] holds [needle] somewhere. *)
Lemma py_in_iff (n h : string) :
  py_in n h = true ↔ ∃ pre post, h = pre ++ n ++ post.
Proof.
  split.
  - induction h as [|x h IH]; cbn [py_in]; intros H;
      apply orb_true_iff in H as [H|H]; try done.
    + apply prefix_iff in H as [post H]. by exists "", post.
    + apply prefix_iff in H as [post H]. by exists "", post.
    + destruct (IH H) as (pre & post & ->). by exists (String x pre), post.
  - intros (pre & post & ->). apply py_in_append.
Qed.

Lemma lower_char_idem (c : ascii) : lower_char (lower_char c) = lower_char c.
Proof. by destruct c as [[] [] [] [] [] [] [] []]. Qed.

Lemma is_space_lower (c : ascii) : is_space (lower_char c) = is_space c.
Proof. by destruct c as [[] [] [] [] [] [] [] []]. Qed.

Lemma lower_idem (s : string) : lower (lower s) = lower s.
Proof.
  induction s as [|c s IH]; cbn [lower]; [done|].
  by rewrite lower_char_idem, IH.
Qed.

Lemma lstrip_lower (s : string) : lstrip (lower s) = lower (lstrip s).
Proof.
  induction s as [|c s IH]; cbn [lower lstrip]; [done|].
  rewrite is_space_lower. by destruct (is_space c).
Qed.

Lemma rstrip_lower (s : string) : rstrip (lower s) = lower (rstrip s).
Proof.
  induction s as [|c s IH]; cbn [lower rstrip]; [done|].
  rewrite IH, is_space_lower.
  destruct (rstrip s); cbn [lower]; [|done].
  by destruct (is_space c).
Qed.

Lemma strip_lower (s : string) : strip (lower s) = lower (strip s).
Proof. unfold strip. by rewrite lstrip_lower, rstrip_lower. Qed.

(** X8. The search keeps a row exactly when the lower-cased name of its
    process holds the search text, stripped of outer white space and
    lower-cased, as a substring; an empty or blank search text keeps
    every row; and the case of the search text does not matter: lower-
    casing it changes nothing in the rows kept. *)
Theorem search_filter_substring (g : TaskManagerGUI)
    (l : list ProcessRecord) (p : ProcessRecord) :
  (In p (search_filter g l) ↔
   In p l ∧ ∃ pre post, lower (name p) = pre ++ search_text g ++ post)
  ∧ (strip (search_input g) = "" → search_filter g l = l)
  ∧ (∀ g', search_input g' = lower (search_input g) →
           search_filter g' l = search_filter g l).
Proof.
  split_and!.
  - rewrite In_search_filter. split.
    + intros [Hin H]. split; [exact Hin|].
      destruct (truthy (search_text g)) eqn:Ht.
      * by apply py_in_iff, H.
      * exists "", (lower (name p)). by destruct (search_text g).
    + intros [Hin H]. split; [exact Hin|]. intros _. by apply py_in_iff.
  - intros H. unfold search_filter. by rewrite H.
  - intros g' H. unfold search_filter.
    by rewrite H, strip_lower, lower_idem.
Qed.

(** A blank search text keeps the three sample rows; the search text
    with the capital E acute and the no-break space finds the process
    named with the small e acute, and so does its lower-cased form. *)
Lemma search_filter_substring_witness :
  strip (search_input (sample_gui false false "   ")) = ""
  ∧ search_filter (sample_gui false false "   ") sample_processes
    = sample_processes
  ∧ search_filter (sample_gui false false cafe_search) [p_chrome; p_cafe]
    = [p_cafe]
  ∧ search_filter (sample_gui false false (lower cafe_search))
      [p_chrome; p_cafe]
    = [p_cafe].
Proof.
  split; [reflexivity|]. split.
  - apply (proj1 (proj2 (search_filter_substring
                           (sample_gui false false "   ")
                           sample_processes p_chrome))).
    reflexivity.
  - split; [vm_compute; reflexivity|].
    rewrite (proj2 (proj2 (search_filter_substring
                             (sample_gui false false cafe_search)
                             [p_chrome; p_cafe] p_chrome))
               (sample_gui false false (lower cafe_search)) eq_refl).
    vm_compute. reflexivity.
Defined.

(** * Further properties of the render *)

Lemma record_eqb_refl (p : ProcessRecord) : record_eqb p p = true.
Proof.
  unfold record_eqb.
  rewrite Z.eqb_refl, !String.eqb_refl, !Qeq_bool_refl. reflexivity.
Qed.

Lemma render_rows_step e scrolling full_reload prev_rows row proc rest t :
  render_rows e scrolling full_reload prev_rows row (proc :: rest) t
  = render_rows e scrolling full_reload prev_rows (S row) rest
      (if row_painted e scrolling full_reload prev_rows row proc
       then setItems row (render_items proc) t else t).
Proof.
  cbn [render_rows]. f_equal.
  unfold row_painted, row_visible, row_unchanged.
  destruct (_ || _); cbn [negb andb]; [reflexivity|].
  destruct (negb full_reload && _); cbn [negb andb]; [reflexivity|].
  by destruct scrolling.
Qed.

Lemma render_rows_length e scrolling full_reload prev_rows processes :
  ∀ row t,
    length (render_rows e scrolling full_reload prev_rows row processes t)
    = length t.
Proof.
  induction processes as [|proc rest IH]; intros row t; [reflexivity|].
  rewrite render_rows_step, IH.
  destruct (row_painted _ _ _ _ _ _); [apply length_insert|reflexivity].
Qed.

(** A row the loop does not paint keeps what it held. *)
Lemma render_rows_kept e scrolling full_reload prev_rows processes :
  ∀ (row : nat) (t : list (option row_items)) (i : nat),
    (∀ proc, (row <= i)%nat → processes !! (i - row)%nat = Some proc →
             row_painted e scrolling full_reload prev_rows i proc = false) →
    render_rows e scrolling full_reload prev_rows row processes t !! i
    = t !! i.
Proof.
  induction processes as [|proc rest IH]; intros row t i H; [reflexivity|].
  rewrite render_rows_step, IH.
  - destruct (row_painted e scrolling full_reload prev_rows row proc) eqn:Hp;
      [|reflexivity].
    unfold setItems. apply list_lookup_insert_ne. intros ->.
    specialize (H proc (Nat.le_refl _)). rewrite Nat.sub_diag in H.
    rewrite (H eq_refl) in Hp. discriminate.
  - intros p Hle Hlook. apply H; [lia|].
    replace (i - row)%nat with (S (i - S row)) by lia. exact Hlook.
Qed.

(** A row the loop paints holds the items of its record. *)
Lemma render_rows_set e scrolling full_reload prev_rows processes :
  ∀ (row : nat) (t : list (option row_items)) (i : nat) (proc : ProcessRecord),
    (row <= i)%nat → processes !! (i - row)%nat = Some proc →
    row_painted e scrolling full_reload prev_rows i proc = true →
    (i < length t)%nat →
    render_rows e scrolling full_reload prev_rows row processes t !! i
    = Some (Some (render_items proc)).
Proof.
  induction processes as [|p rest IH]; intros row t i proc Hle Hlook Hp Hlen;
    [done|].
  rewrite render_rows_step.
  destruct (decide (row = i)) as [->|Hne].
  - rewrite Nat.sub_diag in Hlook. cbn in Hlook. inversion Hlook; subst.
    rewrite Hp, render_rows_kept.
    + by apply list_lookup_insert_eq.
    + intros q Hq. lia.
  - apply IH; [lia| |exact Hp|].
    + replace (i - row)%nat with (S (i - S row)) in Hlook by lia. exact Hlook.
    + destruct (row_painted _ _ _ _ row p);
        [unfold setItems; by rewrite length_insert|done].
Qed.

Lemma pending_fill_In (entry : fill_entry) :
  ∀ (t : list (option row_items)) (processes : list ProcessRecord) (row : nat),
    In entry (pending_fill row t processes) ↔
    ∃ j proc, entry = FillProc (row + j) proc
              ∧ t !! j = Some None ∧ processes !! j = Some proc.
Proof.
  induction t as [|item t IH]; intros processes row.
  { simpl. split; [done|]. by intros (j & proc & _ & H & _). }
  destruct processes as [|p rest].
  { simpl. split; [done|]. by intros (j & proc & _ & _ & H). }
  assert (Hshift : (∃ j proc, entry = FillProc (S row + j) proc
                     ∧ t !! j = Some None ∧ rest !! j = Some proc)
                   ↔ (∃ j proc, entry = FillProc (row + S j) proc
                        ∧ t !! j = Some None ∧ rest !! j = Some proc)).
  { split; intros (j & proc & -> & H1 & H2); exists j, proc;
      (split; [f_equal; lia|done]). }
  cbn [pending_fill]. destruct item as [its|].
  - rewrite IH, Hshift. split.
    + intros (j & proc & -> & H1 & H2). by exists (S j), proc.
    + intros ([|j] & proc & -> & H1 & H2); [done|]. by exists j, proc.
  - cbn [In]. rewrite IH, Hshift. split.
    + intros [<-|(j & proc & -> & H1 & H2)].
      * exists 0%nat, p. split; [f_equal; lia|done].
      * by exists (S j), proc.
    + intros ([|j] & proc & -> & H1 & H2).
      * left. cbn in H2. inversion H2; subst. f_equal. lia.
      * right. by exists j, proc.
Qed.

(** X9. A render of the very rows rendered last leaves the table as it
    is, and queues for the background filler only rows that have no item
    yet. *)
Theorem render_unchanged_view (e : render_env) (g : TaskManagerGUI)
    (mi : MemInfo) (processes : list ProcessRecord) (total_processes : Z) :
  _last_rendered g = Some processes →
  let g' := _render_process_list e g mi processes total_processes in
  table g' = table g
  ∧ ∀ row proc, In (FillProc row proc) (_pending_offscreen_fill g') →
                table g !! row = Some None.
Proof.
  intros Hlast g'.
  assert (Ht : table g' = table g).
  { subst g'. unfold _render_process_list. cbn [table]. rewrite Hlast.
    cbn [default from_option id]. rewrite Nat.eqb_refl. cbn [negb].
    apply list_eq. intros i. apply render_rows_kept.
    intros proc _ Hp. rewrite Nat.sub_0_r in Hp.
    unfold row_painted, row_unchanged. rewrite Hp, record_eqb_refl.
    cbn [negb andb]. by rewrite andb_false_r. }
  split; [exact Ht|]. intros row proc Hin.
  assert (Hq : _pending_offscreen_fill g' = pending_fill 0 (table g') processes)
    by reflexivity.
  rewrite Hq, Ht in Hin.
  apply pending_fill_In in Hin as (j & p & Heq & Hj & _).
  inversion Heq; subst. exact Hj.
Qed.

Lemma render_unchanged_view_witness :
  _last_rendered rendered_gui = Some sample_processes
  ∧ table (_render_process_list top_row_only rendered_gui sample_mem
             sample_processes 3)
    = table rendered_gui.
Proof.
  split; [reflexivity|].
  apply (render_unchanged_view top_row_only rendered_gui sample_mem
           sample_processes 3 eq_refl).
Defined.

(** X10. When the number of rows is the one rendered last, a row outside
    the visible range keeps the items it has, whatever its record has
    become, and is not queued for the background filler either. *)
Theorem offscreen_row_kept (e : render_env) (g : TaskManagerGUI)
    (mi : MemInfo) (processes : list ProcessRecord) (total_processes : Z)
    (row : nat) (items : row_items) :
  length (default [] (_last_rendered g)) = length processes →
  row_visible e row = false →
  table g !! row = Some (Some items) →
  let g' := _render_process_list e g mi processes total_processes in
  table g' !! row = Some (Some items)
  ∧ ∀ proc, ¬ In (FillProc row proc) (_pending_offscreen_fill g').
Proof.
  intros Hlen Hvis Hrow g'.
  assert (Ht : table g' !! row = Some (Some items)).
  { subst g'. unfold _render_process_list. cbn [table].
    rewrite Hlen, Nat.eqb_refl. cbn [negb].
    rewrite render_rows_kept; [exact Hrow|].
    intros proc _ _. unfold row_painted. by rewrite Hvis. }
  split; [exact Ht|]. intros proc Hin.
  assert (Hq : _pending_offscreen_fill g' = pending_fill 0 (table g') processes)
    by reflexivity.
  rewrite Hq in Hin.
  apply pending_fill_In in Hin as (j & p & Heq & Hj & _).
  injection Heq as Hr _. cbn in Hr. subst j. congruence.
Qed.

(** The later snapshot rendered with only the first row in view: the
    third row still shows the old record of sshd, and nothing is queued. *)
Lemma offscreen_row_kept_witness :
  later_processes !! 2%nat = Some p_sshd'
  ∧ table rendered_gui !! 2%nat = Some (Some (render_items p_sshd))
  ∧ table (_render_process_list top_row_only rendered_gui sample_mem
             later_processes 3) !! 2%nat
    = Some (Some (render_items p_sshd))
  ∧ cpu_item (render_items p_sshd) ≠ cpu_item (render_items p_sshd').
Proof.
  assert (H2 : table rendered_gui !! 2%nat = Some (Some (render_items p_sshd)))
    by (vm_compute; reflexivity).
  split; [reflexivity|]. split; [exact H2|]. split.
  - apply (offscreen_row_kept top_row_only rendered_gui sample_mem
             later_processes 3 2 (render_items p_sshd) eq_refl eq_refl H2).
  - vm_compute. discriminate.
Defined.

Lemma full_reload_rows (e : render_env) (g : TaskManagerGUI)
    (mi : MemInfo) (processes : list ProcessRecord) (total_processes : Z) :
  length (default [] (_last_rendered g)) ≠ length processes →
  _user_scrolling g = false →
  let g' := _render_process_list e g mi processes total_processes in
  length (table g') = length processes
  ∧ ∀ i proc,
      processes !! i = Some proc →
      if row_visible e i
      then table g' !! i = Some (Some (render_items proc))
      else table g' !! i = Some None
           ∧ In (FillProc i proc) (_pending_offscreen_fill g').
Proof.
  intros Hlen Hs g'.
  assert (Hfull : (length (default [] (_last_rendered g))
                   =? length processes)%nat = false)
    by (by apply Nat.eqb_neq).
  assert (Ht : table g'
               = render_rows e false true (default [] (_last_rendered g)) 0
                   processes (replicate (length processes) None)).
  { subst g'. unfold _render_process_list. cbn [table].
    by rewrite Hfull, Hs. }
  assert (Hq : _pending_offscreen_fill g' = pending_fill 0 (table g') processes)
    by reflexivity.
  split.
  - rewrite Ht, render_rows_length. apply length_replicate.
  - intros i proc Hp. pose proof (lookup_lt_Some _ _ _ Hp) as Hi.
    assert (Hpaint : row_painted e false true (default [] (_last_rendered g))
                       i proc = row_visible e i).
    { unfold row_painted, row_unchanged. cbn [negb andb].
      by rewrite !andb_true_r. }
    destruct (row_visible e i) eqn:Hvis.
    + rewrite Ht. apply render_rows_set; [lia|by rewrite Nat.sub_0_r|done|].
      by rewrite length_replicate.
    + assert (Hnone : table g' !! i = Some None).
      { rewrite Ht, render_rows_kept; [by apply lookup_replicate_2|].
        intros q _ Hq'. rewrite Nat.sub_0_r in Hq'.
        unfold row_painted. by rewrite Hvis. }
      split; [exact Hnone|].
      rewrite Hq. apply pending_fill_In. by exists i, proc.
Qed.


(** X11. When the number of rows differs from the one rendered last and
    the user does not scroll, the table is rebuilt with one row per
    record: a row in the visible range holds the items of its record, and
    every other row is empty and queued for the background filler. *)
Theorem render_full_reload (e : render_env) (g : TaskManagerGUI)
    (mi : MemInfo) (processes : list ProcessRecord) (total_processes : Z) :
  length (default [] (_last_rendered g)) ≠ length processes →
  _user_scrolling g = false →
  let g' := _render_process_list e g mi processes total_processes in
  length (table g') = length processes
  ∧ ∀ i proc,
      processes !! i = Some proc →
      if row_visible e i
      then table g' !! i = Some (Some (render_items proc))
      else table g' !! i = Some None
           ∧ In (FillProc i proc) (_pending_offscreen_fill g').
Proof. apply full_reload_rows. Qed.

Lemma render_full_reload_witness :
  length (default [] (_last_rendered (sample_gui false false "")))
  ≠ length sample_processes
  ∧ table (_render_process_list top_row_only (sample_gui false false "")
             sample_mem sample_processes 3) !! 0%nat
    = Some (Some (render_items p_chrome))
  ∧ table (_render_process_list top_row_only (sample_gui false false "")
             sample_mem sample_processes 3) !! 1%nat
    = Some None.
Proof.
  assert (Hne : length (default [] (_last_rendered (sample_gui false false "")))
                ≠ length sample_processes) by discriminate.
  split; [exact Hne|].
  destruct (render_full_reload top_row_only (sample_gui false false "")
              sample_mem sample_processes 3 Hne eq_refl) as (Hlen & Hrows).
  split.
  - exact (Hrows 0%nat p_chrome eq_refl).
  - exact (proj1 (Hrows 1%nat p_init eq_refl)).
Defined.

(** * Further properties of the background filler *)

Lemma bg_fill_batch_queue (n : nat) :
  ∀ pending t, (bg_fill_batch n pending t).1 = drop n pending
               ∧ length (bg_fill_batch n pending t).2 = length t.
Proof.
  induction n as [|n IH]; intros pending t; [done|].
  destruct pending as [|[row items|row proc] rest]; cbn [bg_fill_batch];
    [done| |].
  - destruct (length t <=? row)%nat.
    + apply IH.
    + destruct (IH rest (setItems row items t)) as [-> ->].
      split; [done|apply length_insert].
  - destruct (length t <=? row)%nat.
    + apply IH.
    + destruct (IH rest (setItems row (fill_items proc) t)) as [-> ->].
      split; [done|apply length_insert].
Qed.

Lemma bg_fill_step_batch (g : TaskManagerGUI) :
  _pending_offscreen_fill (_bg_fill_step g)
  = (bg_fill_batch batch_size (_pending_offscreen_fill g) (table g)).1
  ∧ table (_bg_fill_step g)
    = (bg_fill_batch batch_size (_pending_offscreen_fill g) (table g)).2.
Proof.
  unfold _bg_fill_step.
  destruct (_pending_offscreen_fill g) as [|x l]; [done|].
  by destruct (bg_fill_batch batch_size (x :: l) (table g)).
Qed.

Lemma bg_fill_step_timer (g : TaskManagerGUI) :
  isActive (_bg_fill_timer (_bg_fill_step g))
  = nonempty (_pending_offscreen_fill (_bg_fill_step g))
    && isActive (_bg_fill_timer g).
Proof.
  unfold _bg_fill_step.
  destruct (match _pending_offscreen_fill g with
            | [] => _
            | _ => _
            end) as [[|x l] t]; reflexivity.
Qed.

(** X12. A tick of the background filler takes the first eight entries
    off the queue, all of them if there are fewer; the table keeps its
    number of rows; the fill timer is stopped exactly when the queue is
    empty afterwards and is otherwise left as it was. *)
Theorem bg_fill_step_queue (g : TaskManagerGUI) :
  _pending_offscreen_fill (_bg_fill_step g)
  = drop 8 (_pending_offscreen_fill g)
  ∧ length (table (_bg_fill_step g)) = length (table g)
  ∧ isActive (_bg_fill_timer (_bg_fill_step g))
    = nonempty (drop 8 (_pending_offscreen_fill g))
      && isActive (_bg_fill_timer g).
Proof.
  destruct (bg_fill_step_batch g) as [Hq Ht].
  destruct (bg_fill_batch_queue batch_size (_pending_offscreen_fill g) (table g))
    as [Hd Hl].
  rewrite bg_fill_step_timer, Hq, Ht, Hd. by split_and!.
Qed.

Lemma bg_fill_batch_consistent (processes : list ProcessRecord) (n : nat) :
  ∀ pending t,
    fill_consistent processes t pending →
    fill_consistent processes (bg_fill_batch n pending t).2
      (bg_fill_batch n pending t).1.
Proof.
  induction n as [|n IH]; intros pending t H; [exact H|].
  destruct pending as [|entry rest]; [exact H|].
  destruct H as (Hlen & Hrows & Hq).
  destruct (Hq entry (or_introl eq_refl)) as (row & proc & -> & Hproc).
  cbn [bg_fill_batch].
  assert (Hlt : (row < length t)%nat)
    by (rewrite Hlen; exact (lookup_lt_Some _ _ _ Hproc)).
  assert (Hleb : (length t <=? row)%nat = false) by (apply Nat.leb_gt; lia).
  rewrite Hleb. apply IH. unfold setItems. split_and!.
  - by rewrite length_insert.
  - intros i p Hp. destruct (decide (row = i)) as [->|Hne].
    + left. rewrite list_lookup_insert_eq by done.
      assert (p = proc) by congruence. by subst.
    + rewrite list_lookup_insert_ne by done.
      destruct (Hrows i p Hp) as [?|[Heq|Hin]]; [by left| |by right].
      injection Heq as Hr _. congruence.
  - intros entry Hin. apply Hq. by right.
Qed.

Lemma drain_consistent (processes : list ProcessRecord) (k : nat) :
  ∀ g, fill_consistent processes (table g) (_pending_offscreen_fill g) →
       fill_consistent processes (table (drain k g))
         (_pending_offscreen_fill (drain k g))
       ∧ _pending_offscreen_fill (drain k g)
         = drop (8 * k) (_pending_offscreen_fill g).
Proof.
  induction k as [|k IH]; intros g H.
  { split; [exact H|by rewrite Nat.mul_0_r]. }
  destruct (IH g H) as [Hc Hd].
  change (drain (S k) g) with (_bg_fill_step (drain k g)).
  destruct (bg_fill_step_batch (drain k g)) as [Hq Ht].
  split.
  - rewrite Hq, Ht. by apply bg_fill_batch_consistent.
  - rewrite Hq.
    rewrite (proj1 (bg_fill_batch_queue batch_size _ _)), Hd, drop_drop.
    f_equal. unfold batch_size. lia.
Qed.

Lemma render_fill_timer e g mi processes total_processes :
  isActive (_bg_fill_timer
              (_render_process_list e g mi processes total_processes))
  = nonempty (_pending_offscreen_fill
                (_render_process_list e g mi processes total_processes)).
Proof.
  unfold _render_process_list. cbn [_bg_fill_timer _pending_offscreen_fill].
  by destruct (pending_fill _ _ _).
Qed.

Lemma render_consistent e g mi processes total_processes :
  length (default [] (_last_rendered g)) ≠ length processes →
  _user_scrolling g = false →
  fill_consistent processes
    (table (_render_process_list e g mi processes total_processes))
    (_pending_offscreen_fill
       (_render_process_list e g mi processes total_processes)).
Proof.
  intros Hlen Hs.
  destruct (full_reload_rows e g mi processes total_processes Hlen Hs)
    as (Hl & Hrows).
  split_and!; [exact Hl| |].
  - intros i proc Hp. specialize (Hrows i proc Hp).
    destruct (row_visible e i); [by left|right; apply Hrows].
  - intros entry Hin.
    change (In entry (pending_fill 0
                        (table (_render_process_list e g mi processes
                                  total_processes)) processes)) in Hin.
    apply pending_fill_In in Hin as (j & proc & -> & _ & Hp).
    by exists j, proc.
Qed.

(** X13. After a render that rebuilt the table while the user did not
    scroll, enough ticks of the background filler (eight rows a tick)
    leave the queue empty, the fill timer stopped and every row of the
    table with the items of its record. *)
Theorem fill_completes (e : render_env) (g : TaskManagerGUI) (mi : MemInfo)
    (processes : list ProcessRecord) (total_processes : Z) (k : nat) :
  length (default [] (_last_rendered g)) ≠ length processes →
  _user_scrolling g = false →
  let g1 := _render_process_list e g mi processes total_processes in
  (length (_pending_offscreen_fill g1) <= 8 * k)%nat →
  _pending_offscreen_fill (drain k g1) = []
  ∧ isActive (_bg_fill_timer (drain k g1)) = false
  ∧ ∀ i proc, processes !! i = Some proc →
              table (drain k g1) !! i = Some (Some (render_items proc)).
Proof.
  intros Hlen Hs g1 Hk.
  destruct (drain_consistent processes k g1
              (render_consistent e g mi processes total_processes Hlen Hs))
    as ((_ & Hrows & _) & Hd).
  assert (Hempty : _pending_offscreen_fill (drain k g1) = [])
    by (rewrite Hd; by apply drop_ge).
  split_and!; [exact Hempty| |].
  - destruct k as [|k].
    + change (drain 0 g1) with g1 in *. subst g1.
      by rewrite render_fill_timer, Hempty.
    + change (drain (S k) g1) with (_bg_fill_step (drain k g1)).
      change (drain (S k) g1) with (_bg_fill_step (drain k g1)) in Hempty.
      by rewrite bg_fill_step_timer, Hempty.
  - intros i proc Hp. destruct (Hrows i proc Hp) as [H|H]; [exact H|].
    rewrite Hempty in H. destruct H.
Qed.

Lemma fill_completes_witness :
  length (default [] (_last_rendered (sample_gui false false "")))
  ≠ length sample_processes
  ∧ (length (_pending_offscreen_fill
               (_render_process_list top_row_only (sample_gui false false "")
                  sample_mem sample_processes 3)) <= 8 * 1)%nat
  ∧ table (drain 1 (_render_process_list top_row_only
                      (sample_gui false false "") sample_mem
                      sample_processes 3)) !! 2%nat
    = Some (Some (render_items p_sshd)).
Proof.
  assert (Hne : length (default [] (_last_rendered (sample_gui false false "")))
                ≠ length sample_processes) by discriminate.
  assert (Hk : (length (_pending_offscreen_fill
               (_render_process_list top_row_only (sample_gui false false "")
                  sample_mem sample_processes 3)) <= 8 * 1)%nat)
    by (vm_compute; lia).
  split; [exact Hne|]. split; [exact Hk|].
  destruct (fill_completes top_row_only (sample_gui false false "")
              sample_mem sample_processes 3 1 Hne eq_refl Hk) as (_ & _ & H).
  exact (H 2%nat p_sshd eq_refl).
Defined.

(** * Further properties of the coalescer *)

Lemma render_rows_inv e g mi processes total_processes :
  rows_inv g → rows_inv (_render_process_list e g mi processes total_processes).
Proof.
  unfold rows_inv, _render_process_list. cbn [table _last_rendered default].
  intros H. rewrite render_rows_length.
  destruct (length (default [] (_last_rendered g)) =? length processes)%nat
    eqn:Hl; cbn [negb].
  - apply Nat.eqb_eq in Hl. cbn. congruence.
  - cbn. apply length_replicate.
Qed.

Lemma apply_search_filter_view os g :
  table (_apply_search_filter os g) = table g
  ∧ _last_rendered (_apply_search_filter os g) = _last_rendered g
  ∧ status_message (_apply_search_filter os g) = status_message g
  ∧ _user_scrolling (_apply_search_filter os g) = _user_scrolling g
  ∧ _cached_processes (_apply_search_filter os g) = _cached_processes g
  ∧ _last_mem_info (_apply_search_filter os g) = _last_mem_info g
  ∧ single_shots (_apply_search_filter os g) = single_shots g.
Proof.
  unfold _apply_search_filter.
  destruct (_last_mem_info g) eqn:H; cbn; rewrite ?H; by split_and!.
Qed.

Lemma on_data_ready_view os mi processes g :
  table (on_data_ready os mi processes g) = table g
  ∧ _last_rendered (on_data_ready os mi processes g) = _last_rendered g
  ∧ status_message (on_data_ready os mi processes g) = status_message g
  ∧ _user_scrolling (on_data_ready os mi processes g) = _user_scrolling g
  ∧ _cached_processes (on_data_ready os mi processes g) = processes
  ∧ _last_mem_info (on_data_ready os mi processes g) = Some mi.
Proof.
  unfold on_data_ready, _apply_search_filter.
  cbn [cache_snapshot _last_mem_info].
  by destruct (immediate g mi processes).
Qed.

Lemma bg_fill_step_last_rendered g :
  _last_rendered (_bg_fill_step g) = _last_rendered g.
Proof.
  unfold _bg_fill_step.
  by destruct (match _pending_offscreen_fill g with
               | [] => _
               | _ => _
               end).
Qed.

Lemma bg_fill_step_fields g :
  _last_mem_info (_bg_fill_step g) = _last_mem_info g
  ∧ _cached_processes (_bg_fill_step g) = _cached_processes g
  ∧ _pending_render_mem_info (_bg_fill_step g) = _pending_render_mem_info g
  ∧ _pending_render_processes (_bg_fill_step g) = _pending_render_processes g.
Proof.
  unfold _bg_fill_step.
  by destruct (match _pending_offscreen_fill g with
               | [] => _
               | _ => _
               end).
Qed.

Lemma flush_window_inv e g : window_inv g → window_inv (_flush_ui_update e g).
Proof.
  intros [Hr Hs]. unfold _flush_ui_update.
  destruct (_user_scrolling g); [by split|].
  destruct (flush_mem_info g) as [mi|] eqn:Hm.
  - split.
    + apply (render_rows_inv e g mi (flush_processes g) (flush_total g) Hr).
    + intros Hn. cbn in Hn. destruct (Hs Hn) as (_ & Hpm & _).
      unfold flush_mem_info in Hm. rewrite Hpm, Hn in Hm. discriminate Hm.
  - assert (Hn : _last_mem_info g = None).
    { unfold flush_mem_info in Hm.
      by destruct (_pending_render_mem_info g). }
    destruct (Hs Hn) as (Hc & Hpm & Hpp & Hl).
    assert (Hp : flush_processes g = [])
      by (unfold flush_processes; by rewrite Hpp, Hc).
    unfold window_inv, rows_inv, summary_inv, render_without_summary.
    rewrite Hp. cbn. rewrite Hl. cbn. split; [|done].
    unfold rows_inv in Hr. by rewrite Hl in Hr.
Qed.

(** X14. A window without a memory summary has nothing cached, pending
    or rendered, and the table has as many rows as there are rows kept as
    last rendered: both hold of a fresh window and both are kept by the
    flush, a tick of the background filler, the filter and the arrival of
    a snapshot; the render keeps the row count whatever it is handed. *)
Theorem table_rows_invariant :
  (∀ hide_system hide_inaccessible,
     window_inv (TaskManagerGUI_init hide_system hide_inaccessible))
  ∧ (∀ g, window_inv g →
          rows_inv g
          ∧ (∀ e, window_inv (_flush_ui_update e g))
          ∧ window_inv (_bg_fill_step g)
          ∧ (∀ os, window_inv (_apply_search_filter os g))
          ∧ (∀ os mi processes, window_inv (on_data_ready os mi processes g)))
  ∧ (∀ g e mi processes total_processes,
       rows_inv g →
       rows_inv (_render_process_list e g mi processes total_processes)).
Proof.
  split; [done|]. split; [|intros; by apply render_rows_inv].
  intros g [Hr Hs]. split_and!.
  - exact Hr.
  - intros e. by apply flush_window_inv.
  - destruct (bg_fill_step_fields g) as (Hm & Hc & Hpm & Hpp).
    split.
    + unfold rows_inv in *. rewrite bg_fill_step_last_rendered.
      destruct (bg_fill_step_batch g) as [_ ->].
      by rewrite (proj2 (bg_fill_batch_queue batch_size _ _)).
    + unfold summary_inv.
      rewrite Hm, Hc, Hpm, Hpp, bg_fill_step_last_rendered. exact Hs.
  - intros os. unfold _apply_search_filter.
    destruct (_last_mem_info g) eqn:Hm; [|by split].
    split; [exact Hr|]. intros Hn. cbn in Hn. congruence.
  - intros os mi processes.
    destruct (on_data_ready_view os mi processes g)
      as (Ht & Hl & _ & _ & _ & Hm).
    split.
    + unfold rows_inv in *. by rewrite Ht, Hl.
    + intros Hn. congruence.
Qed.

(** A snapshot arrives in a fresh window, is filtered and flushed. *)
Lemma table_rows_invariant_witness :
  window_inv (TaskManagerGUI_init false false)
  ∧ rows_inv
      (_flush_ui_update sample_render_env
         (on_data_ready sample_os sample_mem sample_processes
            (TaskManagerGUI_init false false)))
  ∧ length
      (table
         (_flush_ui_update sample_render_env
            (on_data_ready sample_os sample_mem sample_processes
               (TaskManagerGUI_init false false)))) = 3%nat.
Proof.
  destruct table_rows_invariant as (Hinit & Hkeep & _).
  pose proof (Hinit false false) as H0.
  split; [exact H0|].
  destruct (Hkeep _ H0) as (_ & _ & _ & _ & Hdata).
  destruct (Hkeep _ (Hdata sample_os sample_mem sample_processes))
    as (_ & Hflush & _).
  destruct (Hkeep _ (Hflush sample_render_env)) as (Hrows & _).
  split; [exact Hrows|].
  rewrite Hrows. vm_compute. reflexivity.
Defined.

(** Without the first half the second would not be kept: in a window
    that held rows but no summary the render would reset the table to
    three rows, raise on its first label and leave no row kept as
    rendered. *)
Lemma flush_without_summary_example :
  rows_inv no_summary_gui
  ∧ ¬ summary_inv no_summary_gui
  ∧ length (table (_flush_ui_update sample_render_env no_summary_gui)) = 3%nat
  ∧ _last_rendered (_flush_ui_update sample_render_env no_summary_gui)
    = Some []
  ∧ ¬ rows_inv (_flush_ui_update sample_render_env no_summary_gui).
Proof.
  split_and!; try (vm_compute; reflexivity).
  - intros H. destruct (H eq_refl) as (Hc & _). discriminate Hc.
  - intros H. vm_compute in H. discriminate H.
Qed.

Lemma flush_keeps e g :
  _cached_processes (_flush_ui_update e g) = _cached_processes g
  ∧ _last_mem_info (_flush_ui_update e g) = _last_mem_info g
  ∧ _user_scrolling (_flush_ui_update e g) = _user_scrolling g
  ∧ hide_system_checkbox (_flush_ui_update e g) = hide_system_checkbox g
  ∧ hide_inaccessible_checkbox (_flush_ui_update e g)
    = hide_inaccessible_checkbox g.
Proof.
  unfold _flush_ui_update.
  destruct (_user_scrolling g) eqn:Hs; [cbn; by rewrite Hs|].
  destruct (flush_mem_info g); cbn; by rewrite Hs.
Qed.

Lemma flush_clears e g :
  _user_scrolling g = false →
  _pending_render_mem_info (_flush_ui_update e g) = None
  ∧ _pending_render_processes (_flush_ui_update e g) = None
  ∧ _pending_total_processes (_flush_ui_update e g) = 0.
Proof.
  intros Hs. unfold _flush_ui_update. rewrite Hs.
  by destruct (flush_mem_info g).
Qed.

(** X15. A flush made while the user does not scroll clears the pending
    values; a flush that follows it with nothing new pending renders the
    whole cached list and counts it as the total, whatever the check
    boxes and the search text say. *)
Theorem second_flush_renders_cache (e e' : render_env) (g : TaskManagerGUI)
    (mi : MemInfo) :
  _user_scrolling g = false →
  _last_mem_info g = Some mi →
  let g1 := _flush_ui_update e g in
  let g2 := _flush_ui_update e' g1 in
  _pending_render_mem_info g1 = None
  ∧ _pending_render_processes g1 = None
  ∧ _pending_total_processes g1 = 0
  ∧ _last_rendered g2 = Some (_cached_processes g)
  ∧ status_message g2
    = status_line g (current_time e') (_cached_processes g)
        (len (_cached_processes g)).
Proof.
  intros Hs Hm g1 g2.
  destruct (flush_clears e g Hs) as (Hpm & Hpp & Hpt).
  destruct (flush_keeps e g) as (Hc & Hl & Hs1 & Hhs & Hhi).
  fold g1 in Hpm, Hpp, Hpt, Hc, Hl, Hs1, Hhs, Hhi.
  rewrite Hs in Hs1. rewrite Hm in Hl.
  assert (Hfm : flush_mem_info g1 = Some mi)
    by (unfold flush_mem_info; by rewrite Hpm, Hl).
  split_and!; try done; subst g2; rewrite (flush_renders e' g1 mi Hs1 Hfm).
  - cbn. unfold flush_processes. by rewrite Hpp, Hc.
  - cbn. unfold flush_processes, flush_total, status_line.
    by rewrite Hpp, Hpt, Hc, Hhs, Hhi.
Qed.

(** Chrome is searched for, the flush shows one row; a second flush shows
    all three. *)
Lemma second_flush_renders_cache_witness :
  _last_rendered
    (_flush_ui_update sample_render_env
       (_apply_search_filter sample_os (sample_gui false false "chrome")))
  = Some [p_chrome]
  ∧ _last_rendered
      (_flush_ui_update sample_render_env
         (_flush_ui_update sample_render_env
            (_apply_search_filter sample_os (sample_gui false false "chrome"))))
    = Some sample_processes.
Proof.
  split; [vm_compute; reflexivity|].
  destruct (second_flush_renders_cache sample_render_env sample_render_env
              (_apply_search_filter sample_os (sample_gui false false "chrome"))
              sample_mem eq_refl eq_refl) as (_ & _ & _ & H & _).
  exact H.
Defined.

(** The filters look at the check boxes, the search text and the cached
    list only. *)
Lemma filtered_rows_ext os g g' :
  hide_system_checkbox g = hide_system_checkbox g' →
  hide_inaccessible_checkbox g = hide_inaccessible_checkbox g' →
  search_input g = search_input g' →
  _cached_processes g = _cached_processes g' →
  filtered_rows os g = filtered_rows os g'.
Proof.
  intros H1 H2 H3 H4.
  unfold filtered_rows, search_filter, inaccessible_filter, system_filter.
  by rewrite H1, H2, H3, H4.
Qed.

Lemma on_data_ready_fields os mi processes g :
  hide_system_checkbox (on_data_ready os mi processes g)
  = hide_system_checkbox g
  ∧ hide_inaccessible_checkbox (on_data_ready os mi processes g)
    = hide_inaccessible_checkbox g
  ∧ search_input (on_data_ready os mi processes g) = search_input g
  ∧ _pending_render_processes (on_data_ready os mi processes g)
    = Some (filtered_rows os (cache_snapshot mi processes g))
  ∧ _pending_total_processes (on_data_ready os mi processes g)
    = len processes
  ∧ _pending_render_mem_info (on_data_ready os mi processes g) = Some mi
  ∧ _ui_update_timer (on_data_ready os mi processes g)
    = (if immediate g mi processes then stop (_ui_update_timer g)
       else start (_ui_update_timer g)).
Proof.
  unfold on_data_ready, _apply_search_filter.
  cbn [cache_snapshot _last_mem_info].
  destruct (immediate g mi processes); cbn; by split_and!.
Qed.

(** X16. A snapshot that arrives replaces the one before it: the cache,
    the memory summary and the pending rows, total and summary are those
    of the new snapshot under the current filters, the same as if the
    earlier snapshot had never arrived, and nothing is painted before the
    flush. *)
Theorem latest_snapshot_wins (os : os_env) (g : TaskManagerGUI)
    (mi1 mi2 : MemInfo) (ps1 ps2 : list ProcessRecord) :
  let g2 := on_data_ready os mi2 ps2 (on_data_ready os mi1 ps1 g) in
  let g2' := on_data_ready os mi2 ps2 g in
  _cached_processes g2 = ps2
  ∧ _last_mem_info g2 = Some mi2
  ∧ _pending_render_processes g2
    = Some (filtered_rows os (cache_snapshot mi2 ps2 g))
  ∧ _pending_total_processes g2 = len ps2
  ∧ _pending_render_mem_info g2 = Some mi2
  ∧ _pending_render_processes g2 = _pending_render_processes g2'
  ∧ _ui_update_timer g2 = _ui_update_timer g2'
  ∧ table g2 = table g ∧ _last_rendered g2 = _last_rendered g
  ∧ status_message g2 = status_message g.
Proof.
  intros g2 g2'. set (g1 := on_data_ready os mi1 ps1 g) in *.
  destruct (on_data_ready_view os mi1 ps1 g) as (Ht & Hl & Hst & Hs & _ & _).
  destruct (on_data_ready_fields os mi1 ps1 g)
    as (Hhs & Hhi & Hsi & _ & _ & _ & Htim).
  fold g1 in Ht, Hl, Hst, Hs, Hhs, Hhi, Hsi, Htim.
  assert (Himm : immediate g1 mi2 ps2 = immediate g mi2 ps2)
    by (by rewrite !immediate_unfold, Hl, Hs).
  destruct (on_data_ready_view os mi2 ps2 g1) as (Ht2 & Hl2 & Hst2 & _ & Hc2 & Hm2).
  destruct (on_data_ready_fields os mi2 ps2 g1)
    as (_ & _ & _ & Hp2 & Hpt2 & Hpm2 & Htim2).
  destruct (on_data_ready_fields os mi2 ps2 g)
    as (_ & _ & _ & Hp2' & _ & _ & Htim2').
  fold g2 in Ht2, Hl2, Hst2, Hc2, Hm2, Hp2, Hpt2, Hpm2, Htim2.
  fold g2' in Hp2', Htim2'.
  assert (Hf : filtered_rows os (cache_snapshot mi2 ps2 g1)
               = filtered_rows os (cache_snapshot mi2 ps2 g))
    by (by apply filtered_rows_ext).
  split_and!; try congruence.
  rewrite Htim2, Htim2', Himm, Htim.
  by destruct (immediate g mi2 ps2), (immediate g mi1 ps1).
Qed.

(** * Scrolling and moving *)

Lemma timeout_while_scrolling e g :
  _user_scrolling g = true →
  ui_update_timeout e g
  = set_ui_update_timer {| interval := 250; isActive := true |} g.
Proof.
  intros Hs. unfold ui_update_timeout, _flush_ui_update.
  cbn [set_ui_update_timer _user_scrolling]. rewrite Hs. reflexivity.
Qed.

Lemma timeouts_while_scrolling e g (n : nat) :
  _user_scrolling g = true →
  Nat.iter (S n) (ui_update_timeout e) g
  = set_ui_update_timer {| interval := 250; isActive := true |} g.
Proof.
  intros Hs. induction n as [|n IH].
  - by apply timeout_while_scrolling.
  - change (Nat.iter (S (S n)) (ui_update_timeout e) g)
      with (ui_update_timeout e (Nat.iter (S n) (ui_update_timeout e) g)).
    rewrite IH. rewrite timeout_while_scrolling by exact Hs. reflexivity.
Qed.

(** X17. A render that comes due while the user scrolls is put off, not
    lost: however often the coalescing timer fires after a scroll event,
    the table, the rows kept as rendered and the status line stay as they
    are, the pending values are kept and the timer is re-armed at 250 ms;
    when the scrolling has stopped the timer is armed at 10 ms, and its
    next firing renders the pending rows. *)
Theorem render_deferred_until_scroll_stops (e : render_env) (w : Window)
    (mi : MemInfo) (p : ProcessRecord) (l : list ProcessRecord) (n : nat) :
  _pending_render_processes (gui w) = Some (p :: l) →
  flush_mem_info (gui w) = Some mi →
  let g1 := Nat.iter (S n) (ui_update_timeout e) (gui (_on_user_scrolled w)) in
  let w2 := _on_scroll_stopped (with_gui g1 (_on_user_scrolled w)) in
  (table g1 = table (gui w)
   ∧ _last_rendered g1 = _last_rendered (gui w)
   ∧ status_message g1 = status_message (gui w)
   ∧ _pending_render_processes g1 = Some (p :: l)
   ∧ _ui_update_timer g1 = {| interval := 250; isActive := true |})
  ∧ _user_scrolling (gui w2) = false
  ∧ _ui_update_timer (gui w2) = {| interval := 10; isActive := true |}
  ∧ _last_rendered (ui_update_timeout e (gui w2)) = Some (p :: l)
  ∧ _pending_render_processes (ui_update_timeout e (gui w2)) = None.
Proof.
  intros Hp Hm g1 w2.
  assert (Hg1 : g1 = set_ui_update_timer {| interval := 250; isActive := true |}
                       (set_user_scrolling true (gui w)))
    by (subst g1; by rewrite timeouts_while_scrolling).
  assert (Hw2 : gui w2
                = set_ui_update_timer {| interval := 10; isActive := true |}
                    (set_user_scrolling false (gui w))).
  { subst w2. unfold _on_scroll_stopped. cbn [with_gui gui]. rewrite Hg1.
    cbn [set_user_scrolling set_ui_update_timer _pending_render_processes].
    rewrite Hp. reflexivity. }
  split; [rewrite Hg1; by split_and!|].
  rewrite Hw2. split_and!; try reflexivity.
  - unfold ui_update_timeout. erewrite flush_renders; [|reflexivity|exact Hm].
    cbn. unfold flush_processes. cbn. by rewrite Hp.
  - unfold ui_update_timeout. erewrite flush_renders; [|reflexivity|exact Hm].
    reflexivity.
Qed.

Lemma render_deferred_until_scroll_stops_witness :
  _pending_render_processes
    (gui (Window_init (_apply_search_filter sample_os
                         (sample_gui true false ""))))
  = Some [p_chrome]
  ∧ table (Nat.iter 3 (ui_update_timeout sample_render_env)
             (gui scrolling_window)) = []
  ∧ _last_rendered
      (ui_update_timeout sample_render_env
         (gui (_on_scroll_stopped
                 (with_gui (Nat.iter 3 (ui_update_timeout sample_render_env)
                              (gui scrolling_window)) scrolling_window))))
    = Some [p_chrome].
Proof.
  split; [reflexivity|].
  destruct (render_deferred_until_scroll_stops sample_render_env
              (Window_init (_apply_search_filter sample_os
                              (sample_gui true false "")))
              sample_mem p_chrome [] 2 eq_refl eq_refl)
    as ((Ht & _) & _ & _ & Hr & _).
  split; [exact Ht|exact Hr].
Defined.

Lemma move_first (w : Window) :
  browser_dialog_open w = false →
  gui (moveEvent w)
  = set_ui_update_timer (stop (_ui_update_timer (gui w)))
      (set_bg_fill_timer (stop (_bg_fill_timer (gui w))) (gui w))
  ∧ _bg_fill_was_active (moveEvent w) = isActive (_bg_fill_timer (gui w))
  ∧ _ui_update_was_active (moveEvent w) = isActive (_ui_update_timer (gui w))
  ∧ _window_moving (moveEvent w) = true
  ∧ updates_enabled (moveEvent w) = false
  ∧ browser_dialog_open (moveEvent w) = false.
Proof. intros H. unfold moveEvent. rewrite H. by split_and!. Qed.

Lemma move_again (w : Window) (n : nat) :
  browser_dialog_open w = false →
  gui (Nat.iter (S (S n)) moveEvent w) = gui (moveEvent w)
  ∧ _bg_fill_was_active (Nat.iter (S (S n)) moveEvent w) = false
  ∧ _ui_update_was_active (Nat.iter (S (S n)) moveEvent w) = false
  ∧ _window_moving (Nat.iter (S (S n)) moveEvent w) = true
  ∧ updates_enabled (Nat.iter (S (S n)) moveEvent w) = false
  ∧ browser_dialog_open (Nat.iter (S (S n)) moveEvent w) = false.
Proof.
  intros H. induction n as [|n IH].
  - change (Nat.iter 2 moveEvent w) with (moveEvent (moveEvent w)).
    destruct (move_first w H) as (Hg & _ & _ & _ & _ & Hb).
    destruct (move_first (moveEvent w) Hb) as (Hg' & Hbg & Hui & ? & ? & ?).
    rewrite Hbg, Hui, Hg', Hg. by split_and!.
  - change (Nat.iter (S (S (S n))) moveEvent w)
      with (moveEvent (Nat.iter (S (S n)) moveEvent w)).
    destruct IH as (Hg & _ & _ & _ & _ & Hb).
    destruct (move_first _ Hb) as (Hg' & Hbg & Hui & ? & ? & ?).
    destruct (move_first w H) as (Hg1 & _).
    rewrite Hbg, Hui, Hg', Hg, Hg1. by split_and!.
Qed.

(** X18. One or more move events stop the coalescing timer and the fill
    timer and disable updates.  When the move has stopped, updates are
    enabled again, the fill timer runs exactly when the fill queue is not
    empty, and a flush is queued 10 ms later when rows are pending for the
    render; with nothing pending it is queued only if the coalescing timer
    was running and there was a single move event, for a second move
    event forgets that the timer ran.  The table, the queue and the
    pending rows are not touched. *)
Theorem move_then_stop (w : Window) (n : nat) :
  browser_dialog_open w = false →
  let w1 := Nat.iter (S n) moveEvent w in
  let w2 := _on_move_stopped w1 in
  (isActive (_ui_update_timer (gui w1)) = false
   ∧ isActive (_bg_fill_timer (gui w1)) = false
   ∧ updates_enabled w1 = false ∧ _window_moving w1 = true)
  ∧ updates_enabled w2 = true ∧ _window_moving w2 = false
  ∧ isActive (_bg_fill_timer (gui w2))
    = nonempty (_pending_offscreen_fill (gui w))
  ∧ isActive (_ui_update_timer (gui w2)) = false
  ∧ single_shots (gui w2)
    = (if is_some (_pending_render_processes (gui w))
          || (n =? 0)%nat && isActive (_ui_update_timer (gui w))
       then (single_shots (gui w) ++ [10])%list
       else single_shots (gui w))
  ∧ table (gui w2) = table (gui w)
  ∧ _pending_offscreen_fill (gui w2) = _pending_offscreen_fill (gui w)
  ∧ _pending_render_processes (gui w2) = _pending_render_processes (gui w).
Proof.
  intros Hb w1 w2.
  destruct (move_first w Hb) as (Hg1 & Hbg1 & Hui1 & Hm1 & Hu1 & _).
  assert (H1 : gui w1 = gui (moveEvent w)
               ∧ _window_moving w1 = true ∧ updates_enabled w1 = false
               ∧ _bg_fill_was_active w1
                 = (n =? 0)%nat && isActive (_bg_fill_timer (gui w))
               ∧ _ui_update_was_active w1
                 = (n =? 0)%nat && isActive (_ui_update_timer (gui w))).
  { subst w1. destruct n as [|n].
    - change (Nat.iter 1 moveEvent w) with (moveEvent w).
      cbn [Nat.eqb andb]. by split_and!.
    - destruct (move_again w n Hb) as (Hg & Hbg & Hui & Hm & Hu & _).
      cbn [Nat.eqb andb]. by split_and!. }
  destruct H1 as (Hg & Hm & Hu & Hbgw & Huiw).
  split; [rewrite Hg, Hg1; by split_and!|].
  subst w2. unfold _on_move_stopped.
  cbn [gui updates_enabled _window_moving]. rewrite Hbgw, Huiw, Hg, Hg1.
  cbn [set_ui_update_timer set_bg_fill_timer _pending_offscreen_fill
       _bg_fill_timer stop isActive negb andb].
  destruct (_pending_offscreen_fill (gui w)) as [|x q] eqn:Hq;
    destruct (_pending_render_processes (gui w)) as [rows|] eqn:Hp;
    destruct ((n =? 0)%nat);
    destruct (isActive (_bg_fill_timer (gui w))) eqn:Hbga;
    destruct (isActive (_ui_update_timer (gui w))) eqn:Huia;
    cbn; rewrite ?Hp, ?Hq; cbn; by split_and!.
Qed.

(** The move of a window with rows pending for the render and for the
    filler, in three move events. *)
Lemma move_then_stop_witness :
  browser_dialog_open busy_window = false
  ∧ isActive (_bg_fill_timer (gui (Nat.iter 3 moveEvent busy_window))) = false
  ∧ isActive (_bg_fill_timer
                (gui (_on_move_stopped (Nat.iter 3 moveEvent busy_window))))
    = true
  ∧ single_shots (gui (_on_move_stopped (Nat.iter 3 moveEvent busy_window)))
    = [10].
Proof.
  split; [reflexivity|].
  destruct (move_then_stop busy_window 2 eq_refl)
    as ((_ & Hbg & _) & _ & _ & Hfill & _ & Hshots & _).
  split; [exact Hbg|]. split.
  - rewrite Hfill. reflexivity.
  - rewrite Hshots. reflexivity.
Defined.

(** * The configuration file *)

Lemma usable_cases (fs : config_fs) :
  usable fs →
  ∃ config,
    (∀ v, save_theme v fs
          = {| file := Object (<["theme" := JString v]> config);
               writable := true |})
    ∧ (∀ b, save_hide_system_processes b fs
            = {| file := Object (<["hide_system_processes" := JBool b]> config);
                 writable := true |})
    ∧ (∀ b, save_hide_inaccessible_processes b fs
            = {| file := Object
                           (<["hide_inaccessible_processes" := JBool b]> config);
                 writable := true |})
    ∧ load_theme fs = default (JString "light") (config !! "theme")
    ∧ load_hide_system_processes fs
      = default (JBool false) (config !! "hide_system_processes")
    ∧ load_hide_inaccessible_processes fs
      = default (JBool false) (config !! "hide_inaccessible_processes").
Proof.
  intros [Hw [Hf | [config Hf]]].
  - exists ∅.
    unfold save_theme, save_hide_system_processes,
      save_hide_inaccessible_processes, load_theme,
      load_hide_system_processes, load_hide_inaccessible_processes, dump.
    rewrite Hf, Hw. by split_and!.
  - exists config.
    unfold save_theme, save_hide_system_processes,
      save_hide_inaccessible_processes, load_theme,
      load_hide_system_processes, load_hide_inaccessible_processes, dump.
    rewrite Hf, Hw. by split_and!.
Qed.

Lemma usable_saved (config : gmap string jvalue) :
  usable {| file := Object config; writable := true |}.
Proof. split; [done|]. right. by exists config. Qed.

(** X19. On a configuration file that can be rewritten, each setting
    reads back as it was saved, and the file can be rewritten again. *)
Theorem config_round_trip (fs : config_fs) (theme_name : string) (b : bool) :
  usable fs →
  load_theme (save_theme theme_name fs) = JString theme_name
  ∧ load_hide_system_processes (save_hide_system_processes b fs) = JBool b
  ∧ load_hide_inaccessible_processes (save_hide_inaccessible_processes b fs)
    = JBool b
  ∧ usable (save_theme theme_name fs)
  ∧ usable (save_hide_system_processes b fs)
  ∧ usable (save_hide_inaccessible_processes b fs).
Proof.
  intros H. destruct (usable_cases fs H) as (config & Ht & Hs & Hi & _).
  rewrite Ht, Hs, Hi.
  split_and!; try apply usable_saved.
  - unfold load_theme. cbn [file]. by rewrite lookup_insert_eq.
  - unfold load_hide_system_processes. cbn [file].
    by rewrite lookup_insert_eq.
  - unfold load_hide_inaccessible_processes. cbn [file].
    by rewrite lookup_insert_eq.
Qed.

Lemma config_round_trip_witness :
  usable {| file := Missing; writable := true |}
  ∧ load_theme (save_theme "dark" {| file := Missing; writable := true |})
    = JString "dark".
Proof.
  assert (H : usable {| file := Missing; writable := true |})
    by (split; [reflexivity|by left]).
  split; [exact H|].
  apply (config_round_trip _ "dark" true H).
Defined.

(** X20. On a configuration file that can be rewritten, saving one
    setting leaves the two others as they read before. *)
Theorem config_settings_independent (fs : config_fs) (theme_name : string)
    (b : bool) :
  usable fs →
  (load_hide_system_processes (save_theme theme_name fs)
   = load_hide_system_processes fs
   ∧ load_hide_inaccessible_processes (save_theme theme_name fs)
     = load_hide_inaccessible_processes fs)
  ∧ (load_theme (save_hide_system_processes b fs) = load_theme fs
     ∧ load_hide_inaccessible_processes (save_hide_system_processes b fs)
       = load_hide_inaccessible_processes fs)
  ∧ (load_theme (save_hide_inaccessible_processes b fs) = load_theme fs
     ∧ load_hide_system_processes (save_hide_inaccessible_processes b fs)
       = load_hide_system_processes fs).
Proof.
  intros H.
  destruct (usable_cases fs H) as (config & Ht & Hs & Hi & Hlt & Hls & Hli).
  rewrite Ht, Hs, Hi, Hlt, Hls, Hli.
  unfold load_theme, load_hide_system_processes,
    load_hide_inaccessible_processes. cbn [file].
  rewrite !lookup_insert_ne by done.
  split_and!; try done; by destruct (config !! "theme").
Qed.

Lemma config_settings_independent_witness :
  usable (save_theme "dark" {| file := Missing; writable := true |})
  ∧ load_theme
      (save_hide_system_processes true
         (save_theme "dark" {| file := Missing; writable := true |}))
    = JString "dark".
Proof.
  assert (H : usable (save_theme "dark" {| file := Missing; writable := true |}))
    by (split; [reflexivity|right; by eexists]).
  split; [exact H|].
  destruct (config_settings_independent _ "x" true H) as (_ & [-> _] & _).
  reflexivity.
Defined.

(** X21. A configuration file that cannot be read, cannot be parsed or
    holds something else than an object is never repaired: every save
    leaves it as it is, and every load gives the default, light theme and
    both boxes cleared, before and after.  The same holds of every save
    on a file that cannot be written. *)
Theorem broken_config_stays (fs : config_fs) (theme_name : string) (b : bool) :
  (broken fs →
   save_theme theme_name fs = fs
   ∧ save_hide_system_processes b fs = fs
   ∧ save_hide_inaccessible_processes b fs = fs
   ∧ load_theme fs = JString "light"
   ∧ load_hide_system_processes fs = JBool false
   ∧ load_hide_inaccessible_processes fs = JBool false)
  ∧ (writable fs = false →
     save_theme theme_name fs = fs
     ∧ save_hide_system_processes b fs = fs
     ∧ save_hide_inaccessible_processes b fs = fs).
Proof.
  unfold broken, save_theme, save_hide_system_processes,
    save_hide_inaccessible_processes, load_theme, load_hide_system_processes,
    load_hide_inaccessible_processes, dump.
  split.
  - intros [-> | ->]; by split_and!.
  - intros ->. by destruct (file fs).
Qed.

Lemma broken_config_stays_witness :
  broken {| file := Unreadable; writable := true |}
  ∧ load_theme (save_theme "dark" {| file := Unreadable; writable := true |})
    = JString "light".
Proof.
  assert (H : broken {| file := Unreadable; writable := true |}) by (by left).
  split; [exact H|].
  destruct (broken_config_stays {| file := Unreadable; writable := true |}
              "dark" true) as [Hb _].
  destruct (Hb H) as (-> & _ & _ & Hl & _). exact Hl.
Defined.

(** * Opening file locations *)

Lemma locate_one_inv env pids_dict s entry :
  In entry pids_dict →
  locate_inv env pids_dict s → locate_inv env pids_dict (locate_one env s entry).
Proof.
  intros Hentry (Hnd & Hsub & Ho & Hsrc). destruct entry as [p nm].
  unfold locate_one.
  destruct (exe_of env p) as [exe_path| | |str_e] eqn:Hexe;
    try (by split_and!).
  destruct (negb (truthy exe_path) || negb (exists_on_disk env exe_path))
    eqn:Hok; [by split_and!|].
  apply orb_false_iff in Hok as [_ Hex]. apply negb_false_iff in Hex.
  case_bool_decide as Hin; [by split_and!|].
  assert (Hfresh : ¬ In (dirname env exe_path) (revealed s))
    by (intros H; exact (Hin (Hsub _ H))).
  assert (Hnd' : NoDup (revealed s ++ [dirname env exe_path])).
  { apply NoDup_app. split; [done|]. split; [|apply NoDup_singleton].
    intros x Hx Hx'. apply list_elem_of_In in Hx.
    apply list_elem_of_singleton in Hx'. by subst. }
  assert (Hsub' : ∀ d, In d (revealed s ++ [dirname env exe_path]) →
                       d ∈ {[dirname env exe_path]} ∪ unique_dirs s).
  { intros d Hd. apply in_app_or in Hd as [Hd|[<-|[]]]; [|set_solver].
    apply elem_of_union_r. by apply Hsub. }
  destruct (reveal env exe_path (dirname env exe_path)) as [str_e|] eqn:Hrev;
    cbn [opened revealed unique_dirs]; split_and!; try done.
  - by apply sublist_inserts_r.
  - by apply sublist_app.
  - intros d Hd. apply in_app_or in Hd as [Hd|[<-|[]]]; [by apply Hsrc|].
    by exists p, nm, exe_path.
Qed.

Lemma locate_fold_inv env pids_dict :
  ∀ l s, (∀ entry, In entry l → In entry pids_dict) →
         locate_inv env pids_dict s →
         locate_inv env pids_dict (fold_left (locate_one env) l s).
Proof.
  induction l as [|entry l IH]; intros s Hl H; [exact H|].
  cbn [fold_left]. apply IH.
  - intros x Hx. apply Hl. by right.
  - apply locate_one_inv; [apply Hl; by left|exact H].
Qed.

Lemma locate_fold_count env l :
  ∀ s, (length (opened (fold_left (locate_one env) l s))
        + length (locate_failed (fold_left (locate_one env) l s))
        + length (locate_denied (fold_left (locate_one env) l s))
        <= length (opened s) + length (locate_failed s)
           + length (locate_denied s) + length l)%nat.
Proof.
  induction l as [|[p nm] l IH]; intros s; cbn [fold_left length]; [lia|].
  etrans; [apply IH|].
  unfold locate_one.
  destruct (exe_of env p) as [exe_path| | |str_e];
    cbn [opened locate_failed locate_denied]; rewrite ?length_app; cbn; try lia.
  destruct (negb (truthy exe_path) || negb (exists_on_disk env exe_path));
    cbn [opened locate_failed locate_denied]; rewrite ?length_app; cbn; try lia.
  case_bool_decide; [lia|].
  destruct (reveal env exe_path (dirname env exe_path));
    cbn [opened locate_failed locate_denied]; rewrite ?length_app; cbn; lia.
Qed.

(** X22. In a batch, no directory is handed to a file manager twice,
    whether the first attempt opened it or failed; the opened directories
    are distinct, each holds an executable of a target that was found on
    disk, and the three lists together never have more entries than the
    batch has targets. *)
Theorem open_locations_once (env : locate_env) (pids_dict : list (Z * string)) :
  let s := located (open_multiple_file_locations env pids_dict) in
  NoDup (revealed s)
  ∧ NoDup (opened s)
  ∧ opened s `sublist_of` revealed s
  ∧ (∀ d, In d (opened s) →
          ∃ p nm exe_path,
            In (p, nm) pids_dict ∧ exe_of env p = ExePath exe_path
            ∧ exists_on_disk env exe_path = true
            ∧ dirname env exe_path = d ∧ reveal env exe_path d = None)
  ∧ (length (opened s) + length (locate_failed s) + length (locate_denied s)
     <= length pids_dict)%nat.
Proof.
  intros s. subst s. unfold open_multiple_file_locations. cbn [located].
  set (s0 := {| opened := []; locate_failed := []; locate_denied := [];
                unique_dirs := ∅; revealed := [] |}).
  assert (H0 : locate_inv env pids_dict s0).
  { split_and!; [constructor|intros d []|constructor|intros d []]. }
  destruct (locate_fold_inv env pids_dict pids_dict s0 (λ _ H, H) H0)
    as (Hnd & _ & Hsub & Hsrc).
  split_and!; try done.
  - eapply sublist_NoDup; eassumption.
  - pose proof (locate_fold_count env pids_dict s0) as H. cbn in H. lia.
Qed.

Lemma open_locations_once_witness :
  opened (located (open_multiple_file_locations sample_locate_env sample_batch))
  = ["/usr/bin"]
  ∧ NoDup (opened (located (open_multiple_file_locations sample_locate_env
                              sample_batch)))
  ∧ locate_failed (located (open_multiple_file_locations sample_locate_env
                              sample_batch))
    = ["old (PID: 10)"].
Proof.
  split; [vm_compute; reflexivity|]. split; [|vm_compute; reflexivity].
  apply (open_locations_once sample_locate_env sample_batch).
Defined.

(** * The virtual keyboard *)

Lemma drop_last_append (s : string) (c : ascii) :
  drop_last (s ++ String c "") = s.
Proof.
  induction s as [|x s IH]; [reflexivity|].
  rewrite append_cons. cbn [drop_last]. rewrite IH.
  destruct s; reflexivity.
Qed.

Lemma length_append_one (s : string) (c : ascii) :
  (0 <? String.length (s ++ String c ""))%nat = true.
Proof. destruct s; reflexivity. Qed.

Lemma character_key_shape (key : string) :
  In key character_keys →
  ∃ c, key = String c ""
       ∧ String.eqb key "BACK" = false ∧ String.eqb key "SPACE" = false
       ∧ String.eqb key "CLEAR" = false ∧ String.eqb key "DONE" = false.
Proof.
  unfold character_keys. cbn [In]. intros H.
  repeat (destruct H as [<-|H]; [eexists; by split_and!|]). destruct H.
Qed.

Lemma key_pressed_back (kb : VirtualKeyboard) :
  key_pressed "BACK" kb
  = {| text_buffer := if (0 <? String.length (text_buffer kb))%nat
                      then drop_last (text_buffer kb) else text_buffer kb;
       accepted := accepted kb;
       parent_search_input :=
         if (0 <? String.length (text_buffer kb))%nat
         then drop_last (text_buffer kb) else text_buffer kb |}.
Proof. reflexivity. Qed.

Lemma key_pressed_space (kb : VirtualKeyboard) :
  key_pressed "SPACE" kb
  = {| text_buffer := text_buffer kb ++ " "; accepted := accepted kb;
       parent_search_input := text_buffer kb ++ " " |}.
Proof. reflexivity. Qed.

(** X23. On the virtual keyboard BACK undoes a character key and SPACE:
    the buffer is the one before the key, and the search box of the
    parent window shows it; BACK on an empty buffer leaves it empty. *)
Theorem keyboard_back_undoes (key : string) (kb : VirtualKeyboard) :
  (In key character_keys ∨ key = "SPACE" →
   text_buffer (key_pressed "BACK" (key_pressed key kb)) = text_buffer kb
   ∧ parent_search_input (key_pressed "BACK" (key_pressed key kb))
     = text_buffer kb)
  ∧ (text_buffer kb = "" → text_buffer (key_pressed "BACK" kb) = "").
Proof.
  split.
  - intros [H | ->].
    + destruct (character_key_shape key H) as (c & -> & Hb & Hs & Hc & Hd).
      rewrite key_pressed_back. unfold key_pressed. rewrite Hb, Hs, Hc, Hd.
      cbn [text_buffer parent_search_input].
      by rewrite length_append_one, drop_last_append.
    + rewrite key_pressed_back, key_pressed_space.
      cbn [text_buffer parent_search_input].
      by rewrite length_append_one, drop_last_append.
  - intros H. rewrite key_pressed_back. cbn [text_buffer]. by rewrite H.
Qed.

Lemma keyboard_back_undoes_witness :
  In "x" character_keys
  ∧ text_buffer
      (key_pressed "BACK"
         (key_pressed "x" {| text_buffer := "chrome"; accepted := false;
                             parent_search_input := "chrome" |}))
    = "chrome".
Proof.
  assert (H : In "x" character_keys) by (vm_compute; tauto).
  split; [exact H|].
  exact (proj1 (proj1 (keyboard_back_undoes "x"
                         {| text_buffer := "chrome"; accepted := false;
                            parent_search_input := "chrome" |})
                  (or_introl H))).
Defined.
